(** * rocksdb_benchmark.cpp: a shallow embedding of the benchmark harness

    The harness drives a key-value engine through eight workloads and prints
    throughput and memory figures.  The engine (RocksDB), the process clock,
    the resident-memory probe and the C library's [rand] are outside the
    program; they are modelled by an environment [Env] of oracles and by an
    explicit [World] that the harness threads through its calls:

    - the on-disk state of every database path, a finite map per path;
    - the chronological record of everything the harness did (engine calls,
      lines written to stdout and stderr), newest event first;
    - the number of [rand()] calls made so far.

    C [int] counters are modelled by [Z].  Every counter of the program is
    bounded by one of its [int] constants, so no counter wraps around. *)

From stdpp Require Import gmap strings list fin_maps.
From Stdlib Require Import Ascii ZArith DecimalString DecimalN Lia.

Local Open Scope Z_scope.

(** ** printf-style formatting *)

Module Fmt.

(** Decimal digits of a non-negative number, ["0"] for zero. *)
Definition digits (n : N) : string :=
  NilEmpty.string_of_uint (N.to_uint n).

Fixpoint zeros (k : nat) : string :=
  match k with
  | O => EmptyString
  | S k' => String "0"%char (zeros k')
  end.

Definition zero_pad (width : nat) (s : string) : string :=
  zeros (Nat.sub width (String.length s)) +:+ s.

(** [d width z] is what printf prints for ["%0<width>d"] (and for
    ["%0<width>lld"]); [d 0] is plain ["%d"].  The sign counts in the
    width. *)
Definition d (width : nat) (z : Z) : string :=
  if z <? 0
  then String "-"%char (zero_pad (Nat.sub width 1) (digits (Z.to_N (- z))))
  else zero_pad width (digits (Z.to_N z)).

(** The value of a string of decimal digits; leading zeros are ignored. *)
Definition value (s : string) : option N :=
  N.of_uint <$> NilEmpty.uint_of_string s.

End Fmt.

(** ** Constants of the program (the [#define]s) *)

Record Config := {
  NUM_RECORDS : Z;
  BATCH_SIZE : Z;
  NUM_READS : Z;
  NUM_UPDATES : Z;
  NUM_DELETES : Z
}.

(** The values compiled into the program. *)
Definition default_config : Config :=
  {| NUM_RECORDS := 1000000; BATCH_SIZE := 1000; NUM_READS := 50000;
     NUM_UPDATES := 10000; NUM_DELETES := 5000 |}.

Definition DB_FILE : string := "benchmark_rocksdb".
Definition BULK_DB_FILE : string := "benchmark_bulk_rocksdb".

(** ** The engine interface, as the harness uses it *)

Inductive BatchOp :=
| BPut (key value : string)
| BDelete (key : string).

(** [rocksdb::WriteOptions]; a default-constructed one has [sync = false]. *)
Record WriteOptions := { sync : bool }.

Definition WriteOptions_default : WriteOptions := {| sync := false |}.
Definition set_sync (b : bool) (o : WriteOptions) : WriteOptions :=
  {| sync := b |}.

(** How [format_memory] renders a size given in kilobytes: the unit it
    chooses, with the figure it converts to that unit. *)
Inductive MemText :=
| MemGB (kb : Z)
| MemMB (kb : Z)
| MemKB (kb : Z).

Definition mem_kb (m : MemText) : Z :=
  match m with
  | MemGB kb | MemMB kb | MemKB kb => kb
  end.

(** Lines the harness prints on stdout. *)
Inductive Out :=
| OBanner
| OText (s : string)
| OHeader (title : string)
| OConfiguration
| OResult (test : string) (rate : option string) (elapsed_us : Z) (ops : Z)
| OMemAfterOpen (m : MemText)
| OTickers
| OInternal (cache memtables readers total : MemText)
| OSummary (total_us : Z) (initial final peak delta : MemText)
| OComplete.

Inductive Event :=
| EvOpen (path : string) (ok : bool)
| EvClose (path : string)
| EvDestroy (path : string)
| EvWrite (path : string) (opts : WriteOptions) (batch : list BatchOp) (ok : bool)
| EvGet (path : string) (key : string)
| EvIterate (path : string) (visited : Z)
| EvGetProperty (path : string) (name : string) (result : option string)
| EvStdout (o : Out)
| EvStderr (msg : string).

Record World := {
  disk : gmap string (gmap string string);
  trace : list Event;
  n_rand : nat
}.

(** A process that has done nothing yet, on a machine with no database. *)
Definition World_initial : World :=
  {| disk := ∅; trace := []; n_rand := 0 |}.

(** How a run of [main] ends. *)
Inductive Exit :=
| Returned (code : Z)
| Uncaught (exception : string).

(** What the program cannot decide itself. *)
Record Env := {
  (** the value of the k-th call of [rand()], in [0, RAND_MAX] *)
  rand_at : nat -> Z;
  (** the VmRSS figure of /proc/self/status at the k-th call of
      [get_memory_usage], [None] when the file or the line is missing *)
  vmrss_at : nat -> option Z;
  (** [gettimeofday] when the process starts, in microseconds *)
  boot_time : Z;
  (** the time an engine call or a print takes, in microseconds *)
  cost : Event -> Z;
  (** whether [DB::Open] succeeds on a path *)
  open_ok : string -> bool;
  (** whether the k-th [DB::Write] of the process succeeds *)
  write_ok : nat -> bool;
  (** what [DB::GetProperty] yields for a property name, [None] when the
      engine does not support it *)
  property : string -> option string
}.

Definition is_write (e : Event) : bool :=
  match e with EvWrite _ _ _ _ => true | _ => false end.

(** The commits issued so far. *)
Definition commits (w : World) : list Event :=
  List.filter is_write (trace w).

Definition store_of (w : World) (path : string) : gmap string string :=
  default ∅ (disk w !! path).

Definition apply_op (s : gmap string string) (op : BatchOp) : gmap string string :=
  match op with
  | BPut k v => <[k := v]> s
  | BDelete k => delete k s
  end.

Definition apply_batch (batch : list BatchOp) (s : gmap string string)
  : gmap string string :=
  foldl apply_op s batch.

Fixpoint sum_cost (c : Event -> Z) (l : list Event) : Z :=
  match l with
  | [] => 0
  | e :: l' => c e + sum_cost c l'
  end.

(** [std::stoull(s)]: skips white space, takes an optional sign and the
    longest run of decimal digits; throws when there is no digit or when the
    digits exceed 64 bits; a minus sign negates modulo 2^64. *)
Module Stoull.

Definition is_space (a : ascii) : bool :=
  let n := nat_of_ascii a in
  (Nat.eqb n 32 || (Nat.leb 9 n && Nat.leb n 13))%bool.

Definition digit_of (a : ascii) : option Z :=
  let n := Z.of_nat (nat_of_ascii a) in
  if (48 <=? n) && (n <=? 57) then Some (n - 48) else None.

Fixpoint skip_space (s : string) : string :=
  match s with
  | String a s' => if is_space a then skip_space s' else s
  | EmptyString => s
  end.

(** digits read so far ([None]: none yet) and their value *)
Fixpoint read_digits (s : string) (acc : option Z) : option Z :=
  match s with
  | String a s' =>
      match digit_of a with
      | Some v => read_digits s' (Some (10 * default 0 acc + v))
      | None => acc
      end
  | EmptyString => acc
  end.

Definition stoull (s : string) : option Z :=
  let s := skip_space s in
  let '(neg, s) :=
    match s with
    | String "-"%char s' => (true, s')
    | String "+"%char s' => (false, s')
    | _ => (false, s)
    end in
  match read_digits s None with
  | None => None                                  (* std::invalid_argument *)
  | Some v =>
      if v <? 2 ^ 64
      then Some (if neg then (- v) mod 2 ^ 64 else v)
      else None                                   (* std::out_of_range *)
  end.

End Stoull.

Section Harness.

Variable cfg : Config.
Variable env : Env.

(** *** Instrumentation *)

Definition emit (e : Event) (w : World) : World :=
  {| disk := disk w; trace := e :: trace w; n_rand := n_rand w |}.

Definition printf (o : Out) (w : World) : World := emit (EvStdout o) w.

(** [get_time()]: the clock, in microseconds.  Time passes only while an
    engine call or a print is under way. *)
Definition get_time (w : World) : Z :=
  boot_time env + sum_cost (cost env) (trace w).

(** [get_memory_usage()], the k-th call of the run: [rss] stays 0 when
    the figure cannot be read. *)
Definition get_memory_usage (k : nat) : Z :=
  default 0 (vmrss_at env k).

(** [rand()] *)
Definition rand (w : World) : Z * World :=
  (rand_at env (n_rand w),
   {| disk := disk w; trace := trace w; n_rand := S (n_rand w) |}).

(** [format_number] *)
Definition format_number (num : Z) : string :=
  if 1000000 <=? num then
    Fmt.d 0 (Z.quot num 1000000) +:+ "," +:+
    Fmt.d 3 (Z.rem (Z.quot num 1000) 1000) +:+ "," +:+
    Fmt.d 3 (Z.rem num 1000)
  else if 1000 <=? num then
    Fmt.d 0 (Z.quot num 1000) +:+ "," +:+ Fmt.d 3 (Z.rem num 1000)
  else Fmt.d 0 num.

(** [format_memory] *)
Definition format_memory (kb : Z) : MemText :=
  if 1024 * 1024 <=? kb then MemGB kb
  else if 1024 <=? kb then MemMB kb
  else MemKB kb.

(** [(long long)(ops / elapsed)], the double quotient taken as the exact
    one and truncated toward zero; a zero divisor gives an infinity or a
    NaN, which has no integer value. *)
Definition ops_per_sec (ops elapsed_us : Z) : option Z :=
  if elapsed_us =? 0 then None
  else Some (Z.quot (ops * 1000000) elapsed_us).

(** [print_result]: the division is made whatever [ops] and [elapsed]
    are. *)
Definition print_result (test : string) (elapsed_us : Z) (ops : Z)
    (w : World) : World :=
  let rate := ops_per_sec ops elapsed_us in
  let buf := format_number <$> rate in
  printf (OResult test buf elapsed_us ops) w.

Definition print_header (title : string) (w : World) : World :=
  printf (OHeader title) w.

(** [configure_small_db_options]: fills the options and prints them. *)
Definition configure_small_db_options (w : World) : World :=
  printf OConfiguration w.

(** *** Engine calls *)

Definition DestroyDB (path : string) (w : World) : World :=
  emit (EvDestroy path)
    {| disk := delete path (disk w); trace := trace w; n_rand := n_rand w |}.

(** [DB::Open]: the handle is the path. *)
Definition DB_Open (path : string) (w : World) : bool * World :=
  let ok := open_ok env path in
  (ok, emit (EvOpen path ok) w).

(** [delete db] *)
Definition DB_close (db : string) (w : World) : World :=
  emit (EvClose db) w.

(** [db->Write(write_opts, &batch)]: a commit that succeeds applies the
    batch in order; one that fails leaves the store as it was. *)
Definition DB_Write (db : string) (opts : WriteOptions)
    (batch : list BatchOp) (w : World) : bool * World :=
  let ok := write_ok env (length (commits w)) in
  let d :=
    if ok then <[db := apply_batch batch (store_of w db)]> (disk w)
    else disk w in
  (ok, emit (EvWrite db opts batch ok)
         {| disk := d; trace := trace w; n_rand := n_rand w |}).

(** [db->Get(read_opts, key, &value)] *)
Definition DB_Get (db : string) (key : string) (w : World)
  : option string * World :=
  (store_of w db !! key, emit (EvGet db key) w).

(** [db->GetProperty(name, &value)]: [value] is written only when the
    property is supported. *)
Definition DB_GetProperty (db : string) (name : string) (value : string)
    (w : World) : bool * string * World :=
  let r := property env name in
  (bool_decide (is_Some r), default value r,
   emit (EvGetProperty db name r) w).

Definition key_of (idx : Z) : string := "key_" +:+ Fmt.d 8 idx.

(** The record the sequential load writes for index [i]. *)
Definition sequential_put (i : Z) : BatchOp :=
  let key := key_of i in
  let value :=
    "value_" +:+ Fmt.d 8 i +:+
    "_with_some_additional_data_to_make_it_realistic" in
  BPut key value.

(** *** BENCHMARK 1: Sequential Writes *)

(** The inner loop: [for (j = 0; j < BATCH_SIZE && i < NUM_RECORDS; j++, i++)],
    [k] iterations of [j] left. *)
Fixpoint fill_batch (k : nat) (i : Z) (batch : list BatchOp)
  : Z * list BatchOp :=
  match k with
  | O => (i, batch)
  | S k' =>
      if i <? NUM_RECORDS cfg then
        fill_batch k' (i + 1) (batch ++ [sequential_put i])
      else (i, batch)
  end.

(** The outer loop: [for (i = 0; i < NUM_RECORDS; ) { ... }].  It has no
    step of its own, so it ends only if the inner loop advances [i]. *)
Fixpoint write_batches (fuel : nat) (db : string) (write_opts : WriteOptions)
    (i : Z) (w : World) : option World :=
  match fuel with
  | O => None
  | S fuel' =>
      if i <? NUM_RECORDS cfg then
        let '(i', batch) := fill_batch (Z.to_nat (BATCH_SIZE cfg)) i [] in
        let '(_, w) := DB_Write db write_opts batch w in
        write_batches fuel' db write_opts i' w
      else Some w
  end.

Definition bench_sequential_writes (fuel : nat) (db : string) (w : World)
  : option World :=
  let w := print_header "BENCHMARK 1: Sequential Writes" w in
  let w := printf (OText ("Writing " +:+ Fmt.d 0 (NUM_RECORDS cfg) +:+
                         " records in batches of " +:+
                         Fmt.d 0 (BATCH_SIZE cfg) +:+ "...")) w in
  let write_opts := set_sync true WriteOptions_default in
  let start := get_time w in
  match write_batches fuel db write_opts 0 w with
  | None => None
  | Some w =>
      let end_ := get_time w in
      Some (print_result "Sequential writes" (end_ - start)
              (NUM_RECORDS cfg) w)
  end.

(** *** BENCHMARK 2: Random Reads *)

Definition read_random_key (db : string) (w : World) : World :=
  let '(r, w) := rand w in
  let idx := Z.rem r (NUM_RECORDS cfg) in
  let key := key_of idx in
  let '(_, w) := DB_Get db key w in
  w.

(** [for (i = 0; i < NUM_READS; i++)], [k] iterations left *)
Fixpoint read_loop (k : nat) (db : string) (w : World) : World :=
  match k with
  | O => w
  | S k' => read_loop k' db (read_random_key db w)
  end.

Definition bench_random_reads (db : string) (w : World) : World :=
  let w := print_header "BENCHMARK 2: Random Reads" w in
  let w := printf (OText ("Reading " +:+ Fmt.d 0 (NUM_READS cfg) +:+
                         " random records...")) w in
  let start := get_time w in
  let w := read_loop (Z.to_nat (NUM_READS cfg)) db w in
  let end_ := get_time w in
  print_result "Random reads" (end_ - start) (NUM_READS cfg) w.

(** *** BENCHMARK 3: Sequential Scan *)

(** [for (it->SeekToFirst(); it->Valid(); it->Next()) count++] over the
    entries the iterator yields *)
Definition scan_count (entries : list (string * string)) : Z :=
  foldl (fun count _ => count + 1) 0 entries.

Definition bench_sequential_scan (db : string) (w : World) : World :=
  let w := print_header "BENCHMARK 3: Sequential Scan" w in
  let w := printf (OText "Scanning all records...") w in
  let start := get_time w in
  let count := scan_count (map_to_list (store_of w db)) in
  let w := emit (EvIterate db count) w in
  let end_ := get_time w in
  print_result "Sequential scan" (end_ - start) count w.

(** *** BENCHMARK 4: Random Updates *)

Fixpoint update_loop (k : nat) (batch : list BatchOp) (w : World)
  : list BatchOp * World :=
  match k with
  | O => (batch, w)
  | S k' =>
      let '(r, w) := rand w in
      let idx := Z.rem r (NUM_RECORDS cfg) in
      let key := key_of idx in
      let value := "updated_value_" +:+ Fmt.d 8 idx in
      update_loop k' (batch ++ [BPut key value]) w
  end.

Definition bench_random_updates (db : string) (w : World) : World :=
  let w := print_header "BENCHMARK 4: Random Updates" w in
  let w := printf (OText ("Updating " +:+ Fmt.d 0 (NUM_UPDATES cfg) +:+
                         " random records...")) w in
  let start := get_time w in
  let '(batch, w) := update_loop (Z.to_nat (NUM_UPDATES cfg)) [] w in
  let write_opts := set_sync true WriteOptions_default in
  let '(_, w) := DB_Write db write_opts batch w in
  let end_ := get_time w in
  print_result "Random updates" (end_ - start) (NUM_UPDATES cfg) w.

(** *** BENCHMARK 5: Random Deletes *)

Fixpoint delete_loop (k : nat) (batch : list BatchOp) (w : World)
  : list BatchOp * World :=
  match k with
  | O => (batch, w)
  | S k' =>
      let '(r, w) := rand w in
      let idx := Z.rem r (NUM_RECORDS cfg) in
      let key := key_of idx in
      delete_loop k' (batch ++ [BDelete key]) w
  end.

Definition bench_random_deletes (db : string) (w : World) : World :=
  let w := print_header "BENCHMARK 5: Random Deletes" w in
  let w := printf (OText ("Deleting " +:+ Fmt.d 0 (NUM_DELETES cfg) +:+
                         " random records...")) w in
  let start := get_time w in
  let '(batch, w) := delete_loop (Z.to_nat (NUM_DELETES cfg)) [] w in
  let write_opts := set_sync true WriteOptions_default in
  let '(_, w) := DB_Write db write_opts batch w in
  let end_ := get_time w in
  print_result "Random deletes" (end_ - start) (NUM_DELETES cfg) w.

(** *** BENCHMARK 6: Exists Checks *)

Definition bench_exists_checks (db : string) (w : World) : World :=
  let w := print_header "BENCHMARK 6: Exists Checks" w in
  let w := printf (OText ("Checking existence of " +:+ Fmt.d 0 (NUM_READS cfg) +:+
                         " keys...")) w in
  let start := get_time w in
  let w := read_loop (Z.to_nat (NUM_READS cfg)) db w in
  let end_ := get_time w in
  print_result "Exists checks" (end_ - start) (NUM_READS cfg) w.

(** *** BENCHMARK 7: Mixed Workload *)

(** One iteration of the loop: two draws, one operation, and the
    periodic flush. *)
Definition mixed_step (db : string) (write_opts : WriteOptions)
    (batch : list BatchOp) (w : World) : list BatchOp * World :=
  let '(r1, w) := rand w in
  let idx := Z.rem r1 (NUM_RECORDS cfg) in
  let '(r2, w) := rand w in
  let op := Z.rem r2 100 in
  let key := key_of idx in
  let '(batch, w) :=
    if op <? 70 then
      let '(_, w) := DB_Get db key w in (batch, w)
    else if op <? 90 then
      let value := "mixed_value_" +:+ Fmt.d 8 idx in
      (batch ++ [BPut key value], w)
    else
      (batch ++ [BDelete key], w) in
  if 100 <? Z.of_nat (length batch) then
    let '(_, w) := DB_Write db write_opts batch w in
    ([], w)
  else (batch, w).

Fixpoint mixed_loop (k : nat) (db : string) (write_opts : WriteOptions)
    (batch : list BatchOp) (w : World) : list BatchOp * World :=
  match k with
  | O => (batch, w)
  | S k' =>
      let '(batch, w) := mixed_step db write_opts batch w in
      mixed_loop k' db write_opts batch w
  end.

(** The body of [bench_mixed_workload] for a given [total_ops]. *)
Definition mixed_workload (total_ops : Z) (db : string) (w : World) : World :=
  let w := print_header "BENCHMARK 7: Mixed Workload" w in
  let w := printf (OText "70% reads, 20% writes, 10% deletes...") w in
  let start := get_time w in
  let write_opts := set_sync true WriteOptions_default in
  let '(batch, w) := mixed_loop (Z.to_nat total_ops) db write_opts [] w in
  let w :=
    if 0 <? Z.of_nat (length batch) then
      snd (DB_Write db write_opts batch w)
    else w in
  let end_ := get_time w in
  print_result "Mixed workload" (end_ - start) total_ops w.

Definition bench_mixed_workload (db : string) (w : World) : World :=
  let total_ops := 20000 in
  mixed_workload total_ops db w.

(** *** BENCHMARK 8: Bulk Insert *)

(** [for (i = 0; i < NUM_RECORDS; i++)], [k] iterations left *)
Fixpoint bulk_loop (k : nat) (i : Z) (batch : list BatchOp) : list BatchOp :=
  match k with
  | O => batch
  | S k' =>
      let key := "bulk_key_" +:+ Fmt.d 8 i in
      let value := "bulk_value_" +:+ Fmt.d 8 i in
      bulk_loop k' (i + 1) (batch ++ [BPut key value])
  end.

Definition bench_bulk_insert (w : World) : World :=
  let w := print_header "BENCHMARK 8: Bulk Insert (Single Transaction)" w in
  let w := printf (OText ("Inserting " +:+ Fmt.d 0 (NUM_RECORDS cfg) +:+
                         " records in one transaction...")) w in
  let w := configure_small_db_options w in
  let '(status, w) := DB_Open BULK_DB_FILE w in
  if negb status then
    emit (EvStderr "Failed to open database for bulk insert") w
  else
    let db := BULK_DB_FILE in
    let start := get_time w in
    let batch := bulk_loop (Z.to_nat (NUM_RECORDS cfg)) 0 [] in
    let write_opts := set_sync true WriteOptions_default in
    let '(_, w) := DB_Write db write_opts batch w in
    let end_ := get_time w in
    let w := DB_close db w in
    let w := DestroyDB BULK_DB_FILE w in
    print_result "Bulk insert" (end_ - start) (NUM_RECORDS cfg) w.

(** *** main *)

(** [if (m > mem_peak) mem_peak = m;] *)
Definition raise_peak (m mem_peak : Z) : Z :=
  if mem_peak <? m then m else mem_peak.

(** The tail of [main], from the summary on. *)
Definition main_summary (total_start mem_start mem_end mem_peak : Z)
    (w : World) : Exit * World :=
  let total_end := get_time w in
  let w :=
    printf (OSummary (total_end - total_start)
              (format_memory mem_start) (format_memory mem_end)
              (format_memory mem_peak) (format_memory (mem_end - mem_start)))
      w in
  let w := printf OComplete w in
  let w := DestroyDB DB_FILE w in
  (Returned 0, w).

(** The part of [main] that reads the engine's memory properties.
    [std::stoull] throws on a string it cannot read and nothing catches
    it. *)
Definition main_internal_stats (db : string) (w : World)
  : option Exit * World :=
  let mem_usage := EmptyString in
  let '(_, mem_usage, w) :=
    DB_GetProperty db "rocksdb.estimate-table-readers-mem" mem_usage w in
  match Stoull.stoull mem_usage with
  | None => (Some (Uncaught "std::stoull"), w)
  | Some table_readers_mem =>
  let '(_, mem_usage, w) :=
    DB_GetProperty db "rocksdb.cur-size-all-mem-tables" mem_usage w in
  match Stoull.stoull mem_usage with
  | None => (Some (Uncaught "std::stoull"), w)
  | Some memtable_mem =>
  let '(_, mem_usage, w) :=
    DB_GetProperty db "rocksdb.block-cache-usage" mem_usage w in
  match Stoull.stoull mem_usage with
  | None => (Some (Uncaught "std::stoull"), w)
  | Some cache_mem =>
      let total := (cache_mem + memtable_mem + table_readers_mem) mod 2 ^ 64 in
      (None,
       printf (OInternal (format_memory (cache_mem / 1024))
                 (format_memory (memtable_mem / 1024))
                 (format_memory (table_readers_mem / 1024))
                 (format_memory (total / 1024))) w)
  end end end.

Definition main (fuel : nat) (w : World) : option (Exit * World) :=
  let w := printf OBanner w in
  let mem_start := get_memory_usage 0 in
  let w := printf (OText "Initializing database...") w in
  let w := configure_small_db_options w in
  let w := DestroyDB DB_FILE w in
  let '(status, w) := DB_Open DB_FILE w in
  if negb status then
    Some (Returned 1, emit (EvStderr "Failed to open RocksDB: ") w)
  else
    let db := DB_FILE in
    let mem_after_open := get_memory_usage 1 in
    let w := printf (OMemAfterOpen (format_memory (mem_after_open - mem_start))) w in
    let total_start := get_time w in
    let mem_peak := mem_after_open in
    match bench_sequential_writes fuel db w with
    | None => None
    | Some w =>
        let mem_after_writes := get_memory_usage 2 in
        let mem_peak := raise_peak mem_after_writes mem_peak in
        let w := bench_random_reads db w in
        let mem_after_reads := get_memory_usage 3 in
        let mem_peak := raise_peak mem_after_reads mem_peak in
        let w := bench_sequential_scan db w in
        let w := bench_random_updates db w in
        let w := bench_random_deletes db w in
        let w := bench_exists_checks db w in
        let w := bench_mixed_workload db w in
        let mem_end := get_memory_usage 4 in
        let mem_peak := raise_peak mem_end mem_peak in
        let w := printf OTickers w in
        match main_internal_stats db w with
        | (Some e, w) => Some (e, w)
        | (None, w) =>
            let w := DB_close db w in
            let w := bench_bulk_insert w in
            Some (main_summary total_start mem_start mem_end mem_peak w)
        end
    end.

End Harness.

(** * Predicates on runs, and concrete environments *)

Definition emitted (P : Event -> Prop) (w w' : World) : Prop :=
  exists evs, trace w' = evs ++ trace w /\ Forall P evs.

Definition durable (e : Event) : Prop :=
  match e with
  | EvWrite _ opts _ _ => sync opts = true
  | _ => True
  end.

Definition lookup_or_scan (e : Event) : Prop :=
  match e with
  | EvStdout _ | EvGet _ _ | EvIterate _ _ => True
  | _ => False
  end.

Definition no_diagnostic (e : Event) : Prop :=
  match e with
  | EvStderr _ => False
  | _ => True
  end.

Definition batch_size (e : Event) : Z :=
  match e with
  | EvWrite _ _ batch _ => Z.of_nat (length batch)
  | _ => 0
  end.

(** The sizes of the batches committed so far, oldest first. *)
Definition commit_sizes (w : World) : list Z :=
  batch_size <$> List.rev (commits w).

(** [r] records cut into batches of [b]: the full ones, then the short one. *)
Definition chunk_sizes (b r : Z) : list Z :=
  replicate (Z.to_nat (r / b)) b ++ (if r mod b =? 0 then [] else [r mod b]).

(** The world at the moment [main] reads [total_start]: the engine is open
    and the memory after the open has been printed. *)
Definition at_total_start (env : Env) (w : World) : World :=
  printf (OMemAfterOpen
            (format_memory (get_memory_usage env 1 - get_memory_usage env 0)))
    (emit (EvOpen DB_FILE true)
       (DestroyDB DB_FILE
          (configure_small_db_options
             (printf (OText "Initializing database...") (printf OBanner w))))).

(** Workloads 2 to 7 and the ticker lines, run after the sequential load
    has left [w1]. *)
Definition after_workloads (cfg : Config) (env : Env) (w1 : World) : World :=
  printf OTickers
    (bench_mixed_workload cfg env DB_FILE
       (bench_exists_checks cfg env DB_FILE
          (bench_random_deletes cfg env DB_FILE
             (bench_random_updates cfg env DB_FILE
                (bench_sequential_scan env DB_FILE
                   (bench_random_reads cfg env DB_FILE w1)))))).

(** [mem_peak] when [main] prints the summary. *)
Definition final_peak (env : Env) : Z :=
  raise_peak (get_memory_usage env 4)
    (raise_peak (get_memory_usage env 3)
       (raise_peak (get_memory_usage env 2) (get_memory_usage env 1))).

Definition is_summary (e : Event) : bool :=
  match e with
  | EvStdout (OSummary _ _ _ _ _) => true
  | _ => false
  end.

(** The summary a run has printed, if it has. *)
Definition summary (w : World) : option Event :=
  List.find is_summary (trace w).

(** Every engine call succeeds and takes no time; [rand()] always yields 0,
    so every random index is 0 and every mixed operation is a read. *)
Definition env_plain : Env :=
  {| rand_at := fun _ => 0;
     vmrss_at := fun _ => Some 4096;
     boot_time := 0;
     cost := fun _ => 0;
     open_ok := fun _ => true;
     write_ok := fun _ => true;
     property := fun _ => Some "0"%string |}.

(** [rand()] always yields 75: index 75, and 75 % 100 falls in the write
    band of the mixed workload. *)
Definition env_all_writes : Env :=
  {| rand_at := fun _ => 75;
     vmrss_at := vmrss_at env_plain;
     boot_time := 0;
     cost := cost env_plain;
     open_ok := open_ok env_plain;
     write_ok := write_ok env_plain;
     property := property env_plain |}.

(** As [env_all_writes], and every commit fails. *)
Definition env_failing_commits : Env :=
  {| rand_at := fun _ => 75;
     vmrss_at := vmrss_at env_plain;
     boot_time := 0;
     cost := cost env_plain;
     open_ok := open_ok env_plain;
     write_ok := fun _ => false;
     property := property env_plain |}.

(** The iteration of the scan takes 1.5 ms. *)
Definition env_timed_scan : Env :=
  {| rand_at := rand_at env_plain;
     vmrss_at := vmrss_at env_plain;
     boot_time := 0;
     cost := fun e => match e with EvIterate _ _ => 1500 | _ => 0 end;
     open_ok := open_ok env_plain;
     write_ok := write_ok env_plain;
     property := property env_plain |}.

(** A small configuration: five records in batches of two. *)
Definition small_config : Config :=
  {| NUM_RECORDS := 5; BATCH_SIZE := 2; NUM_READS := 3;
     NUM_UPDATES := 2; NUM_DELETES := 1 |}.

Definition is_stderr (e : Event) : bool :=
  match e with EvStderr _ => true | _ => false end.

Definition commit_failed (e : Event) : bool :=
  match e with EvWrite _ _ _ ok => negb ok | _ => false end.

Definition PROP_TABLE_READERS : string := "rocksdb.estimate-table-readers-mem".
Definition PROP_MEMTABLES : string := "rocksdb.cur-size-all-mem-tables".
Definition PROP_BLOCK_CACHE : string := "rocksdb.block-cache-usage".

(** The engine answers each of the three property queries with a number. *)
Definition stats_readable (env : Env) : Prop :=
  is_Some (property env PROP_TABLE_READERS ≫= Stoull.stoull) /\
  is_Some (property env PROP_MEMTABLES ≫= Stoull.stoull) /\
  is_Some (property env PROP_BLOCK_CACHE ≫= Stoull.stoull).

(** Fuel that lets the sequential load of [cfg] end. *)
Definition enough_fuel (cfg : Config) : nat := S (Z.to_nat (NUM_RECORDS cfg)).

(** Resident memory is 5000 KB at the first sample and 4000 KB at every
    later one. *)
Definition env_shrinking_rss : Env :=
  {| rand_at := rand_at env_plain;
     vmrss_at := fun k => match k with O => Some 5000 | S _ => Some 4000 end;
     boot_time := 0;
     cost := cost env_plain;
     open_ok := open_ok env_plain;
     write_ok := write_ok env_plain;
     property := property env_plain |}.

(** The engine supports none of the memory properties. *)
Definition env_no_stats : Env :=
  {| rand_at := rand_at env_plain;
     vmrss_at := vmrss_at env_plain;
     boot_time := 0;
     cost := cost env_plain;
     open_ok := open_ok env_plain;
     write_ok := write_ok env_plain;
     property := fun _ => None |}.

(** No database can be opened. *)
Definition env_no_engine : Env :=
  {| rand_at := rand_at env_plain;
     vmrss_at := vmrss_at env_plain;
     boot_time := 0;
     cost := cost env_plain;
     open_ok := fun _ => false;
     write_ok := write_ok env_plain;
     property := property env_plain |}.

(** Only the database of the bulk load cannot be opened. *)
Definition env_bulk_unopenable : Env :=
  {| rand_at := rand_at env_plain;
     vmrss_at := vmrss_at env_plain;
     boot_time := 0;
     cost := cost env_plain;
     open_ok := fun path => negb (String.eqb path BULK_DB_FILE);
     write_ok := write_ok env_plain;
     property := property env_plain |}.

(** A call on the engine of the bulk load that is not one of its
    operations: its open, its close, its destroy. *)
Definition bulk_engine_call (e : Event) : bool :=
  match e with
  | EvOpen path _ | EvClose path | EvDestroy path => String.eqb path BULK_DB_FILE
  | _ => false
  end.

(** Opening the engine of the bulk load takes 3 s, closing it 1 s and
    destroying it 2 s; nothing else takes time. *)
Definition env_slow_bulk_engine : Env :=
  {| rand_at := rand_at env_plain;
     vmrss_at := vmrss_at env_plain;
     boot_time := 0;
     cost := fun e =>
       match e with
       | EvOpen path _ => if String.eqb path BULK_DB_FILE then 3000000 else 0
       | EvClose path => if String.eqb path BULK_DB_FILE then 1000000 else 0
       | EvDestroy path => if String.eqb path BULK_DB_FILE then 2000000 else 0
       | _ => 0
       end;
     open_ok := open_ok env_plain;
     write_ok := write_ok env_plain;
     property := property env_plain |}.

(** The summary line of a run whose bulk load ended in [wb] and whose
    clock read [ts] at [total_start]. *)
Definition summary_line (env : Env) (ts : Z) (wb : World) : Event :=
  EvStdout
    (OSummary (get_time env wb - ts)
       (format_memory (get_memory_usage env 0))
       (format_memory (get_memory_usage env 4))
       (format_memory (final_peak env))
       (format_memory (get_memory_usage env 4 - get_memory_usage env 0))).

(** ** Further predicates on runs, and the status file *)

(** The key a batched mutation is about. *)
Definition op_key (op : BatchOp) : string :=
  match op with
  | BPut key _ | BDelete key => key
  end.

(** [key] is the key of an index of the main run's range [0, NUM_RECORDS). *)
Definition key_in_range (cfg : Config) (key : string) : Prop :=
  exists idx, 0 <= idx < NUM_RECORDS cfg /\ key = key_of idx.

(** Every key an event reads or mutates is in range. *)
Definition touches_range (cfg : Config) (e : Event) : Prop :=
  match e with
  | EvGet _ key => key_in_range cfg key
  | EvWrite _ _ batch _ => Forall (fun op => key_in_range cfg (op_key op)) batch
  | _ => True
  end.

(** The value the sequential load stores under the key of index [i]. *)
Definition sequential_value (i : Z) : string :=
  "value_" +:+ Fmt.d 8 i +:+ "_with_some_additional_data_to_make_it_realistic".

Definition is_delete (op : BatchOp) : Prop :=
  match op with BDelete _ => True | BPut _ _ => False end.

Definition is_put (op : BatchOp) : Prop :=
  match op with BPut _ _ => True | BDelete _ => False end.

(** The number of point lookups issued so far. *)
Fixpoint gets_in (l : list Event) : Z :=
  match l with
  | [] => 0
  | EvGet _ _ :: l' => 1 + gets_in l'
  | _ :: l' => gets_in l'
  end.

Definition gets_issued (w : World) : Z := gets_in (trace w).

(** The record the bulk load writes for index [i]. *)
Definition bulk_put (i : Z) : BatchOp :=
  BPut ("bulk_key_" +:+ Fmt.d 8 i) ("bulk_value_" +:+ Fmt.d 8 i).

Definition result_name (e : Event) : option string :=
  match e with
  | EvStdout (OResult test _ _ _) => Some test
  | _ => None
  end.

(** The workloads that have reported a result so far, oldest first. *)
Definition results (w : World) : list string :=
  omap result_name (List.rev (trace w)).

(** A printed figure with its thousands separators taken out. *)
Fixpoint strip_commas (s : string) : string :=
  match s with
  | EmptyString => EmptyString
  | String c s' =>
      if Ascii.eqb c ","%char then strip_commas s' else String c (strip_commas s')
  end.

Fixpoint all_digits (s : string) : bool :=
  match s with
  | EmptyString => true
  | String c s' => bool_decide (is_Some (Stoull.digit_of c)) && all_digits s'
  end.

(** The accumulator after reading the digits of [s], starting from [a]. *)
Fixpoint digits_from (s : string) (a : Z) : Z :=
  match s with
  | EmptyString => a
  | String c s' => digits_from s' (10 * a + default 0 (Stoull.digit_of c))
  end.

(** What [format_number] puts between two separators: three digits worth
    [r]. *)
Definition three_digits (r : Z) : bool :=
  all_digits (Fmt.d 3 r) && Nat.eqb (String.length (Fmt.d 3 r)) 3
  && (digits_from (Fmt.d 3 r) 0 =? r).

(** The body of [get_memory_usage] on the text of /proc/self/status. *)
Module ProcStatus.

Definition newline : ascii := "010"%char.

(** [fgets] proper: at most [n] characters, up to and including the first
    newline; the line read and the rest of the file. *)
Fixpoint fgets_chars (n : nat) (s : string) : string * string :=
  match n, s with
  | S n', String c s' =>
      if Ascii.eqb c newline then (String c EmptyString, s')
      else let '(line, rest) := fgets_chars n' s' in (String c line, rest)
  | _, _ => (EmptyString, s)
  end.

(** [fgets(line, size, fp)]: [None] at the end of the file. *)
Definition fgets (size : nat) (s : string) : option (string * string) :=
  match s with
  | EmptyString => None
  | _ => Some (fgets_chars (Nat.sub size 1) s)
  end.

(** [strncmp(s, p, strlen(p)) == 0]: [s] starts with [p]. *)
Fixpoint starts_with (p s : string) : bool :=
  match p, s with
  | EmptyString, _ => true
  | String a p', String b s' => Ascii.eqb a b && starts_with p' s'
  | String _ _, EmptyString => false
  end.

(** [line + k] *)
Fixpoint advance (k : nat) (s : string) : string :=
  match k, s with
  | S k', String _ s' => advance k' s'
  | _, _ => s
  end.

Definition LONG_MAX : Z := 2 ^ 63 - 1.
Definition LONG_MIN : Z := - 2 ^ 63.

(** [sscanf(s, "%ld", &rss)]: white space is skipped, then an optionally
    signed run of digits is converted (glibc saturates a value that does
    not fit a [long]); without a digit nothing is stored and [rss] keeps
    its value. *)
Definition sscanf_ld (s : string) (rss : Z) : Z :=
  let s := Stoull.skip_space s in
  let '(neg, s) :=
    match s with
    | String "-"%char s' => (true, s')
    | String "+"%char s' => (false, s')
    | _ => (false, s)
    end in
  match Stoull.read_digits s None with
  | None => rss
  | Some v => Z.max LONG_MIN (Z.min LONG_MAX (if neg then - v else v))
  end.

(** The [while (fgets(...))] loop; every round consumes at least one
    character of the file. *)
Fixpoint scan_lines (fuel : nat) (file : string) (rss : Z) : Z :=
  match fuel with
  | O => rss
  | S fuel' =>
      match fgets 128 file with
      | None => rss
      | Some (line, rest) =>
          if starts_with "VmRSS:" line
          then sscanf_ld (advance 6 line) rss
          else scan_lines fuel' rest rss
      end
  end.

(** [get_memory_usage] when [fopen] gave [status] ([None]: it failed). *)
Definition get_memory_usage (status : option string) : Z :=
  let rss := 0 in
  match status with
  | None => rss
  | Some file => scan_lines (S (String.length file)) file rss
  end.

Fixpoint has_char (c : ascii) (s : string) : bool :=
  match s with
  | EmptyString => false
  | String c' s' => Ascii.eqb c' c || has_char c s'
  end.

(** A line of the file as the kernel writes it: no newline inside, short
    enough for the buffer. *)
Definition short_line (l : string) : bool :=
  Nat.ltb (String.length l) 127 && negb (has_char newline l).

(** White space only. *)
Fixpoint blanks (s : string) : bool :=
  match s with
  | EmptyString => true
  | String c s' => Stoull.is_space c && blanks s'
  end.

(** The text of a file made of the given lines. *)
Fixpoint unlines (ls : list string) : string :=
  match ls with
  | [] => EmptyString
  | l :: ls' => l +:+ String newline (unlines ls')
  end.

End ProcStatus.

(** An event of a workload that holds the handle [db]: a print, or an
    engine call on [db]; no open, close or destroy. *)
Definition uses (db : string) (e : Event) : Prop :=
  match e with
  | EvWrite p _ _ _ | EvGet p _ | EvIterate p _ | EvGetProperty p _ _ => p = db
  | EvOpen _ _ | EvClose _ | EvDestroy _ => False
  | EvStdout _ | EvStderr _ => True
  end.

(** What an event does to the set of open databases; [None] when it breaks
    the discipline of the engine: a call on a database that is not open, an
    open of a database that is open already, a destroy of an open one. *)
Definition handle_step (e : Event) (opened : gset string) : option (gset string) :=
  match e with
  | EvOpen p ok =>
      if decide (p ∈ opened) then None
      else Some (if ok then {[p]} ∪ opened else opened)
  | EvClose p =>
      if decide (p ∈ opened) then Some (opened ∖ {[p]}) else None
  | EvDestroy p =>
      if decide (p ∈ opened) then None else Some opened
  | EvWrite p _ _ _ | EvGet p _ | EvIterate p _ | EvGetProperty p _ _ =>
      if decide (p ∈ opened) then Some opened else None
  | EvStdout _ | EvStderr _ => Some opened
  end.

(** The databases open after a trace (newest event first) of a process
    that started with none open; [None] when the trace breaks the
    discipline somewhere. *)
Fixpoint handles (l : list Event) : option (gset string) :=
  match l with
  | [] => Some ∅
  | e :: l' => handles l' ≫= handle_step e
  end.

(** A read, a commit or a scan on the database [db]. *)
Definition engine_call (db : string) (e : Event) : Prop :=
  match e with
  | EvWrite p _ _ _ | EvGet p _ | EvIterate p _ => p = db
  | _ => False
  end.

(** The constants of the program with the batch size set to 0. *)
Definition zero_batch_config : Config :=
  {| NUM_RECORDS := 1000000; BATCH_SIZE := 0; NUM_READS := 50000;
     NUM_UPDATES := 10000; NUM_DELETES := 5000 |}.

(** The world after the sequential load of [small_config]. *)
Definition World_loaded : World :=
  default World_initial
    (bench_sequential_writes small_config env_plain 6 DB_FILE World_initial).

(** The engine reports 4096, 2048 and 1024 bytes. *)
Definition env_small_stats : Env :=
  {| rand_at := rand_at env_plain;
     vmrss_at := vmrss_at env_plain;
     boot_time := 0;
     cost := cost env_plain;
     open_ok := open_ok env_plain;
     write_ok := write_ok env_plain;
     property := fun name =>
       if String.eqb name PROP_TABLE_READERS then Some "4096"%string
       else if String.eqb name PROP_MEMTABLES then Some "2048"%string
       else Some "1024"%string |}.

(** [p] occurs somewhere in [s]. *)
Fixpoint occurs (p s : string) : bool :=
  ProcStatus.starts_with p s ||
  match s with
  | EmptyString => false
  | String _ s' => occurs p s'
  end.

(** An event that does not concern the bulk database. *)
Definition off_bulk (e : Event) : Prop :=
  match e with
  | EvOpen p _ | EvClose p | EvDestroy p | EvWrite p _ _ _ | EvGet p _
  | EvIterate p _ | EvGetProperty p _ _ => p <> BULK_DB_FILE
  | EvStdout _ | EvStderr _ => True
  end.

(** [w'] is [w] after a workload on [db] that reports on [test]: its header
    and its progress line, then engine calls on [db] and nothing else,
    then its result line for [ops] operations. *)
Definition framed_run (db test : string) (ops : Z) (w w' : World) : Prop :=
  exists header text rate elapsed evs,
    trace w' =
      EvStdout (OResult test rate elapsed ops)
      :: evs ++ [EvStdout (OText text); EvStdout (OHeader header)] ++ trace w /\
    Forall (engine_call db) evs.

(** A machine on which an earlier run has left its main database, next to
    a database of somebody else. *)
Definition World_stale : World :=
  {| disk := {[ DB_FILE := {[ "key_00000000"%string := "stale"%string ]};
                "other_db"%string := {[ "k"%string := "v"%string ]} ]};
     trace := [];
     n_rand := 0 |}.

(** * Properties *)

(** ** Decimal keys are distinct *)

Lemma value_zeros k s : Fmt.value (Fmt.zeros k +:+ s) = Fmt.value s.
Proof.
  induction k as [|k IH]; [reflexivity|].
  unfold Fmt.value in *. rewrite <- IH. simpl.
  by destruct (NilEmpty.uint_of_string (Fmt.zeros k +:+ s)) as [u|].
Qed.

Lemma value_digits n : Fmt.value (Fmt.digits n) = Some n.
Proof.
  unfold Fmt.value, Fmt.digits. rewrite NilEmpty.usu. simpl.
  by rewrite Unsigned.of_to.
Qed.

Lemma value_d width z : 0 <= z -> Fmt.value (Fmt.d width z) = Some (Z.to_N z).
Proof.
  intros Hz. unfold Fmt.d.
  destruct (z <? 0) eqn:E; [lia|].
  unfold Fmt.zero_pad. by rewrite value_zeros, value_digits.
Qed.

Lemma d_inj width a b : 0 <= a -> 0 <= b -> Fmt.d width a = Fmt.d width b -> a = b.
Proof.
  intros Ha Hb Heq.
  assert (Some (Z.to_N a) = Some (Z.to_N b)) as H.
  { rewrite <- (value_d width a), <- (value_d width b) by done. by rewrite Heq. }
  injection H as H. lia.
Qed.

Lemma key_of_inj a b : 0 <= a -> 0 <= b -> key_of a = key_of b -> a = b.
Proof.
  intros Ha Hb Heq. unfold key_of in Heq. simpl in Heq.
  injection Heq as Heq. by apply (d_inj 8).
Qed.

Lemma emitted_refl P w : emitted P w w.
Proof. by exists []. Qed.

Lemma emitted_trans P w1 w2 w3 :
  emitted P w1 w2 -> emitted P w2 w3 -> emitted P w1 w3.
Proof.
  intros (e1 & H1 & F1) (e2 & H2 & F2). exists (e2 ++ e1). split.
  - by rewrite H2, H1, app_assoc.
  - by apply Forall_app.
Qed.

Lemma emitted_same_trace P w w' : trace w' = trace w -> emitted P w w'.
Proof. intros H. by exists []. Qed.

Lemma emitted_emit P e w w' :
  P e -> emitted P w w' -> emitted P w (emit e w').
Proof.
  intros He (evs & H & F). exists (e :: evs). split.
  - simpl. by rewrite H.
  - by constructor.
Qed.

Lemma emitted_weaken (P Q : Event -> Prop) w w' :
  (forall e, P e -> Q e) -> emitted P w w' -> emitted Q w w'.
Proof.
  intros HPQ (evs & H & F). exists evs. split; [done|].
  eapply Forall_impl; eauto.
Qed.

Section Emits.

Variable cfg : Config.
Variable env : Env.
Variable P : Event -> Prop.

Hypothesis P_stdout : forall o, P (EvStdout o).
Hypothesis P_get : forall db key, P (EvGet db key).
Hypothesis P_iterate : forall db n, P (EvIterate db n).
Hypothesis P_commit :
  forall db batch ok, P (EvWrite db {| sync := true |} batch ok).
Hypothesis P_open : forall db ok, P (EvOpen db ok).
Hypothesis P_close : forall db, P (EvClose db).
Hypothesis P_destroy : forall db, P (EvDestroy db).
Hypothesis P_property : forall db name r, P (EvGetProperty db name r).
Hypothesis P_stderr : forall msg, P (EvStderr msg).

Lemma print_result_emits test elapsed ops w0 w :
  emitted P w0 w -> emitted P w0 (print_result test elapsed ops w).
Proof. intros H. apply emitted_emit; auto. Qed.

Lemma printf_emits o w0 w : emitted P w0 w -> emitted P w0 (printf o w).
Proof. intros H. apply emitted_emit; auto. Qed.

Lemma DB_Write_emits db batch w0 w :
  emitted P w0 w ->
  emitted P w0 (DB_Write env db (set_sync true WriteOptions_default) batch w).2.
Proof.
  intros (evs & H & F). eexists (_ :: evs). split.
  - simpl. by rewrite H.
  - constructor; [apply P_commit | done].
Qed.

Lemma read_loop_emits k db w0 w :
  emitted P w0 w -> emitted P w0 (read_loop cfg env k db w).
Proof.
  revert w. induction k as [|k IH]; intros w H; [done|].
  simpl. apply IH. unfold read_random_key. simpl.
  apply emitted_emit; [apply P_get|].
  eapply emitted_trans; [exact H|]. by apply emitted_same_trace.
Qed.

Lemma bench_random_reads_emits db w :
  emitted P w (bench_random_reads cfg env db w).
Proof.
  unfold bench_random_reads. apply print_result_emits, read_loop_emits.
  unfold print_header. do 2 apply printf_emits. apply emitted_refl.
Qed.

Lemma bench_exists_checks_emits db w :
  emitted P w (bench_exists_checks cfg env db w).
Proof.
  unfold bench_exists_checks. apply print_result_emits, read_loop_emits.
  unfold print_header. do 2 apply printf_emits. apply emitted_refl.
Qed.

Lemma bench_sequential_scan_emits db w :
  emitted P w (bench_sequential_scan env db w).
Proof.
  unfold bench_sequential_scan. apply print_result_emits.
  apply emitted_emit; [apply P_iterate|].
  unfold print_header. do 2 apply printf_emits. apply emitted_refl.
Qed.

Lemma rand_emits w0 w : emitted P w0 w -> emitted P w0 (rand env w).2.
Proof. intros H. eapply emitted_trans; [exact H|]. by apply emitted_same_trace. Qed.

Lemma update_loop_emits k batch w0 w :
  emitted P w0 w -> emitted P w0 (update_loop cfg env k batch w).2.
Proof.
  revert batch w. induction k as [|k IH]; intros batch w H; [done|].
  simpl. by apply IH, rand_emits.
Qed.

Lemma delete_loop_emits k batch w0 w :
  emitted P w0 w -> emitted P w0 (delete_loop cfg env k batch w).2.
Proof.
  revert batch w. induction k as [|k IH]; intros batch w H; [done|].
  simpl. by apply IH, rand_emits.
Qed.

Ltac split_pair :=
  match goal with
  | |- context [let '(_, _) := ?X in _] =>
      let r := fresh "r" in
      let w := fresh "w" in
      let E := fresh "E" in
      destruct X as [r w] eqn:E;
      let H := fresh "H" in
      assert (H : w = X.2) by (rewrite E; reflexivity);
      rewrite H; clear H E
  end.

Lemma bench_random_updates_emits db w :
  emitted P w (bench_random_updates cfg env db w).
Proof.
  unfold bench_random_updates. split_pair. split_pair.
  apply print_result_emits, DB_Write_emits, update_loop_emits.
  unfold print_header. do 2 apply printf_emits. apply emitted_refl.
Qed.

Lemma bench_random_deletes_emits db w :
  emitted P w (bench_random_deletes cfg env db w).
Proof.
  unfold bench_random_deletes. split_pair. split_pair.
  apply print_result_emits, DB_Write_emits, delete_loop_emits.
  unfold print_header. do 2 apply printf_emits. apply emitted_refl.
Qed.

Lemma mixed_step_emits db batch w0 w :
  emitted P w0 w ->
  emitted P w0
    (mixed_step cfg env db (set_sync true WriteOptions_default) batch w).2.
Proof.
  intros H. unfold mixed_step. cbn [rand].
  repeat (match goal with
          | |- context [if ?b then _ else _] => destruct b
          end; cbn [DB_Get snd fst]);
    repeat first [ apply DB_Write_emits | apply emitted_emit; [apply P_get|] ];
    (eapply emitted_trans; [exact H|]; by apply emitted_same_trace).
Qed.

Lemma mixed_loop_emits k db batch w0 w :
  emitted P w0 w ->
  emitted P w0
    (mixed_loop cfg env k db (set_sync true WriteOptions_default) batch w).2.
Proof.
  revert batch w. induction k as [|k IH]; intros batch w H; [done|].
  cbn [mixed_loop]. split_pair. by apply IH, mixed_step_emits.
Qed.

Lemma mixed_workload_emits total_ops db w :
  emitted P w (mixed_workload cfg env total_ops db w).
Proof.
  unfold mixed_workload. split_pair.
  apply print_result_emits.
  match goal with |- context [if ?b then _ else _] => destruct b end.
  - apply DB_Write_emits, mixed_loop_emits.
    unfold print_header. do 2 apply printf_emits. apply emitted_refl.
  - apply mixed_loop_emits.
    unfold print_header. do 2 apply printf_emits. apply emitted_refl.
Qed.

Lemma bench_mixed_workload_emits db w :
  emitted P w (bench_mixed_workload cfg env db w).
Proof. apply mixed_workload_emits. Qed.

Lemma write_batches_emits fuel db i w0 w w' :
  write_batches cfg env fuel db (set_sync true WriteOptions_default) i w = Some w' ->
  emitted P w0 w -> emitted P w0 w'.
Proof.
  revert i w. induction fuel as [|fuel IH]; intros i w Hrun H; [done|].
  cbn [write_batches] in Hrun.
  destruct (i <? NUM_RECORDS cfg); [|by inversion Hrun; subst].
  destruct (fill_batch _ _ _ _) as [i' batch].
  destruct (DB_Write _ _ _ _ _) as [ok w1] eqn:E.
  eapply IH; [exact Hrun|].
  change w1 with (ok, w1).2. rewrite <- E. by apply DB_Write_emits.
Qed.

Lemma bench_sequential_writes_emits fuel db w w' :
  bench_sequential_writes cfg env fuel db w = Some w' -> emitted P w w'.
Proof.
  unfold bench_sequential_writes. intros Hrun.
  destruct (write_batches _ _ _ _ _ _ _) as [w1|] eqn:E; [|done].
  inversion Hrun; subst. apply print_result_emits.
  eapply write_batches_emits; [exact E|].
  unfold print_header. do 2 apply printf_emits. apply emitted_refl.
Qed.

Lemma bench_bulk_insert_emits w : emitted P w (bench_bulk_insert cfg env w).
Proof.
  unfold bench_bulk_insert. cbn [DB_Open].
  destruct (negb _).
  - apply emitted_emit; [apply P_stderr|]. apply emitted_emit; [apply P_open|].
    unfold configure_small_db_options, print_header.
    do 3 apply printf_emits. apply emitted_refl.
  - split_pair. apply print_result_emits.
    unfold DestroyDB, DB_close.
    apply emitted_emit; [apply P_destroy|].
    eapply emitted_trans; [|by apply emitted_same_trace].
    apply emitted_emit; [apply P_close|].
    apply DB_Write_emits.
    apply emitted_emit; [apply P_open|].
    unfold configure_small_db_options, print_header.
    do 3 apply printf_emits. apply emitted_refl.
Qed.

Lemma main_internal_stats_emits db w :
  emitted P w (main_internal_stats env db w).2.
Proof.
  unfold main_internal_stats. cbn [DB_GetProperty].
  repeat match goal with
         | |- context [match Stoull.stoull ?s with _ => _ end] =>
             destruct (Stoull.stoull s)
         end; cbn [snd];
    repeat first [ apply printf_emits
                 | apply emitted_emit; [apply P_property|] ];
    apply emitted_refl.
Qed.

Lemma main_emits fuel w e w' :
  main cfg env fuel w = Some (e, w') -> emitted P w w'.
Proof.
  unfold main. cbn [DB_Open]. intros Hrun.
  assert (emitted P w
    (emit (EvOpen DB_FILE (open_ok env DB_FILE))
       (DestroyDB DB_FILE
          (configure_small_db_options
             (printf (OText "Initializing database...") (printf OBanner w))))))
    as H0.
  { apply emitted_emit; [apply P_open|]. unfold DestroyDB.
    apply emitted_emit; [apply P_destroy|].
    eapply emitted_trans; [|by apply emitted_same_trace].
    unfold configure_small_db_options. do 3 apply printf_emits.
    apply emitted_refl. }
  destruct (negb _).
  - inversion Hrun; subst. by apply emitted_emit; [apply P_stderr|].
  - destruct (bench_sequential_writes _ _ _ _ _) as [w1|] eqn:E1; [|done].
    apply bench_sequential_writes_emits in E1.
    destruct (main_internal_stats _ _ _) as [[x|] w2] eqn:E2.
    + inversion Hrun; subst.
      change w' with (Some e, w').2. rewrite <- E2.
      eapply emitted_trans; [|apply main_internal_stats_emits].
      apply printf_emits.
      repeat (eapply emitted_trans;
              [| first [ apply bench_mixed_workload_emits
                       | apply bench_exists_checks_emits
                       | apply bench_random_deletes_emits
                       | apply bench_random_updates_emits
                       | apply bench_sequential_scan_emits
                       | apply bench_random_reads_emits ] ]).
      eapply emitted_trans; [|exact E1]. by apply printf_emits.
    + inversion Hrun; subst. unfold DestroyDB.
      apply emitted_emit; [apply P_destroy|].
      eapply emitted_trans; [|by apply emitted_same_trace].
      do 2 apply printf_emits.
      eapply emitted_trans; [|apply bench_bulk_insert_emits].
      unfold DB_close. apply emitted_emit; [apply P_close|].
      change w2 with (@None Exit, w2).2. rewrite <- E2.
      eapply emitted_trans; [|apply main_internal_stats_emits].
      apply printf_emits.
      repeat (eapply emitted_trans;
              [| first [ apply bench_mixed_workload_emits
                       | apply bench_exists_checks_emits
                       | apply bench_random_deletes_emits
                       | apply bench_random_updates_emits
                       | apply bench_sequential_scan_emits
                       | apply bench_random_reads_emits ] ]).
      eapply emitted_trans; [|exact E1]. by apply printf_emits.
Qed.

End Emits.

(** ** Read-only workloads leave the stores alone *)

Section Frame.

Variable cfg : Config.
Variable env : Env.

Lemma read_loop_disk k db w : disk (read_loop cfg env k db w) = disk w.
Proof.
  revert w. induction k as [|k IH]; intros w; [done|].
  simpl. by rewrite IH.
Qed.

Lemma bench_random_reads_disk db w :
  disk (bench_random_reads cfg env db w) = disk w.
Proof. unfold bench_random_reads. simpl. by rewrite read_loop_disk. Qed.

Lemma bench_exists_checks_disk db w :
  disk (bench_exists_checks cfg env db w) = disk w.
Proof. unfold bench_exists_checks. simpl. by rewrite read_loop_disk. Qed.

Lemma bench_sequential_scan_disk db w :
  disk (bench_sequential_scan env db w) = disk w.
Proof. done. Qed.

End Frame.

(** C10.  The random-read, sequential-scan and exists-check workloads leave
    the contents of every database as they found them, and all they do is
    print, look keys up and iterate: they issue no put, no delete and no
    commit. *)
Theorem read_workloads_leave_contents cfg env db w :
  (disk (bench_random_reads cfg env db w) = disk w /\
   emitted lookup_or_scan w (bench_random_reads cfg env db w)) /\
  (disk (bench_sequential_scan env db w) = disk w /\
   emitted lookup_or_scan w (bench_sequential_scan env db w)) /\
  (disk (bench_exists_checks cfg env db w) = disk w /\
   emitted lookup_or_scan w (bench_exists_checks cfg env db w)).
Proof.
  repeat split.
  - apply bench_random_reads_disk.
  - by apply bench_random_reads_emits.
  - by apply bench_sequential_scan_emits.
  - apply bench_exists_checks_disk.
  - by apply bench_exists_checks_emits.
Qed.

(** ** The sequential load *)

Section SequentialLoad.

Variable cfg : Config.
Variable env : Env.

Local Abbreviation N := (NUM_RECORDS cfg).
Local Abbreviation B := (BATCH_SIZE cfg).

Lemma fill_batch_spec k i batch :
  let n := Z.min (Z.of_nat k) (Z.max 0 (N - i)) in
  fill_batch cfg k i batch = (i + n, batch ++ (sequential_put <$> seqZ i n)).
Proof.
  revert i batch. induction k as [|k IH]; intros i batch; cbn zeta.
  - cbn [fill_batch]. replace (Z.min _ _) with 0 by lia.
    rewrite seqZ_nil by lia. simpl. by rewrite Z.add_0_r, app_nil_r.
  - cbn [fill_batch]. destruct (i <? N) eqn:E.
    + apply Z.ltb_lt in E. rewrite IH. cbn zeta.
      replace (Z.min (Z.of_nat (S k)) (Z.max 0 (N - i)))
        with (Z.succ (Z.min (Z.of_nat k) (Z.max 0 (N - (i + 1))))) by lia.
      set (n := Z.min _ _). assert (0 <= n) by (unfold n; lia).
      rewrite (seqZ_cons i (Z.succ n)) by lia.
      rewrite Z.pred_succ, fmap_cons, <- app_assoc. simpl.
      replace (Z.succ i) with (i + 1) by lia.
      by replace (i + Z.succ n) with (i + 1 + n) by lia.
    + apply Z.ltb_ge in E. replace (Z.min _ _) with 0 by lia.
      rewrite seqZ_nil by lia. simpl. by rewrite Z.add_0_r, app_nil_r.
Qed.

Lemma commit_sizes_write db opts batch w :
  commit_sizes (DB_Write env db opts batch w).2 =
  commit_sizes w ++ [Z.of_nat (length batch)].
Proof.
  unfold commit_sizes, commits. simpl. by rewrite fmap_app.
Qed.

Lemma store_of_write db opts batch w :
  write_ok env (length (commits w)) = true ->
  store_of (DB_Write env db opts batch w).2 db =
  apply_batch batch (store_of w db).
Proof.
  intros Hok. unfold DB_Write. rewrite Hok. unfold store_of at 1. simpl.
  by rewrite lookup_insert_eq.
Qed.

Lemma apply_batch_app b1 b2 s :
  apply_batch (b1 ++ b2) s = apply_batch b2 (apply_batch b1 s).
Proof. unfold apply_batch. by rewrite foldl_app. Qed.

Lemma chunk_sizes_step r :
  0 < B -> 0 < r ->
  chunk_sizes B r = Z.min B r :: chunk_sizes B (r - Z.min B r).
Proof.
  intros HB Hr. unfold chunk_sizes.
  destruct (Z.le_gt_cases B r) as [Hle|Hgt].
  - rewrite Z.min_l by lia.
    assert (r / B = (r - B) / B + 1) as Hq.
    { replace r with ((r - B) + 1 * B) at 1 by lia. by rewrite Z.div_add by lia. }
    assert (r mod B = (r - B) mod B) as Hm.
    { replace r with ((r - B) + 1 * B) at 1 by lia. by rewrite Z.mod_add by lia. }
    assert (0 <= (r - B) / B) by (apply Z.div_pos; lia).
    rewrite Hq, Hm.
    by replace (Z.to_nat ((r - B) / B + 1))
      with (S (Z.to_nat ((r - B) / B))) by lia.
  - rewrite Z.min_r by lia. rewrite Z.sub_diag.
    rewrite Z.div_small, Z.mod_small by lia.
    rewrite Z.div_0_l, Z.mod_0_l by lia. simpl.
    destruct (r =? 0) eqn:E; [lia|done].
Qed.

Lemma chunk_sizes_0 : 0 < B -> chunk_sizes B 0 = [].
Proof.
  intros HB. unfold chunk_sizes. by rewrite Z.div_0_l, Z.mod_0_l by lia.
Qed.

Lemma write_batches_spec fuel db opts i w :
  0 < B -> 0 <= i <= N -> (Z.to_nat (N - i) < fuel)%nat ->
  exists w',
    write_batches cfg env fuel db opts i w = Some w' /\
    commit_sizes w' = commit_sizes w ++ chunk_sizes B (N - i) /\
    ((forall k, write_ok env k = true) ->
     store_of w' db =
     apply_batch (sequential_put <$> seqZ i (N - i)) (store_of w db)).
Proof.
  intros HB. revert i w.
  induction fuel as [|fuel IH]; intros i w Hi Hfuel; [lia|].
  cbn [write_batches]. destruct (i <? N) eqn:E.
  - apply Z.ltb_lt in E. rewrite fill_batch_spec. cbn zeta.
    rewrite Z2Nat.id by lia. rewrite (Z.max_r 0) by lia.
    set (n := Z.min B (N - i)).
    destruct (DB_Write _ _ _ _ _) as [ok w1] eqn:EW.
    assert (w1 = (DB_Write env db opts ([] ++ (sequential_put <$> seqZ i n)) w).2)
      as -> by (by rewrite EW).
    clear EW ok.
    destruct (IH (i + n)
                (DB_Write env db opts ([] ++ (sequential_put <$> seqZ i n)) w).2)
      as (w' & Hrun & Hsizes & Hstore); [unfold n; lia | unfold n; lia |].
    exists w'. split; [done|]. split.
    + rewrite Hsizes, commit_sizes_write, <- app_assoc. f_equal.
      rewrite (chunk_sizes_step (N - i)) by lia. fold n. simpl.
      rewrite length_fmap, length_seqZ.
      f_equal; [unfold n; lia|]. f_equal. lia.
    + intros Hok. rewrite Hstore by done.
      rewrite store_of_write by done.
      rewrite <- apply_batch_app. simpl.
      rewrite <- fmap_app, <- seqZ_app by (unfold n; lia).
      by replace (n + (N - (i + n))) with (N - i) by lia.
  - apply Z.ltb_ge in E. exists w. split; [done|].
    replace (N - i) with 0 by lia. rewrite chunk_sizes_0 by done.
    rewrite app_nil_r, seqZ_nil by lia. done.
Qed.

Lemma dom_apply_sequential_puts l s :
  dom (apply_batch (sequential_put <$> l) s) =
  dom s ∪ list_to_set (key_of <$> l).
Proof.
  revert s. induction l as [|x l IH]; intros s.
  - simpl. set_solver.
  - rewrite !fmap_cons. unfold apply_batch in *. cbn [foldl].
    rewrite IH. cbn [apply_op sequential_put]. rewrite dom_insert_L.
    set_solver.
Qed.

Lemma NoDup_keys n : NoDup (key_of <$> seqZ 0 n).
Proof.
  apply NoDup_fmap_2_strong; [|apply NoDup_seqZ].
  intros x y Hx Hy. apply elem_of_seqZ in Hx, Hy. apply key_of_inj; lia.
Qed.

Lemma ceil_div_chunks r :
  0 < B -> 0 <= r ->
  Z.of_nat (length (chunk_sizes B r)) = (r + B - 1) / B.
Proof.
  intros HB Hr. unfold chunk_sizes.
  rewrite length_app, length_replicate.
  pose proof (Z.div_mod r B ltac:(lia)) as Hdm.
  pose proof (Z.mod_pos_bound r B HB) as Hm.
  assert (0 <= r / B) by (apply Z.div_pos; lia).
  destruct (r mod B =? 0) eqn:E.
  - apply Z.eqb_eq in E. simpl.
    replace (r + B - 1) with ((B - 1) + (r / B) * B) by lia.
    rewrite Z.div_add, (Z.div_small (B - 1) B) by lia. lia.
  - apply Z.eqb_neq in E. simpl.
    replace (r + B - 1) with ((r mod B - 1) + (r / B + 1) * B) by lia.
    rewrite Z.div_add, (Z.div_small (r mod B - 1) B) by lia. lia.
Qed.

End SequentialLoad.

(** C1.  For a record count of at least 1 and a batch size of at least 1 the
    sequential load ends, having issued ceil(N/B) commits: N/B full batches
    and then, when B does not divide N, one short batch of N mod B records.
    When every commit succeeds and the store was empty, exactly the N keys
    [key_of 0 .. key_of (N-1)] are present afterwards. *)
Theorem sequential_load_commits_and_keys cfg env fuel db w :
  1 <= NUM_RECORDS cfg -> 1 <= BATCH_SIZE cfg ->
  (Z.to_nat (NUM_RECORDS cfg) < fuel)%nat ->
  exists w',
    bench_sequential_writes cfg env fuel db w = Some w' /\
    Z.of_nat (length (commits w')) =
      Z.of_nat (length (commits w)) +
      (NUM_RECORDS cfg + BATCH_SIZE cfg - 1) / BATCH_SIZE cfg /\
    commit_sizes w' =
      commit_sizes w ++ chunk_sizes (BATCH_SIZE cfg) (NUM_RECORDS cfg) /\
    ((forall k, write_ok env k = true) -> store_of w db = ∅ ->
     dom (store_of w' db) = list_to_set (key_of <$> seqZ 0 (NUM_RECORDS cfg)) /\
     Z.of_nat (size (store_of w' db)) = NUM_RECORDS cfg).
Proof.
  intros HN HB Hfuel. unfold bench_sequential_writes.
  set (w0 := printf _ (print_header _ w)).
  destruct (write_batches_spec cfg env fuel db
              (set_sync true WriteOptions_default) 0 w0)
    as (w1 & Hrun & Hsizes & Hstore); [lia | lia | by rewrite Z.sub_0_r |].
  rewrite Hrun. eexists. split; [done|].
  rewrite Z.sub_0_r in Hsizes, Hstore.
  assert (commit_sizes w1 =
          commit_sizes w ++ chunk_sizes (BATCH_SIZE cfg) (NUM_RECORDS cfg))
    as Hs by done.
  split; [|split; [done|]].
  - change (commits (print_result _ _ _ w1)) with (commits w1).
    apply (f_equal length) in Hs. unfold commit_sizes in Hs.
    rewrite length_app, !length_fmap, !length_rev in Hs.
    rewrite Hs, Nat2Z.inj_add, ceil_div_chunks by lia. done.
  - intros Hok Hempty.
    change (store_of (print_result _ _ _ w1) db) with (store_of w1 db).
    rewrite Hstore by done.
    change (store_of w0 db) with (store_of w db). rewrite Hempty.
    assert (dom (apply_batch (sequential_put <$> seqZ 0 (NUM_RECORDS cfg)) ∅) =
            list_to_set (C := gset string) (key_of <$> seqZ 0 (NUM_RECORDS cfg)))
      as Hdom by (rewrite dom_apply_sequential_puts; set_solver).
    split; [done|].
    rewrite <- size_dom, Hdom, size_list_to_set by apply NoDup_keys.
    rewrite length_fmap, length_seqZ. lia.
Qed.

(** ** The run of [main] *)

Section MainRun.

Variable cfg : Config.
Variable env : Env.

Lemma main_open_failure fuel w :
  open_ok env DB_FILE = false ->
  main cfg env fuel w =
  Some (Returned 1,
        emit (EvStderr "Failed to open RocksDB: ")
          (emit (EvOpen DB_FILE false)
             (DestroyDB DB_FILE
                (configure_small_db_options
                   (printf (OText "Initializing database...")
                      (printf OBanner w)))))).
Proof. intros H. unfold main, DB_Open. by rewrite H. Qed.

Lemma main_run fuel w w1 :
  open_ok env DB_FILE = true ->
  bench_sequential_writes cfg env fuel DB_FILE (at_total_start env w) = Some w1 ->
  main cfg env fuel w =
  Some (match main_internal_stats env DB_FILE (after_workloads cfg env w1) with
        | (Some e, w2) => (e, w2)
        | (None, w2) =>
            main_summary env (get_time env (at_total_start env w))
              (get_memory_usage env 0) (get_memory_usage env 4)
              (final_peak env)
              (bench_bulk_insert cfg env (DB_close DB_FILE w2))
        end).
Proof.
  intros Hopen Hseq. unfold main, DB_Open. rewrite Hopen. cbn [negb].
  unfold at_total_start in Hseq. rewrite Hseq.
  fold (after_workloads cfg env w1).
  by destruct (main_internal_stats env DB_FILE (after_workloads cfg env w1))
    as [[e|] w2].
Qed.

End MainRun.

(** ** Concrete environments *)

(** C7, refuted.  A scan of an empty store counts 0 operations.  When the
    scan took 1.5 ms the harness divides 0 by the elapsed time and prints
    "0 ops/sec", not "n/a"; when the clock did not advance it divides 0 by
    0, which is no number at all. *)
Lemma zero_count_is_divided_not_skipped :
  trace (bench_sequential_scan env_timed_scan DB_FILE World_initial) =
    [ EvStdout (OResult "Sequential scan" (Some "0"%string) 1500 0);
      EvIterate DB_FILE 0;
      EvStdout (OText "Scanning all records...");
      EvStdout (OHeader "BENCHMARK 3: Sequential Scan") ] /\
  trace (bench_sequential_scan env_plain DB_FILE World_initial) =
    [ EvStdout (OResult "Sequential scan" None 0 0);
      EvIterate DB_FILE 0;
      EvStdout (OText "Scanning all records...");
      EvStdout (OHeader "BENCHMARK 3: Sequential Scan") ].
Proof. split; vm_compute; reflexivity. Qed.

(** C7, amended.  [print_result] always prints the throughput line with
    the quotient count/elapsed: it never looks at the count.  With a
    non-zero elapsed time the quotient is a number, and it is 0 for a zero
    count; the divisor is zero exactly when the elapsed time is zero,
    whatever the count. *)
Theorem throughput_division_is_unconditional test elapsed ops w :
  trace (print_result test elapsed ops w) =
    EvStdout (OResult test (format_number <$> ops_per_sec ops elapsed) elapsed ops)
    :: trace w /\
  (elapsed <> 0 -> ops_per_sec ops elapsed = Some (Z.quot (ops * 1000000) elapsed)) /\
  (elapsed <> 0 -> format_number <$> ops_per_sec 0 elapsed = Some "0"%string) /\
  (elapsed = 0 -> ops_per_sec ops elapsed = None).
Proof.
  split; [done|]. unfold ops_per_sec. repeat split.
  - intros H. by destruct (Z.eqb_spec elapsed 0).
  - intros H. destruct (Z.eqb_spec elapsed 0); [done|].
    simpl. by rewrite Z.quot_0_l.
  - intros ->. done.
Qed.

(** C8, on the failing input.  With every operation a write, the 20000
    operations of the mixed workload are committed in 198 batches of 101
    mutations and a last one of 2: the periodic flush fires at 101
    accumulated mutations, not at 100. *)
Theorem mixed_flush_holds_101_mutations :
  commit_sizes (bench_mixed_workload default_config env_all_writes DB_FILE
                  World_initial) =
  replicate 198 101 ++ [2].
Proof. vm_compute. reflexivity. Qed.

(** C3, refuted.  In a mixed workload of writes in which every one of the
    199 commits fails, nothing is written to stderr and the workload ends
    with its usual throughput line. *)
Lemma failed_commits_go_unreported :
  let w := bench_mixed_workload default_config env_failing_commits DB_FILE
             World_initial in
  length (List.filter commit_failed (trace w)) = 199%nat /\
  List.filter is_stderr (trace w) = [] /\
  head (trace w) = Some (EvStdout (OResult "Mixed workload" None 0 20000)).
Proof. vm_compute. done. Qed.

(** ** Runs of [main] that reach the summary *)

Section Completion.

Variable cfg : Config.
Variable env : Env.

Lemma bench_sequential_writes_total fuel db w :
  1 <= NUM_RECORDS cfg -> 1 <= BATCH_SIZE cfg ->
  (Z.to_nat (NUM_RECORDS cfg) < fuel)%nat ->
  exists w', bench_sequential_writes cfg env fuel db w = Some w'.
Proof.
  intros HN HB Hfuel. unfold bench_sequential_writes.
  set (w0 := printf _ (print_header _ w)).
  destruct (write_batches_spec cfg env fuel db
              (set_sync true WriteOptions_default) 0 w0)
    as (w1 & Hrun & _); [lia | lia | by rewrite Z.sub_0_r |].
  rewrite Hrun. by eexists.
Qed.

Lemma main_internal_stats_exit db w e w2 :
  main_internal_stats env db w = (Some e, w2) -> e = Uncaught "std::stoull".
Proof.
  unfold main_internal_stats. cbn [DB_GetProperty].
  repeat match goal with
         | |- context [match Stoull.stoull ?s with _ => _ end] =>
             destruct (Stoull.stoull s)
         end; intros H; by inversion H.
Qed.

Lemma main_internal_stats_readable db w :
  stats_readable env ->
  exists w2, main_internal_stats env db w = (None, w2).
Proof.
  intros (H1 & H2 & H3). unfold main_internal_stats. cbn [DB_GetProperty].
  fold PROP_TABLE_READERS PROP_MEMTABLES PROP_BLOCK_CACHE.
  destruct (property env PROP_TABLE_READERS) as [s1|]; [|by destruct H1].
  destruct H1 as [v1 H1]. cbn in H1. cbn [default from_option id]. rewrite H1.
  destruct (property env PROP_MEMTABLES) as [s2|]; [|by destruct H2].
  destruct H2 as [v2 H2]. cbn in H2. cbn [default from_option id]. rewrite H2.
  destruct (property env PROP_BLOCK_CACHE) as [s3|]; [|by destruct H3].
  destruct H3 as [v3 H3]. cbn in H3. cbn [default from_option id]. rewrite H3.
  by eexists.
Qed.

Lemma main_summary_trace ts ms me mp w :
  exists w',
    main_summary env ts ms me mp w = (Returned 0, w') /\
    trace w' =
      EvDestroy DB_FILE :: EvStdout OComplete
      :: EvStdout (OSummary (get_time env w - ts) (format_memory ms)
                     (format_memory me) (format_memory mp)
                     (format_memory (me - ms)))
      :: trace w.
Proof. by eexists. Qed.

Lemma bench_bulk_insert_unopened w :
  open_ok env BULK_DB_FILE = false ->
  disk (bench_bulk_insert cfg env w) = disk w /\
  trace (bench_bulk_insert cfg env w) =
    EvStderr "Failed to open database for bulk insert"
    :: EvOpen BULK_DB_FILE false
    :: EvStdout OConfiguration
    :: EvStdout (OText ("Inserting " +:+ Fmt.d 0 (NUM_RECORDS cfg) +:+
                          " records in one transaction..."))
    :: EvStdout (OHeader "BENCHMARK 8: Bulk Insert (Single Transaction)")
    :: trace w.
Proof. intros H. unfold bench_bulk_insert, DB_Open. by rewrite H. Qed.

Lemma bench_bulk_insert_opened w :
  open_ok env BULK_DB_FILE = true ->
  exists batch ok rate elapsed,
    trace (bench_bulk_insert cfg env w) =
      EvStdout (OResult "Bulk insert" rate elapsed (NUM_RECORDS cfg))
      :: EvDestroy BULK_DB_FILE
      :: EvClose BULK_DB_FILE
      :: EvWrite BULK_DB_FILE {| sync := true |} batch ok
      :: EvOpen BULK_DB_FILE true
      :: EvStdout OConfiguration
      :: EvStdout (OText ("Inserting " +:+ Fmt.d 0 (NUM_RECORDS cfg) +:+
                            " records in one transaction..."))
      :: EvStdout (OHeader "BENCHMARK 8: Bulk Insert (Single Transaction)")
      :: trace w.
Proof.
  intros H. unfold bench_bulk_insert, DB_Open. rewrite H. cbn [negb].
  by eexists _, _, _, _.
Qed.

Lemma sum_cost_app l1 l2 :
  sum_cost (cost env) (l1 ++ l2) = sum_cost (cost env) l1 + sum_cost (cost env) l2.
Proof. induction l1 as [|e l1 IH]; simpl; lia. Qed.

Lemma sum_cost_nonneg l :
  (forall e, 0 <= cost env e) -> 0 <= sum_cost (cost env) l.
Proof. intros H. induction l as [|e l IH]; simpl; [lia|]. specialize (H e). lia. Qed.

Lemma emitted_free w w' :
  emitted (fun e => cost env e = 0) w w' -> get_time env w' = get_time env w.
Proof.
  intros (evs & Ht & F). unfold get_time. rewrite Ht, sum_cost_app.
  assert (sum_cost (cost env) evs = 0) as ->; [|lia].
  clear Ht. induction F as [|e l He _ IH]; simpl in *; lia.
Qed.

Lemma raise_peak_max m p : raise_peak m p = Z.max m p.
Proof. unfold raise_peak. destruct (Z.ltb_spec p m); lia. Qed.

End Completion.

Section CompletionEmits.

Variable cfg : Config.
Variable env : Env.
Variable P : Event -> Prop.

Hypothesis P_stdout : forall o, P (EvStdout o).
Hypothesis P_get : forall db key, P (EvGet db key).
Hypothesis P_iterate : forall db n, P (EvIterate db n).
Hypothesis P_commit :
  forall db batch ok, P (EvWrite db {| sync := true |} batch ok).
Hypothesis P_property : forall db name r, P (EvGetProperty db name r).

(** A run in which the main engine opens, the sequential load ends and the
    property strings are numbers reaches the summary and returns 0. *)
Lemma main_completes fuel w :
  open_ok env DB_FILE = true ->
  1 <= NUM_RECORDS cfg -> 1 <= BATCH_SIZE cfg ->
  (Z.to_nat (NUM_RECORDS cfg) < fuel)%nat ->
  stats_readable env ->
  exists w2,
    emitted P (at_total_start env w) w2 /\
    main cfg env fuel w =
    Some (main_summary env (get_time env (at_total_start env w))
            (get_memory_usage env 0) (get_memory_usage env 4)
            (final_peak env)
            (bench_bulk_insert cfg env (DB_close DB_FILE w2))).
Proof.
  intros Hopen HN HB Hfuel Hstats.
  destruct (bench_sequential_writes_total cfg env fuel DB_FILE
              (at_total_start env w)) as [w1 H1]; [done..|].
  destruct (main_internal_stats_readable env DB_FILE
              (after_workloads cfg env w1)) as [w2 H2]; [done|].
  exists w2. split.
  - change w2 with (@None Exit, w2).2. rewrite <- H2.
    eapply emitted_trans; [|by apply main_internal_stats_emits].
    unfold after_workloads. apply printf_emits; [done|].
    repeat (eapply emitted_trans;
            [| first [ by apply bench_mixed_workload_emits
                     | by apply bench_exists_checks_emits
                     | by apply bench_random_deletes_emits
                     | by apply bench_random_updates_emits
                     | by apply bench_sequential_scan_emits
                     | by apply bench_random_reads_emits ] ]).
    by eapply bench_sequential_writes_emits.
  - rewrite (main_run cfg env fuel w w1) by done. by rewrite H2.
Qed.

End CompletionEmits.

Lemma enough_fuel_spec cfg : (Z.to_nat (NUM_RECORDS cfg) < enough_fuel cfg)%nat.
Proof. unfold enough_fuel. lia. Qed.

Lemma mem_kb_format_memory kb : mem_kb (format_memory kb) = kb.
Proof.
  unfold format_memory.
  destruct (1024 * 1024 <=? kb); [done|]. by destruct (1024 <=? kb).
Qed.

Lemma stats_readable_zero env :
  (forall name, property env name = Some "0"%string) -> stats_readable env.
Proof.
  intros H. unfold stats_readable. rewrite !H. repeat split; by eexists.
Qed.

(** ** Durability of commits *)

(** C2.  Every commit issued by the sequential load, the random updates,
    the random deletes, the mixed workload (periodic and final flushes),
    the bulk load and hence by a whole run of [main] carries
    [sync = true]. *)
Theorem every_commit_is_synchronous cfg env :
  (forall fuel db w w',
     bench_sequential_writes cfg env fuel db w = Some w' -> emitted durable w w') /\
  (forall db w, emitted durable w (bench_random_updates cfg env db w)) /\
  (forall db w, emitted durable w (bench_random_deletes cfg env db w)) /\
  (forall total_ops db w, emitted durable w (mixed_workload cfg env total_ops db w)) /\
  (forall w, emitted durable w (bench_bulk_insert cfg env w)) /\
  (forall fuel w e w', main cfg env fuel w = Some (e, w') -> emitted durable w w').
Proof.
  repeat split; intros.
  - by eapply bench_sequential_writes_emits.
  - by apply bench_random_updates_emits.
  - by apply bench_random_deletes_emits.
  - by apply mixed_workload_emits.
  - by apply bench_bulk_insert_emits.
  - by eapply main_emits.
Qed.

Lemma every_commit_is_synchronous_witness :
  exists w',
    bench_sequential_writes small_config env_plain 6 DB_FILE World_initial
      = Some w' /\
    emitted durable World_initial w'.
Proof.
  eexists. split; [vm_compute; reflexivity|].
  apply (proj1 (every_commit_is_synchronous small_config env_plain)
           6%nat DB_FILE World_initial).
  vm_compute. reflexivity.
Defined.

(** ** What a run that returns has done *)

Section Returned.

Variable cfg : Config.
Variable env : Env.
Variable P : Event -> Prop.

Hypothesis P_stdout : forall o, P (EvStdout o).
Hypothesis P_get : forall db key, P (EvGet db key).
Hypothesis P_iterate : forall db n, P (EvIterate db n).
Hypothesis P_commit :
  forall db batch ok, P (EvWrite db {| sync := true |} batch ok).
Hypothesis P_property : forall db name r, P (EvGetProperty db name r).

(** A run that returns after a successful open has gone through every
    workload and printed the summary; its status is 0. *)
Lemma main_returned fuel w c w' :
  open_ok env DB_FILE = true ->
  main cfg env fuel w = Some (Returned c, w') ->
  exists w2,
    emitted P (at_total_start env w) w2 /\
    c = 0 /\
    trace w' =
      EvDestroy DB_FILE :: EvStdout OComplete
      :: summary_line env (get_time env (at_total_start env w))
           (bench_bulk_insert cfg env (DB_close DB_FILE w2))
      :: trace (bench_bulk_insert cfg env (DB_close DB_FILE w2)).
Proof.
  intros Hopen Hmain.
  destruct (bench_sequential_writes cfg env fuel DB_FILE (at_total_start env w))
    as [w1|] eqn:E1.
  - rewrite (main_run cfg env fuel w w1) in Hmain by done.
    destruct (main_internal_stats env DB_FILE (after_workloads cfg env w1))
      as [[e|] w2] eqn:E2.
    + apply main_internal_stats_exit in E2. by inversion Hmain; subst.
    + exists w2. split; [|by inversion Hmain].
      change w2 with (@None Exit, w2).2. rewrite <- E2.
      eapply emitted_trans; [|by apply main_internal_stats_emits].
      unfold after_workloads. apply printf_emits; [done|].
      repeat (eapply emitted_trans;
              [| first [ by apply bench_mixed_workload_emits
                       | by apply bench_exists_checks_emits
                       | by apply bench_random_deletes_emits
                       | by apply bench_random_updates_emits
                       | by apply bench_sequential_scan_emits
                       | by apply bench_random_reads_emits ] ]).
      by eapply bench_sequential_writes_emits.
  - unfold main, DB_Open in Hmain. rewrite Hopen in Hmain. cbn [negb] in Hmain.
    unfold at_total_start in E1. by rewrite E1 in Hmain.
Qed.

(** Such a run exists when the sequential load ends and the engine
    answers the property queries. *)
Lemma main_reaches_summary fuel w :
  open_ok env DB_FILE = true ->
  1 <= NUM_RECORDS cfg -> 1 <= BATCH_SIZE cfg ->
  (Z.to_nat (NUM_RECORDS cfg) < fuel)%nat ->
  stats_readable env ->
  exists w2 w',
    emitted P (at_total_start env w) w2 /\
    main cfg env fuel w = Some (Returned 0, w') /\
    trace w' =
      EvDestroy DB_FILE :: EvStdout OComplete
      :: summary_line env (get_time env (at_total_start env w))
           (bench_bulk_insert cfg env (DB_close DB_FILE w2))
      :: trace (bench_bulk_insert cfg env (DB_close DB_FILE w2)).
Proof.
  intros Hopen HN HB Hfuel Hstats.
  destruct (main_completes cfg env P P_stdout P_get P_iterate P_commit
              P_property fuel w) as (w2 & Hem & Hmain); [done..|].
  exists w2. eexists. split; [exact Hem|]. split; [exact Hmain|]. done.
Qed.

End Returned.

Lemma summary_found w e1 e2 total i f p d rest :
  trace w = e1 :: e2 :: EvStdout (OSummary total i f p d) :: rest ->
  is_summary e1 = false -> is_summary e2 = false ->
  summary w = Some (EvStdout (OSummary total i f p d)).
Proof.
  intros Ht H1 H2. unfold summary. rewrite Ht. cbn [List.find].
  by rewrite H1, H2.
Qed.

Lemma get_time_free env w :
  (forall e, cost env e = 0) -> get_time env w = boot_time env.
Proof.
  intros H. unfold get_time.
  assert (sum_cost (cost env) (trace w) = 0) as ->; [|lia].
  induction (trace w) as [|e l IH]; simpl; [done|]. rewrite H. lia.
Qed.

(** ** Engine open failures *)

(** C4, refuted.  When only the bulk-load engine fails to open, the run
    prints the diagnostic of the bulk load, then still prints the summary
    and returns exit status 0. *)
Lemma bulk_open_failure_exits_zero :
  exists w' total i f p d rest,
    main default_config env_bulk_unopenable (enough_fuel default_config)
      World_initial = Some (Returned 0, w') /\
    trace w' =
      EvDestroy DB_FILE :: EvStdout OComplete
      :: EvStdout (OSummary total i f p d)
      :: EvStderr "Failed to open database for bulk insert"
      :: EvOpen BULK_DB_FILE false :: rest.
Proof.
  destruct (main_reaches_summary default_config env_bulk_unopenable
              (fun _ => True) ltac:(done) ltac:(done) ltac:(done) ltac:(done)
              ltac:(done) (enough_fuel default_config) World_initial)
    as (w2 & w' & _ & Hmain & Ht).
  - reflexivity.
  - done.
  - done.
  - apply enough_fuel_spec.
  - by apply stats_readable_zero.
  - destruct (bench_bulk_insert_unopened default_config env_bulk_unopenable
                (DB_close DB_FILE w2)) as [_ Hb]; [reflexivity|].
    rewrite Hb in Ht. exists w'. eexists _, _, _, _, _, _.
    split; [exact Hmain|]. exact Ht.
Qed.

(** ** The total time of the summary *)

Lemma reported_total_quiet_workloads cfg env fuel w :
  open_ok env DB_FILE = true -> open_ok env BULK_DB_FILE = true ->
  1 <= NUM_RECORDS cfg -> 1 <= BATCH_SIZE cfg ->
  (Z.to_nat (NUM_RECORDS cfg) < fuel)%nat ->
  stats_readable env ->
  (forall o, cost env (EvStdout o) = 0) ->
  (forall db key, cost env (EvGet db key) = 0) ->
  (forall db n, cost env (EvIterate db n) = 0) ->
  (forall db opts batch ok, cost env (EvWrite db opts batch ok) = 0) ->
  (forall db name r, cost env (EvGetProperty db name r) = 0) ->
  exists w' i f p d,
    main cfg env fuel w = Some (Returned 0, w') /\
    summary w' =
      Some (EvStdout
              (OSummary (cost env (EvClose DB_FILE) +
                         cost env (EvOpen BULK_DB_FILE true) +
                         cost env (EvClose BULK_DB_FILE) +
                         cost env (EvDestroy BULK_DB_FILE)) i f p d)).
Proof.
  intros Hopen Hbulk HN HB Hfuel Hstats Cout Cget Citer Cwrite Cprop.
  destruct (main_reaches_summary cfg env (fun e => cost env e = 0)
              Cout Cget Citer ltac:(intros; apply Cwrite) Cprop fuel w)
    as (w2 & w' & Hem & Hmain & Ht); [done..|].
  apply (emitted_free env) in Hem.
  destruct (bench_bulk_insert_opened cfg env (DB_close DB_FILE w2))
    as (b & ok & r & el & Hb); [done|].
  exists w'. eexists _, _, _, _. split; [exact Hmain|].
  eapply summary_found in Ht; [|done..]. rewrite Ht. do 3 f_equal.
  unfold get_time in *. rewrite Hb. cbn [sum_cost DB_close emit trace].
  rewrite !Cout, Cwrite. lia.
Qed.

Lemma slow_bulk_engine_costs e :
  bulk_engine_call e = false ->
  cost env_slow_bulk_engine e = cost env_plain e.
Proof.
  destruct e; simpl; try done; intros H; by rewrite H.
Qed.

(** C5, refuted.  Two environments that differ only in the time the
    bulk-load engine takes to open, close and be destroyed report different
    totals: 0 when these calls are instantaneous, 6 s when they take 3 s,
    1 s and 2 s. *)
Lemma reported_total_varies_with_bulk_engine_time :
  (forall e, bulk_engine_call e = false ->
             cost env_slow_bulk_engine e = cost env_plain e) /\
  exists w1 w2 i1 f1 p1 d1 i2 f2 p2 d2,
    main default_config env_plain (enough_fuel default_config) World_initial
      = Some (Returned 0, w1) /\
    summary w1 = Some (EvStdout (OSummary 0 i1 f1 p1 d1)) /\
    main default_config env_slow_bulk_engine (enough_fuel default_config)
      World_initial = Some (Returned 0, w2) /\
    summary w2 = Some (EvStdout (OSummary 6000000 i2 f2 p2 d2)).
Proof.
  split; [exact slow_bulk_engine_costs|].
  destruct (reported_total_quiet_workloads default_config env_plain
              (enough_fuel default_config) World_initial)
    as (w1 & i1 & f1 & p1 & d1 & H1 & S1);
    [done | done | done | done | apply enough_fuel_spec
    | by apply stats_readable_zero | done..|].
  destruct (reported_total_quiet_workloads default_config env_slow_bulk_engine
              (enough_fuel default_config) World_initial)
    as (w2 & i2 & f2 & p2 & d2 & H2 & S2);
    [done | done | done | done | apply enough_fuel_spec
    | by apply stats_readable_zero | done..|].
  exists w1, w2, i1, f1, p1, d1, i2, f2, p2, d2.
  split; [exact H1|]. split; [exact S1|]. split; [exact H2|]. exact S2.
Qed.

(** C5, amended.  The total of the summary is the time taken by everything
    the run did between reading [total_start] and printing the summary,
    and that includes the open, the close and the destroy of the bulk-load
    engine: with non-negative durations the total is at least their sum. *)
Theorem total_time_includes_bulk_engine cfg env fuel w c w' :
  open_ok env DB_FILE = true -> open_ok env BULK_DB_FILE = true ->
  main cfg env fuel w = Some (Returned c, w') ->
  exists total i f p d between,
    trace w' =
      EvDestroy DB_FILE :: EvStdout OComplete
      :: EvStdout (OSummary total i f p d)
      :: between ++ trace (at_total_start env w) /\
    total = sum_cost (cost env) between /\
    EvOpen BULK_DB_FILE true ∈ between /\
    EvClose BULK_DB_FILE ∈ between /\
    EvDestroy BULK_DB_FILE ∈ between /\
    ((forall e, 0 <= cost env e) ->
     cost env (EvOpen BULK_DB_FILE true) + cost env (EvClose BULK_DB_FILE) +
     cost env (EvDestroy BULK_DB_FILE) <= total).
Proof.
  intros Hopen Hbulk Hmain.
  destruct (main_returned cfg env (fun _ => True) ltac:(done) ltac:(done)
              ltac:(done) ltac:(done) ltac:(done) fuel w c w')
    as (w2 & (evs & Hevs & _) & _ & Ht); [done..|].
  destruct (bench_bulk_insert_opened cfg env (DB_close DB_FILE w2))
    as (b & ok & r & el & Hb); [done|].
  cbn [DB_close emit trace] in Hb. rewrite Hevs in Hb.
  set (between :=
         [ EvStdout (OResult "Bulk insert" r el (NUM_RECORDS cfg));
           EvDestroy BULK_DB_FILE; EvClose BULK_DB_FILE;
           EvWrite BULK_DB_FILE {| sync := true |} b ok;
           EvOpen BULK_DB_FILE true; EvStdout OConfiguration;
           EvStdout (OText ("Inserting " +:+ Fmt.d 0 (NUM_RECORDS cfg) +:+
                              " records in one transaction..."));
           EvStdout (OHeader "BENCHMARK 8: Bulk Insert (Single Transaction)") ]
         ++ EvClose DB_FILE :: evs).
  assert (get_time env (bench_bulk_insert cfg env (DB_close DB_FILE w2)) -
          get_time env (at_total_start env w) = sum_cost (cost env) between)
    as Htotal.
  { unfold get_time. rewrite Hb.
    replace (EvStdout (OResult "Bulk insert" r el (NUM_RECORDS cfg)) :: _)
      with (between ++ trace (at_total_start env w)) by done.
    rewrite sum_cost_app. lia. }
  eexists _, _, _, _, _, between.
  split; [rewrite Ht, Hb; reflexivity|].
  split; [exact Htotal|].
  split; [apply elem_of_app; left; set_solver|].
  split; [apply elem_of_app; left; set_solver|].
  split; [apply elem_of_app; left; set_solver|].
  intros Hpos. rewrite Htotal. unfold between.
  rewrite sum_cost_app. cbn [sum_cost].
  pose proof (sum_cost_nonneg env evs Hpos).
  pose proof (Hpos (EvStdout (OResult "Bulk insert" r el (NUM_RECORDS cfg)))).
  pose proof (Hpos (EvWrite BULK_DB_FILE {| sync := true |} b ok)).
  pose proof (Hpos (EvStdout OConfiguration)).
  pose proof (Hpos (EvStdout (OText ("Inserting " +:+ Fmt.d 0 (NUM_RECORDS cfg) +:+
                          " records in one transaction...")))).
  pose proof (Hpos (EvStdout (OHeader "BENCHMARK 8: Bulk Insert (Single Transaction)"))).
  pose proof (Hpos (EvClose DB_FILE)).
  lia.
Qed.

Lemma total_time_includes_bulk_engine_witness :
  exists w',
    main small_config env_slow_bulk_engine 6 World_initial = Some (Returned 0, w') /\
    exists total i f p d between,
      trace w' =
        EvDestroy DB_FILE :: EvStdout OComplete
        :: EvStdout (OSummary total i f p d)
        :: between ++ trace (at_total_start env_slow_bulk_engine World_initial) /\
      total = sum_cost (cost env_slow_bulk_engine) between /\
      EvOpen BULK_DB_FILE true ∈ between /\
      EvClose BULK_DB_FILE ∈ between /\
      EvDestroy BULK_DB_FILE ∈ between /\
      ((forall e, 0 <= cost env_slow_bulk_engine e) ->
       cost env_slow_bulk_engine (EvOpen BULK_DB_FILE true) +
       cost env_slow_bulk_engine (EvClose BULK_DB_FILE) +
       cost env_slow_bulk_engine (EvDestroy BULK_DB_FILE) <= total).
Proof.
  destruct (main_reaches_summary small_config env_slow_bulk_engine
              (fun _ => True) ltac:(done) ltac:(done) ltac:(done) ltac:(done)
              ltac:(done) 6%nat World_initial)
    as (w2 & w' & _ & Hmain & _);
    [reflexivity | done | done | vm_compute; lia
    | by apply stats_readable_zero |].
  exists w'. split; [exact Hmain|].
  apply (total_time_includes_bulk_engine small_config env_slow_bulk_engine
           6%nat World_initial 0 w'); [reflexivity | reflexivity | exact Hmain].
Defined.

(** ** The engine's memory properties *)

Lemma main_stats_unsupported cfg env fuel w :
  open_ok env DB_FILE = true ->
  1 <= NUM_RECORDS cfg -> 1 <= BATCH_SIZE cfg ->
  (Z.to_nat (NUM_RECORDS cfg) < fuel)%nat ->
  property env PROP_TABLE_READERS = None ->
  exists w' rest,
    main cfg env fuel w = Some (Uncaught "std::stoull", w') /\
    trace w' =
      EvGetProperty DB_FILE PROP_TABLE_READERS None :: EvStdout OTickers :: rest.
Proof.
  intros Hopen HN HB Hfuel Hprop.
  destruct (bench_sequential_writes_total cfg env fuel DB_FILE
              (at_total_start env w)) as [w1 H1]; [done..|].
  rewrite (main_run cfg env fuel w w1) by done.
  unfold main_internal_stats, DB_GetProperty.
  fold PROP_TABLE_READERS. rewrite Hprop. cbn [default from_option id].
  change (Stoull.stoull EmptyString) with (@None Z). cbv iota beta.
  unfold after_workloads. by eexists _, _.
Qed.

(** C6, on the failing input.  With an engine that supports none of the
    memory properties the run ends in an uncaught exception of
    [std::stoull], right after the first property query and the ticker
    lines. *)
Theorem unsupported_property_ends_run :
  exists w' rest,
    main default_config env_no_stats (enough_fuel default_config) World_initial
      = Some (Uncaught "std::stoull", w') /\
    trace w' =
      EvGetProperty DB_FILE PROP_TABLE_READERS None :: EvStdout OTickers :: rest.
Proof.
  apply main_stats_unsupported;
    [reflexivity | done | done | apply enough_fuel_spec | reflexivity].
Qed.

(** An unsupported query after a supported one reports the earlier
    answer again. *)
Example stale_property_value :
  let env :=
    {| rand_at := rand_at env_plain;
       vmrss_at := vmrss_at env_plain;
       boot_time := 0;
       cost := cost env_plain;
       open_ok := open_ok env_plain;
       write_ok := write_ok env_plain;
       property := fun name =>
         if String.eqb name PROP_TABLE_READERS then Some "2048"%string
         else None |} in
  head (trace (main_internal_stats env DB_FILE World_initial).2) =
  Some (EvStdout (OInternal (MemKB 2) (MemKB 2) (MemKB 2) (MemKB 6))).
Proof. vm_compute. reflexivity. Qed.

(** ** The memory summary *)

Lemma final_peak_bounds env :
  get_memory_usage env 1 <= final_peak env /\
  get_memory_usage env 2 <= final_peak env /\
  get_memory_usage env 3 <= final_peak env /\
  get_memory_usage env 4 <= final_peak env.
Proof. unfold final_peak. rewrite !raise_peak_max. lia. Qed.

Lemma main_summary_figures cfg env fuel w :
  open_ok env DB_FILE = true ->
  1 <= NUM_RECORDS cfg -> 1 <= BATCH_SIZE cfg ->
  (Z.to_nat (NUM_RECORDS cfg) < fuel)%nat ->
  stats_readable env ->
  exists w' total i f p d,
    main cfg env fuel w = Some (Returned 0, w') /\
    summary w' = Some (EvStdout (OSummary total i f p d)) /\
    mem_kb i = get_memory_usage env 0 /\
    mem_kb f = get_memory_usage env 4 /\
    mem_kb p = final_peak env /\
    mem_kb d = get_memory_usage env 4 - get_memory_usage env 0.
Proof.
  intros Hopen HN HB Hfuel Hstats.
  destruct (main_reaches_summary cfg env (fun _ => True) ltac:(done)
              ltac:(done) ltac:(done) ltac:(done) ltac:(done) fuel w)
    as (w2 & w' & _ & Hmain & Ht); [done..|].
  eapply summary_found in Ht; [|done..].
  exists w'. eexists _, _, _, _, _. split; [exact Hmain|]. split; [exact Ht|].
  by rewrite !mem_kb_format_memory.
Qed.

(** C9, on the failing input.  With 5000 KB resident before the open and
    4000 KB at every later sample, the summary shows an initial figure of
    5000 KB, a final one of 4000 KB and a peak of 4000 KB: the peak is
    below the initial sample. *)
Theorem peak_below_initial :
  exists w' total i f p d,
    main default_config env_shrinking_rss (enough_fuel default_config)
      World_initial = Some (Returned 0, w') /\
    summary w' = Some (EvStdout (OSummary total i f p d)) /\
    mem_kb i = 5000 /\ mem_kb f = 4000 /\ mem_kb p = 4000.
Proof.
  destruct (main_summary_figures default_config env_shrinking_rss
              (enough_fuel default_config) World_initial)
    as (w' & total & i & f & p & d & Hmain & Hs & Hi & Hf & Hp & _);
    [reflexivity | done | done | apply enough_fuel_spec
    | by apply stats_readable_zero |].
  exists w', total, i, f, p, d.
  split; [exact Hmain|]. split; [exact Hs|].
  rewrite Hi, Hf, Hp. clear. vm_compute. repeat split; reflexivity.
Qed.

Lemma sequential_load_commits_and_keys_witness :
  exists w',
    bench_sequential_writes default_config env_plain
      (enough_fuel default_config) DB_FILE World_initial = Some w' /\
    Z.of_nat (length (commits w')) =
      Z.of_nat (length (commits World_initial)) + (1000000 + 1000 - 1) / 1000 /\
    commit_sizes w' = commit_sizes World_initial ++ chunk_sizes 1000 1000000 /\
    ((forall k, write_ok env_plain k = true) ->
     store_of World_initial DB_FILE = ∅ ->
     dom (store_of w' DB_FILE) =
       list_to_set (key_of <$> seqZ 0 1000000) /\
     Z.of_nat (size (store_of w' DB_FILE)) = 1000000).
Proof.
  apply (sequential_load_commits_and_keys default_config env_plain
           (enough_fuel default_config) DB_FILE World_initial);
    [done | done | apply enough_fuel_spec].
Defined.

(** * Further properties *)

(** ** The random workloads stay within the key range of the load *)

Section KeyRange.

Variable cfg : Config.
Variable env : Env.

Hypothesis records : 1 <= NUM_RECORDS cfg.
Hypothesis rand_nonneg : forall k, 0 <= rand_at env k.

Lemma random_index_in_range w :
  key_in_range cfg (key_of (Z.rem (rand env w).1 (NUM_RECORDS cfg))).
Proof.
  eexists. split; [|reflexivity]. cbn [rand fst].
  apply Z.rem_bound_pos; [apply rand_nonneg | lia].
Qed.

Lemma read_loop_range k db w0 w :
  emitted (touches_range cfg) w0 w ->
  emitted (touches_range cfg) w0 (read_loop cfg env k db w).
Proof.
  revert w. induction k as [|k IH]; intros w H; [done|].
  cbn [read_loop]. apply IH. unfold read_random_key. cbn [rand DB_Get].
  apply emitted_emit; [apply (random_index_in_range w)|].
  eapply emitted_trans; [exact H|]. by apply emitted_same_trace.
Qed.

Lemma update_loop_range k batch w0 w :
  Forall (fun op => key_in_range cfg (op_key op)) batch ->
  emitted (touches_range cfg) w0 w ->
  Forall (fun op => key_in_range cfg (op_key op))
    (update_loop cfg env k batch w).1 /\
  emitted (touches_range cfg) w0 (update_loop cfg env k batch w).2.
Proof.
  revert batch w. induction k as [|k IH]; intros batch w Hb H; [done|].
  cbn [update_loop rand]. apply IH.
  - apply Forall_app. split; [done|]. constructor; [|done].
    apply (random_index_in_range w).
  - eapply emitted_trans; [exact H|]. by apply emitted_same_trace.
Qed.

Lemma delete_loop_range k batch w0 w :
  Forall (fun op => key_in_range cfg (op_key op)) batch ->
  emitted (touches_range cfg) w0 w ->
  Forall (fun op => key_in_range cfg (op_key op))
    (delete_loop cfg env k batch w).1 /\
  emitted (touches_range cfg) w0 (delete_loop cfg env k batch w).2.
Proof.
  revert batch w. induction k as [|k IH]; intros batch w Hb H; [done|].
  cbn [delete_loop rand]. apply IH.
  - apply Forall_app. split; [done|]. constructor; [|done].
    apply (random_index_in_range w).
  - eapply emitted_trans; [exact H|]. by apply emitted_same_trace.
Qed.

Lemma DB_Write_range db opts batch w0 w :
  Forall (fun op => key_in_range cfg (op_key op)) batch ->
  emitted (touches_range cfg) w0 w ->
  emitted (touches_range cfg) w0 (DB_Write env db opts batch w).2.
Proof.
  intros Hb (evs & H & F). eexists (_ :: evs). split.
  - simpl. by rewrite H.
  - by constructor.
Qed.

Lemma mixed_step_range db opts batch w0 w :
  Forall (fun op => key_in_range cfg (op_key op)) batch ->
  emitted (touches_range cfg) w0 w ->
  Forall (fun op => key_in_range cfg (op_key op))
    (mixed_step cfg env db opts batch w).1 /\
  emitted (touches_range cfg) w0 (mixed_step cfg env db opts batch w).2.
Proof.
  intros Hb H. unfold mixed_step. cbn [rand].
  pose proof (random_index_in_range w) as Hk. cbn [rand fst] in Hk.
  assert (emitted (touches_range cfg) w0
            {| disk := disk w; trace := trace w; n_rand := S (S (n_rand w)) |})
    as H2 by (eapply emitted_trans; [exact H|]; by apply emitted_same_trace).
  destruct (_ <? 70); [|destruct (_ <? 90)].
  - cbn [DB_Get].
    destruct (100 <? _); cbn [fst snd].
    + split; [done|]. apply DB_Write_range; [done|].
      by apply emitted_emit.
    + split; [done|]. by apply emitted_emit.
  - destruct (100 <? _); cbn [fst snd].
    + split; [done|]. apply DB_Write_range; [|done].
      apply Forall_app. split; [done|]. by constructor.
    + split; [|done]. apply Forall_app. split; [done|]. by constructor.
  - destruct (100 <? _); cbn [fst snd].
    + split; [done|]. apply DB_Write_range; [|done].
      apply Forall_app. split; [done|]. by constructor.
    + split; [|done]. apply Forall_app. split; [done|]. by constructor.
Qed.

Lemma mixed_loop_range k db opts batch w0 w :
  Forall (fun op => key_in_range cfg (op_key op)) batch ->
  emitted (touches_range cfg) w0 w ->
  Forall (fun op => key_in_range cfg (op_key op))
    (mixed_loop cfg env k db opts batch w).1 /\
  emitted (touches_range cfg) w0 (mixed_loop cfg env k db opts batch w).2.
Proof.
  revert batch w. induction k as [|k IH]; intros batch w Hb H; [done|].
  cbn [mixed_loop].
  destruct (mixed_step_range db opts batch w0 w Hb H) as [Hb1 H1].
  destruct (mixed_step cfg env db opts batch w) as [b1 w1]. by apply IH.
Qed.

(** X10.  Every key the random reads, random updates, random deletes, exists
    checks and the mixed workload look up, put or delete is the key of an
    index from 0 up to NUM_RECORDS - 1: the random workloads never touch a
    key the sequential load did not write. *)
Theorem random_workloads_stay_in_range db w :
  emitted (touches_range cfg) w (bench_random_reads cfg env db w) /\
  emitted (touches_range cfg) w (bench_random_updates cfg env db w) /\
  emitted (touches_range cfg) w (bench_random_deletes cfg env db w) /\
  emitted (touches_range cfg) w (bench_exists_checks cfg env db w) /\
  (forall total_ops,
     emitted (touches_range cfg) w (mixed_workload cfg env total_ops db w)).
Proof.
  repeat split.
  - unfold bench_random_reads, print_result, print_header, printf.
    apply emitted_emit; [done|]. apply read_loop_range.
    do 2 (apply emitted_emit; [done|]). apply emitted_refl.
  - unfold bench_random_updates, print_result, print_header, printf.
    match goal with
    | |- context [update_loop cfg env ?k ?b ?w1] =>
        destruct (update_loop_range k b w w1) as [Hb H]
    end; [done | do 2 (apply emitted_emit; [done|]); apply emitted_refl |].
    destruct (update_loop _ _ _ _ _) as [b1 w1]. cbn [fst snd] in *.
    pose proof (DB_Write_range db (set_sync true WriteOptions_default) b1 w w1 Hb H) as HW.
    destruct (DB_Write _ _ _ _ _) as [ok w2]. by apply emitted_emit.
  - unfold bench_random_deletes, print_result, print_header, printf.
    match goal with
    | |- context [delete_loop cfg env ?k ?b ?w1] =>
        destruct (delete_loop_range k b w w1) as [Hb H]
    end; [done | do 2 (apply emitted_emit; [done|]); apply emitted_refl |].
    destruct (delete_loop _ _ _ _ _) as [b1 w1]. cbn [fst snd] in *.
    pose proof (DB_Write_range db (set_sync true WriteOptions_default) b1 w w1 Hb H) as HW.
    destruct (DB_Write _ _ _ _ _) as [ok w2]. by apply emitted_emit.
  - unfold bench_exists_checks, print_result, print_header, printf.
    apply emitted_emit; [done|]. apply read_loop_range.
    do 2 (apply emitted_emit; [done|]). apply emitted_refl.
  - intros total_ops.
    unfold mixed_workload, print_result, print_header, printf.
    match goal with
    | |- context [mixed_loop cfg env ?k ?d ?o ?b ?w1] =>
        destruct (mixed_loop_range k d o b w w1) as [Hb H]
    end; [done | do 2 (apply emitted_emit; [done|]); apply emitted_refl |].
    destruct (mixed_loop _ _ _ _ _ _ _) as [b1 w1]. cbn [fst snd] in *.
    apply emitted_emit; [done|].
    destruct (0 <? _); [|done]. by apply DB_Write_range.
Qed.

End KeyRange.

(** ** What the workloads leave alone, and the load read back *)

Lemma lookup_apply_puts_other l s key :
  (forall x, x ∈ l -> key <> key_of x) ->
  apply_batch (sequential_put <$> l) s !! key = s !! key.
Proof.
  revert s. induction l as [|x l IH]; intros s Hk; [done|].
  rewrite fmap_cons. unfold apply_batch in *. cbn [foldl].
  rewrite IH by (intros y Hy; apply Hk; by right).
  cbn [apply_op sequential_put]. apply lookup_insert_ne.
  apply not_eq_sym, Hk. by left.
Qed.

Lemma lookup_apply_puts l s i :
  NoDup l -> (forall x, x ∈ l -> 0 <= x) -> i ∈ l ->
  apply_batch (sequential_put <$> l) s !! key_of i = Some (sequential_value i).
Proof.
  revert s. induction l as [|x l IH]; intros s Hnd Hpos Hi.
  - by apply elem_of_nil in Hi.
  - rewrite fmap_cons. unfold apply_batch in *. cbn [foldl].
    apply NoDup_cons in Hnd as [Hx Hnd].
    destruct (decide (i ∈ l)) as [Hin|Hout].
    + apply IH; [done | intros y Hy; apply Hpos; by right | done].
    + apply elem_of_cons in Hi as [->|Hi]; [|done].
      fold (apply_batch (sequential_put <$> l) (apply_op s (sequential_put x))).
      rewrite lookup_apply_puts_other.
      * cbn [apply_op sequential_put]. apply lookup_insert_eq.
      * intros y Hy Heq. apply key_of_inj in Heq.
        -- by subst.
        -- apply Hpos. by left.
        -- apply Hpos. by right.
Qed.

Section Frame2.

Variable cfg : Config.
Variable env : Env.

Lemma DB_Write_disk_other db opts batch w path :
  path <> db ->
  disk (DB_Write env db opts batch w).2 !! path = disk w !! path.
Proof.
  intros Hne. unfold DB_Write. cbn [snd emit disk].
  destruct (write_ok env _); [|done]. by apply lookup_insert_ne.
Qed.

Lemma write_batches_disk_other fuel db opts i w w' path :
  path <> db ->
  write_batches cfg env fuel db opts i w = Some w' ->
  disk w' !! path = disk w !! path.
Proof.
  intros Hne. revert i w. induction fuel as [|fuel IH]; intros i w Hrun; [done|].
  cbn [write_batches] in Hrun.
  destruct (i <? NUM_RECORDS cfg); [|by inversion Hrun].
  destruct (fill_batch _ _ _ _) as [i' batch].
  pose proof (DB_Write_disk_other db opts batch w path Hne) as HW.
  destruct (DB_Write _ _ _ _ _) as [ok w1]. cbn [snd] in HW.
  rewrite <- HW. by eapply IH.
Qed.

Lemma update_loop_disk k batch w :
  disk (update_loop cfg env k batch w).2 = disk w.
Proof.
  revert batch w. induction k as [|k IH]; intros batch w; [done|].
  cbn [update_loop rand]. by rewrite IH.
Qed.

Lemma delete_loop_disk k batch w :
  disk (delete_loop cfg env k batch w).2 = disk w.
Proof.
  revert batch w. induction k as [|k IH]; intros batch w; [done|].
  cbn [delete_loop rand]. by rewrite IH.
Qed.

Lemma flush_disk_other (c : bool) db opts (batch : list BatchOp) w path :
  path <> db ->
  disk (if c then let '(_, w1) := DB_Write env db opts batch w in ([], w1)
        else (batch, w)).2 !! path = disk w !! path.
Proof.
  intros Hne. destruct c; [|done].
  pose proof (DB_Write_disk_other db opts batch w path Hne) as HW.
  by destruct (DB_Write _ _ _ _ _) as [ok w1].
Qed.

Lemma mixed_step_disk_other db opts batch w path :
  path <> db ->
  disk (mixed_step cfg env db opts batch w).2 !! path = disk w !! path.
Proof.
  intros Hne. unfold mixed_step. cbn [rand].
  destruct (_ <? 70); [|destruct (_ <? 90)]; cbn [DB_Get];
    by rewrite flush_disk_other.
Qed.

Lemma mixed_loop_disk_other k db opts batch w path :
  path <> db ->
  disk (mixed_loop cfg env k db opts batch w).2 !! path = disk w !! path.
Proof.
  intros Hne. revert batch w. induction k as [|k IH]; intros batch w; [done|].
  cbn [mixed_loop].
  pose proof (mixed_step_disk_other db opts batch w path Hne) as HS.
  destruct (mixed_step _ _ _ _ _ _) as [b1 w1]. cbn [snd] in HS.
  by rewrite IH.
Qed.

End Frame2.

Section DiskFrame.

Variable cfg : Config.
Variable env : Env.
Variable db path : string.

Hypothesis other : path <> db.

Lemma bench_sequential_writes_disk_other fuel w w' :
  bench_sequential_writes cfg env fuel db w = Some w' ->
  disk w' !! path = disk w !! path.
Proof.
  intros Hrun. unfold bench_sequential_writes in Hrun.
  destruct (write_batches _ _ _ _ _ _ _) as [w1|] eqn:E; [|done].
  inversion Hrun; subst. cbn [print_result printf emit disk].
  by apply (write_batches_disk_other cfg env _ _ _ _ _ _ path other) in E.
Qed.

Lemma bench_random_updates_disk_other w :
  disk (bench_random_updates cfg env db w) !! path = disk w !! path.
Proof.
  unfold bench_random_updates.
  pose proof (update_loop_disk cfg env (Z.to_nat (NUM_UPDATES cfg)) []
    (printf (OText ("Updating " +:+ Fmt.d 0 (NUM_UPDATES cfg) +:+
                      " random records..."))
       (print_header "BENCHMARK 4: Random Updates" w))) as HL.
  destruct (update_loop _ _ _ _ _) as [b1 w1]. cbn [snd] in HL.
  pose proof (DB_Write_disk_other env db (set_sync true WriteOptions_default)
                b1 w1 path other) as HW.
  destruct (DB_Write _ _ _ _ _) as [ok w2]. cbn [snd] in HW.
  cbn [print_result printf emit disk]. by rewrite HW, HL.
Qed.

Lemma bench_random_deletes_disk_other w :
  disk (bench_random_deletes cfg env db w) !! path = disk w !! path.
Proof.
  unfold bench_random_deletes.
  pose proof (delete_loop_disk cfg env (Z.to_nat (NUM_DELETES cfg)) []
    (printf (OText ("Deleting " +:+ Fmt.d 0 (NUM_DELETES cfg) +:+
                      " random records..."))
       (print_header "BENCHMARK 5: Random Deletes" w))) as HL.
  destruct (delete_loop _ _ _ _ _) as [b1 w1]. cbn [snd] in HL.
  pose proof (DB_Write_disk_other env db (set_sync true WriteOptions_default)
                b1 w1 path other) as HW.
  destruct (DB_Write _ _ _ _ _) as [ok w2]. cbn [snd] in HW.
  cbn [print_result printf emit disk]. by rewrite HW, HL.
Qed.

Lemma mixed_workload_disk_other total_ops w :
  disk (mixed_workload cfg env total_ops db w) !! path = disk w !! path.
Proof.
  unfold mixed_workload.
  pose proof (mixed_loop_disk_other cfg env (Z.to_nat total_ops) db
    (set_sync true WriteOptions_default) []
    (printf (OText "70% reads, 20% writes, 10% deletes...")
       (print_header "BENCHMARK 7: Mixed Workload" w)) path other) as HL.
  destruct (mixed_loop _ _ _ _ _ _ _) as [b1 w1]. cbn [snd] in HL.
  cbn [print_result printf emit disk].
  destruct (0 <? _); [|done]. by rewrite DB_Write_disk_other.
Qed.

End DiskFrame.

(** X12.  Every workload run on the database [db] leaves the contents of every
    other database path as they were. *)
Theorem workloads_touch_only_their_database cfg env db path w :
  path <> db ->
  (forall fuel w',
     bench_sequential_writes cfg env fuel db w = Some w' ->
     disk w' !! path = disk w !! path) /\
  disk (bench_random_updates cfg env db w) !! path = disk w !! path /\
  disk (bench_random_deletes cfg env db w) !! path = disk w !! path /\
  (forall total_ops,
     disk (mixed_workload cfg env total_ops db w) !! path = disk w !! path).
Proof.
  intros Hne. repeat split.
  - intros fuel w'. by apply bench_sequential_writes_disk_other.
  - by apply bench_random_updates_disk_other.
  - by apply bench_random_deletes_disk_other.
  - intros total_ops. by apply mixed_workload_disk_other.
Qed.

(** X4.  After a sequential load whose commits all succeed, a lookup of the key
    of any index below NUM_RECORDS yields the value written for that index,
    and every key outside the range is as it was before the load. *)
Theorem sequential_load_round_trip cfg env fuel db w :
  1 <= NUM_RECORDS cfg -> 1 <= BATCH_SIZE cfg ->
  (Z.to_nat (NUM_RECORDS cfg) < fuel)%nat ->
  (forall k, write_ok env k = true) ->
  exists w',
    bench_sequential_writes cfg env fuel db w = Some w' /\
    (forall i, 0 <= i < NUM_RECORDS cfg ->
       store_of w' db !! key_of i = Some (sequential_value i)) /\
    (forall key, ~ key_in_range cfg key ->
       store_of w' db !! key = store_of w db !! key).
Proof.
  intros HN HB Hfuel Hok. unfold bench_sequential_writes.
  set (w0 := printf _ (print_header _ w)).
  destruct (write_batches_spec cfg env fuel db
              (set_sync true WriteOptions_default) 0 w0)
    as (w1 & Hrun & _ & Hstore); [lia | lia | by rewrite Z.sub_0_r |].
  rewrite Hrun. eexists. split; [done|].
  rewrite Z.sub_0_r in Hstore. specialize (Hstore Hok).
  change (store_of w0 db) with (store_of w db) in Hstore.
  split.
  - intros i Hi.
    change (store_of (print_result _ _ _ w1) db) with (store_of w1 db).
    rewrite Hstore. apply lookup_apply_puts.
    + apply NoDup_seqZ.
    + intros x Hx. apply elem_of_seqZ in Hx. lia.
    + apply elem_of_seqZ. lia.
  - intros key Hkey.
    change (store_of (print_result _ _ _ w1) db) with (store_of w1 db).
    rewrite Hstore. apply lookup_apply_puts_other.
    intros x Hx ->. apply Hkey. exists x. split; [|done].
    apply elem_of_seqZ in Hx. lia.
Qed.

Lemma scan_count_length entries : scan_count entries = Z.of_nat (length entries).
Proof.
  unfold scan_count.
  assert (forall acc, foldl (fun count (_ : string * string) => count + 1) acc entries
                      = acc + Z.of_nat (length entries)) as H.
  { induction entries as [|e l IH]; intros acc; simpl; [lia|]. rewrite IH. lia. }
  by rewrite H.
Qed.

Lemma scan_trace env db w :
  exists rate elapsed,
    trace (bench_sequential_scan env db w) =
      EvStdout (OResult "Sequential scan" rate elapsed
                  (Z.of_nat (size (store_of w db))))
      :: EvIterate db (Z.of_nat (size (store_of w db)))
      :: EvStdout (OText "Scanning all records...")
      :: EvStdout (OHeader "BENCHMARK 3: Sequential Scan")
      :: trace w.
Proof.
  unfold bench_sequential_scan. cbn [print_header printf emit store_of disk].
  fold (store_of w db). rewrite scan_count_length, length_map_to_list.
  by eexists _, _.
Qed.

(** ** Updates and deletes *)

(** X7.  A sequential scan that follows a sequential load into an empty store
    visits exactly NUM_RECORDS entries. *)
Theorem load_then_scan_visits_all cfg env fuel db w :
  1 <= NUM_RECORDS cfg -> 1 <= BATCH_SIZE cfg ->
  (Z.to_nat (NUM_RECORDS cfg) < fuel)%nat ->
  (forall k, write_ok env k = true) ->
  store_of w db = ∅ ->
  exists w' rate elapsed,
    bench_sequential_writes cfg env fuel db w = Some w' /\
    head (trace (bench_sequential_scan env db w')) =
      Some (EvStdout (OResult "Sequential scan" rate elapsed (NUM_RECORDS cfg))).
Proof.
  intros HN HB Hfuel Hok Hempty. unfold bench_sequential_writes.
  set (w0 := printf _ (print_header _ w)).
  destruct (write_batches_spec cfg env fuel db
              (set_sync true WriteOptions_default) 0 w0)
    as (w1 & Hrun & _ & Hstore); [lia | lia | by rewrite Z.sub_0_r |].
  rewrite Hrun. rewrite Z.sub_0_r in Hstore. specialize (Hstore Hok).
  change (store_of w0 db) with (store_of w db) in Hstore.
  rewrite Hempty in Hstore.
  destruct (scan_trace env db
              (print_result "Sequential writes"
                 (get_time env w1 - get_time env w0) (NUM_RECORDS cfg) w1))
    as (rate & elapsed & Ht).
  eexists _, rate, elapsed. split; [done|]. rewrite Ht. cbn [head].
  change (store_of (print_result _ _ _ w1) db) with (store_of w1 db).
  rewrite Hstore, <- size_dom, dom_apply_sequential_puts, dom_empty_L,
    (left_id_L ∅ (∪)), size_list_to_set by apply NoDup_keys.
  rewrite length_fmap, length_seqZ, Z2Nat.id by lia. done.
Qed.

Section Mutations.

Variable cfg : Config.
Variable env : Env.

Lemma delete_loop_batch k batch w :
  exists dels,
    (delete_loop cfg env k batch w).1 = batch ++ dels /\
    length dels = k /\ Forall is_delete dels.
Proof.
  revert batch w. induction k as [|k IH]; intros batch w.
  - exists []. by rewrite app_nil_r.
  - cbn [delete_loop rand].
    destruct (IH (batch ++ [BDelete (key_of
                (Z.rem (rand_at env (n_rand w)) (NUM_RECORDS cfg)))])
                {| disk := disk w; trace := trace w; n_rand := S (n_rand w) |})
      as (dels & Heq & Hlen & Hdel).
    eexists (_ :: dels). split; [|split].
    + rewrite Heq, <- app_assoc. reflexivity.
    + simpl. by rewrite Hlen.
    + by constructor.
Qed.

Lemma update_loop_batch k batch w :
  exists puts,
    (update_loop cfg env k batch w).1 = batch ++ puts /\
    length puts = k /\ Forall is_put puts.
Proof.
  revert batch w. induction k as [|k IH]; intros batch w.
  - exists []. by rewrite app_nil_r.
  - cbn [update_loop rand].
    match goal with
    | |- context [update_loop cfg env k ?b ?w1] =>
        destruct (IH b w1) as (puts & Heq & Hlen & Hput)
    end.
    eexists (_ :: puts). split; [|split].
    + rewrite Heq, <- app_assoc. reflexivity.
    + simpl. by rewrite Hlen.
    + by constructor.
Qed.

Lemma apply_deletes batch (s : gmap string string) :
  Forall is_delete batch ->
  apply_batch batch s ⊆ s /\
  (size s <= size (apply_batch batch s) + length batch)%nat.
Proof.
  intros Hdel. revert s. induction Hdel as [|op b Hop _ IH]; intros s.
  - split; [done|]. simpl. lia.
  - destruct op as [|key]; [done|].
    unfold apply_batch in *. cbn [foldl apply_op length].
    destruct (IH (delete key s)) as [Hsub Hsize]. split.
    + etrans; [exact Hsub|]. apply delete_subseteq.
    + pose proof (map_size_delete key s) as Hd.
      destruct (s !! key); simpl in Hd; lia.
Qed.

Lemma dom_apply_puts batch (s : gmap string string) :
  Forall is_put batch ->
  dom (apply_batch batch s) = dom s ∪ list_to_set (op_key <$> batch).
Proof.
  intros Hput. revert s. induction Hput as [|op b Hop _ IH]; intros s.
  - simpl. set_solver.
  - destruct op as [key value|]; [|done].
    unfold apply_batch in *. cbn [foldl apply_op]. rewrite IH, dom_insert_L.
    rewrite fmap_cons. cbn [op_key]. set_solver.
Qed.

Lemma update_loop_trace k batch w :
  trace (update_loop cfg env k batch w).2 = trace w.
Proof.
  revert batch w. induction k as [|k IH]; intros batch w; [done|].
  cbn [update_loop rand]. by rewrite IH.
Qed.

Lemma delete_loop_trace k batch w :
  trace (delete_loop cfg env k batch w).2 = trace w.
Proof.
  revert batch w. induction k as [|k IH]; intros batch w; [done|].
  cbn [delete_loop rand]. by rewrite IH.
Qed.

Lemma commits_DB_Write db opts batch w :
  commits (DB_Write env db opts batch w).2 =
  EvWrite db opts batch (write_ok env (length (commits w))) :: commits w.
Proof. done. Qed.

Lemma update_loop_commits k batch w :
  commits (update_loop cfg env k batch w).2 = commits w.
Proof. unfold commits. by rewrite update_loop_trace. Qed.

Lemma delete_loop_commits k batch w :
  commits (delete_loop cfg env k batch w).2 = commits w.
Proof. unfold commits. by rewrite delete_loop_trace. Qed.

Lemma update_loop_store k batch w db :
  store_of (update_loop cfg env k batch w).2 db = store_of w db.
Proof. unfold store_of. by rewrite update_loop_disk. Qed.

Lemma delete_loop_store k batch w db :
  store_of (delete_loop cfg env k batch w).2 db = store_of w db.
Proof. unfold store_of. by rewrite delete_loop_disk. Qed.

Lemma store_of_DB_Write db opts batch w :
  store_of (DB_Write env db opts batch w).2 db =
  if write_ok env (length (commits w))
  then apply_batch batch (store_of w db) else store_of w db.
Proof.
  unfold DB_Write. destruct (write_ok env _); [|done].
  unfold store_of at 1. cbn [snd emit disk]. by rewrite lookup_insert_eq.
Qed.

End Mutations.

(** X9.  The random-delete workload issues one commit, of exactly NUM_DELETES
    deletes.  When the commit succeeds every surviving entry is unchanged
    and at most NUM_DELETES entries are gone (fewer when an index repeats
    or its key is absent); when it fails the store is as before. *)
Theorem random_deletes_effect cfg env db w :
  exists batch ok,
    commits (bench_random_deletes cfg env db w) =
      EvWrite db {| sync := true |} batch ok :: commits w /\
    length batch = Z.to_nat (NUM_DELETES cfg) /\
    Forall is_delete batch /\
    (ok = true ->
     store_of (bench_random_deletes cfg env db w) db ⊆ store_of w db /\
     (size (store_of w db) <=
      size (store_of (bench_random_deletes cfg env db w) db)
      + Z.to_nat (NUM_DELETES cfg))%nat) /\
    (ok = false ->
     store_of (bench_random_deletes cfg env db w) db = store_of w db).
Proof.
  unfold bench_random_deletes.
  set (w0 := printf _ (print_header _ w)).
  destruct (delete_loop_batch cfg env (Z.to_nat (NUM_DELETES cfg)) [] w0)
    as (dels & Heq & Hlen & Hdel).
  pose proof (delete_loop_commits cfg env (Z.to_nat (NUM_DELETES cfg)) [] w0) as Hc.
  pose proof (delete_loop_store cfg env (Z.to_nat (NUM_DELETES cfg)) [] w0 db) as Hs.
  destruct (delete_loop _ _ _ _ _) as [b1 w1]. cbn [fst snd] in *. subst b1.
  pose proof (commits_DB_Write env db (set_sync true WriteOptions_default) dels w1) as HcW.
  pose proof (store_of_DB_Write env db (set_sync true WriteOptions_default) dels w1) as HsW.
  destruct (DB_Write _ _ _ _ _) as [ok' w2]. cbn [snd] in *.
  change (commits (print_result _ _ _ w2)) with (commits w2).
  change (store_of (print_result _ _ _ w2) db) with (store_of w2 db).
  rewrite Hc in HcW, HsW. change (commits w0) with (commits w) in *.
  change (store_of w0 db) with (store_of w db) in *. rewrite Hs in HsW.
  eexists dels, _. split; [exact HcW|]. split; [done|]. split; [done|].
  split; intros Hok; rewrite HsW, Hok; [|done].
  destruct (apply_deletes dels (store_of w db) Hdel) as [Hsub Hsize].
  split; [done|]. lia.
Qed.

(** X8.  The random-update workload issues one commit, of exactly NUM_UPDATES
    puts.  On a store that holds every key of the range it adds no key and
    removes none, whether the commit succeeds or not. *)
Theorem random_updates_keep_key_set cfg env db w :
  1 <= NUM_RECORDS cfg ->
  (forall k, 0 <= rand_at env k) ->
  (forall i, 0 <= i < NUM_RECORDS cfg -> is_Some (store_of w db !! key_of i)) ->
  exists batch ok,
    commits (bench_random_updates cfg env db w) =
      EvWrite db {| sync := true |} batch ok :: commits w /\
    length batch = Z.to_nat (NUM_UPDATES cfg) /\
    Forall is_put batch /\
    dom (store_of (bench_random_updates cfg env db w) db) = dom (store_of w db).
Proof.
  intros HN Hrand Hfull. unfold bench_random_updates.
  set (w0 := printf _ (print_header _ w)).
  destruct (update_loop_batch cfg env (Z.to_nat (NUM_UPDATES cfg)) [] w0)
    as (puts & Heq & Hlen & Hput).
  destruct (update_loop_range cfg env HN Hrand (Z.to_nat (NUM_UPDATES cfg)) []
              w0 w0) as [Hrange _]; [done | apply emitted_refl |].
  pose proof (update_loop_commits cfg env (Z.to_nat (NUM_UPDATES cfg)) [] w0) as Hc.
  pose proof (update_loop_store cfg env (Z.to_nat (NUM_UPDATES cfg)) [] w0 db) as Hs.
  destruct (update_loop _ _ _ _ _) as [b1 w1]. cbn [fst snd] in *. subst b1.
  pose proof (commits_DB_Write env db (set_sync true WriteOptions_default) puts w1) as HcW.
  pose proof (store_of_DB_Write env db (set_sync true WriteOptions_default) puts w1) as HsW.
  destruct (DB_Write _ _ _ _ _) as [ok' w2]. cbn [snd] in *.
  change (commits (print_result _ _ _ w2)) with (commits w2).
  change (store_of (print_result _ _ _ w2) db) with (store_of w2 db).
  rewrite Hc in HcW, HsW. change (commits w0) with (commits w) in *.
  change (store_of w0 db) with (store_of w db) in *. rewrite Hs in HsW.
  eexists puts, _. split; [exact HcW|]. split; [done|]. split; [done|].
  rewrite HsW. destruct (write_ok env _); [|done].
  rewrite dom_apply_puts by done.
  assert (list_to_set (op_key <$> puts) ⊆ dom (store_of w db)) as Hsub.
  { intros key Hkey. apply elem_of_list_to_set, list_elem_of_fmap in Hkey
      as (op & -> & Hop).
    rewrite Forall_forall in Hrange. destruct (Hrange op Hop) as (idx & Hidx & ->).
    apply elem_of_dom. by apply Hfull. }
  set_solver.
Qed.

(** ** Accounting of the mixed workload *)

Section MixedAccounting.

Variable cfg : Config.
Variable env : Env.

Lemma commit_sizes_emit e w :
  is_write e = false -> commit_sizes (emit e w) = commit_sizes w.
Proof. intros H. unfold commit_sizes, commits. cbn [emit trace List.filter]. by rewrite H. Qed.

Lemma replicate_snoc {A} n (x : A) : replicate n x ++ [x] = replicate (S n) x.
Proof. induction n as [|n IH]; [done|]. simpl. by rewrite IH. Qed.

Lemma flush_accounts db opts (b1 : list BatchOp) w2 (m : nat) :
  length b1 = m -> (m <= 101)%nat ->
  exists n : nat,
    let r := (if 100 <? Z.of_nat (length b1)
              then let '(_, w3) := DB_Write env db opts b1 w2 in ([], w3)
              else (b1, w2)) in
    (length r.1 <= 100)%nat /\
    gets_issued r.2 = gets_issued w2 /\
    commit_sizes r.2 = commit_sizes w2 ++ replicate n 101 /\
    101 * Z.of_nat n + Z.of_nat (length r.1) = Z.of_nat m /\
    n_rand r.2 = n_rand w2.
Proof.
  intros <- Hlen. destruct (100 <? Z.of_nat (length b1)) eqn:E.
  - apply Z.ltb_lt in E. exists 1%nat. cbn zeta.
    pose proof (commit_sizes_write env db opts b1 w2) as HW.
    assert (gets_issued (DB_Write env db opts b1 w2).2 = gets_issued w2) as Hg by done.
    assert (n_rand (DB_Write env db opts b1 w2).2 = n_rand w2) as Hn by done.
    destruct (DB_Write env db opts b1 w2) as [ok w3]. cbn [fst snd] in *.
    split; [simpl; lia|]. split; [done|].
    split; [rewrite HW; simpl; do 2 f_equal; lia|].
    split; [simpl; lia|done].
  - apply Z.ltb_ge in E. exists 0%nat. cbn zeta. cbn [fst snd].
    split; [lia|]. split; [done|]. split; [by rewrite app_nil_r|].
    split; [lia|done].
Qed.

(** One iteration: the operation is a lookup made at once, or a mutation
    that joins the batch; a batch that reaches 101 mutations is committed
    whole. *)
Lemma mixed_step_accounts db opts batch w :
  (length batch <= 100)%nat ->
  exists (g : Z) (n : nat),
    let r := mixed_step cfg env db opts batch w in
    (length r.1 <= 100)%nat /\
    0 <= g /\
    gets_issued r.2 = gets_issued w + g /\
    commit_sizes r.2 = commit_sizes w ++ replicate n 101 /\
    g + 101 * Z.of_nat n + Z.of_nat (length r.1) = Z.of_nat (length batch) + 1 /\
    n_rand r.2 = S (S (n_rand w)).
Proof.
  intros Hlen. unfold mixed_step. cbn [rand].
  destruct (_ <? 70); [|destruct (_ <? 90)].
  - cbn [DB_Get].
    match goal with
    | |- context [if _ then let '(_, _) := DB_Write env db opts ?b ?w2 in _ else _] =>
        destruct (flush_accounts db opts b w2 (length batch))
          as (n & H1 & H2 & H3 & H4 & H5); [done | lia |]
    end.
    cbn zeta in *. exists 1, n.
    split; [exact H1|]. split; [lia|].
    split; [rewrite H2; unfold gets_issued; cbn [emit trace gets_in]; lia|].
    split; [rewrite H3; reflexivity|]. split; [lia|]. rewrite H5. reflexivity.
  - match goal with
    | |- context [if _ then let '(_, _) := DB_Write env db opts ?b ?w2 in _ else _] =>
        destruct (flush_accounts db opts b w2 (S (length batch)))
          as (n & H1 & H2 & H3 & H4 & H5);
          [rewrite length_app; simpl; lia | lia |]
    end.
    cbn zeta in *. exists 0, n.
    split; [exact H1|]. split; [lia|].
    split; [rewrite H2; unfold gets_issued; cbn [trace]; lia|].
    split; [rewrite H3; reflexivity|]. split; [lia|]. rewrite H5. reflexivity.
  - match goal with
    | |- context [if _ then let '(_, _) := DB_Write env db opts ?b ?w2 in _ else _] =>
        destruct (flush_accounts db opts b w2 (S (length batch)))
          as (n & H1 & H2 & H3 & H4 & H5);
          [rewrite length_app; simpl; lia | lia |]
    end.
    cbn zeta in *. exists 0, n.
    split; [exact H1|]. split; [lia|].
    split; [rewrite H2; unfold gets_issued; cbn [trace]; lia|].
    split; [rewrite H3; reflexivity|]. split; [lia|]. rewrite H5. reflexivity.
Qed.

Lemma mixed_loop_accounts k db opts batch w :
  (length batch <= 100)%nat ->
  exists (g : Z) (n : nat),
    let r := mixed_loop cfg env k db opts batch w in
    (length r.1 <= 100)%nat /\
    0 <= g /\
    gets_issued r.2 = gets_issued w + g /\
    commit_sizes r.2 = commit_sizes w ++ replicate n 101 /\
    g + 101 * Z.of_nat n + Z.of_nat (length r.1) =
      Z.of_nat (length batch) + Z.of_nat k /\
    n_rand r.2 = (n_rand w + 2 * k)%nat.
Proof.
  revert batch w. induction k as [|k IH]; intros batch w Hlen.
  - exists 0, 0%nat. cbn zeta. cbn [mixed_loop fst snd].
    repeat split; try done; try lia. by rewrite app_nil_r.
  - cbn [mixed_loop].
    destruct (mixed_step_accounts db opts batch w Hlen)
      as (g1 & n1 & Hl1 & Hg1 & Hgets1 & Hsz1 & Hsum1 & Hr1).
    cbn zeta in *.
    destruct (mixed_step cfg env db opts batch w) as [b1 w1]. cbn [fst snd] in *.
    destruct (IH b1 w1 Hl1) as (g2 & n2 & Hl2 & Hg2 & Hgets2 & Hsz2 & Hsum2 & Hr2).
    cbn zeta in *.
    exists (g1 + g2), (n1 + n2)%nat. repeat split; try done; try lia.
    rewrite Hsz2, Hsz1, <- app_assoc. by rewrite replicate_add.
Qed.

End MixedAccounting.

Lemma mixed_workload_accounts cfg env total_ops db w :
  0 <= total_ops ->
  exists (g : Z) (n : nat) (r : Z),
    let w' := mixed_workload cfg env total_ops db w in
    0 <= g /\ 0 <= r <= 100 /\
    gets_issued w' = gets_issued w + g /\
    commit_sizes w' =
      commit_sizes w ++ replicate n 101 ++ (if r =? 0 then [] else [r]) /\
    g + 101 * Z.of_nat n + r = total_ops /\
    n_rand w' = (n_rand w + 2 * Z.to_nat total_ops)%nat.
Proof.
  intros Htotal. unfold mixed_workload.
  set (w0 := printf _ (print_header _ w)).
  destruct (mixed_loop_accounts cfg env (Z.to_nat total_ops) db
              (set_sync true WriteOptions_default) [] w0)
    as (g & n & Hl & Hg & Hgets & Hsz & Hsum & Hr); [simpl; lia|].
  cbn zeta in *.
  destruct (mixed_loop _ _ _ _ _ _ _) as [b1 w1]. cbn [fst snd] in *.
  exists g, n, (Z.of_nat (length b1)).
  change (gets_issued w0) with (gets_issued w) in Hgets.
  change (commit_sizes w0) with (commit_sizes w) in Hsz.
  change (n_rand w0) with (n_rand w) in Hr.
  cbn [length] in Hsum. rewrite Z2Nat.id in Hsum by lia.
  split; [done|]. split; [lia|].
  destruct (0 <? Z.of_nat (length b1)) eqn:E.
  - apply Z.ltb_lt in E.
    pose proof (commit_sizes_write env db (set_sync true WriteOptions_default) b1 w1) as HW.
    destruct (DB_Write env db (set_sync true WriteOptions_default) b1 w1)
      as [ok w2] eqn:EW.
    assert (gets_issued w2 = gets_issued w1 /\ n_rand w2 = n_rand w1) as [Hg2 Hn2].
    { apply (f_equal snd) in EW. cbn [snd] in EW. by subst w2. }
    cbn [snd] in *.
    change (gets_issued (print_result _ _ _ w2)) with (gets_issued w2).
    change (commit_sizes (print_result _ _ _ w2)) with (commit_sizes w2).
    change (n_rand (print_result _ _ _ w2)) with (n_rand w2).
    destruct (Z.eqb_spec (Z.of_nat (length b1)) 0); [lia|].
    rewrite HW, Hsz, <- app_assoc.
    split; [lia|]. split; [done|]. split; [lia|]. lia.
  - apply Z.ltb_ge in E.
    change (gets_issued (print_result _ _ _ w1)) with (gets_issued w1).
    change (commit_sizes (print_result _ _ _ w1)) with (commit_sizes w1).
    change (n_rand (print_result _ _ _ w1)) with (n_rand w1).
    destruct (Z.eqb_spec (Z.of_nat (length b1)) 0); [|lia].
    rewrite Hsz. split; [lia|]. split; [by rewrite app_nil_r|].
    split; [lia|]. lia.
Qed.

(** X11.  The mixed workload accounts for every operation: each of the
    [total_ops] operations is either a lookup made at once or a mutation
    that is committed exactly once, in a periodic batch of 101 mutations or
    in the final batch of the 1 to 100 left over; [rand()] is called twice
    per operation. *)
Theorem mixed_workload_accounts_for_every_op cfg env total_ops db w :
  0 <= total_ops ->
  exists (g : Z) (n : nat) (r : Z),
    let w' := mixed_workload cfg env total_ops db w in
    0 <= g /\ 0 <= r <= 100 /\
    gets_issued w' = gets_issued w + g /\
    commit_sizes w' =
      commit_sizes w ++ replicate n 101 ++ (if r =? 0 then [] else [r]) /\
    g + 101 * Z.of_nat n + r = total_ops /\
    n_rand w' = (n_rand w + 2 * Z.to_nat total_ops)%nat.
Proof. apply mixed_workload_accounts. Qed.

(** ** The bulk load, a batch size of zero, the lookups issued *)

Lemma bulk_loop_spec k i batch :
  bulk_loop k i batch = batch ++ (bulk_put <$> seqZ i (Z.of_nat k)).
Proof.
  revert i batch. induction k as [|k IH]; intros i batch.
  - by rewrite app_nil_r.
  - cbn [bulk_loop]. rewrite IH, <- app_assoc.
    rewrite (seqZ_cons i (Z.of_nat (S k))) by lia.
    rewrite fmap_cons. replace (Z.pred (Z.of_nat (S k))) with (Z.of_nat k) by lia.
    by replace (Z.succ i) with (i + 1) by lia.
Qed.

Lemma bulk_key_not_main i idx : op_key (bulk_put i) <> key_of idx.
Proof. unfold bulk_put, key_of. cbn [op_key]. simpl. discriminate. Qed.

(** X13.  The bulk load works on a database of its own and leaves nothing
    behind: every other database path is as before; once its engine has
    opened, the workload issues a single commit of NUM_RECORDS puts, none
    under a key of the main run, and the bulk database is gone from the
    disk when it returns; when the engine fails to open the disk is
    untouched (a database left at the bulk path is not destroyed). *)
Theorem bulk_load_is_isolated cfg env w :
  (forall path, path <> BULK_DB_FILE ->
     disk (bench_bulk_insert cfg env w) !! path = disk w !! path) /\
  (open_ok env BULK_DB_FILE = true ->
     disk (bench_bulk_insert cfg env w) !! BULK_DB_FILE = None /\
     exists batch ok,
       commits (bench_bulk_insert cfg env w) =
         EvWrite BULK_DB_FILE {| sync := true |} batch ok :: commits w /\
       batch = bulk_put <$> seqZ 0 (Z.of_nat (Z.to_nat (NUM_RECORDS cfg))) /\
       length batch = Z.to_nat (NUM_RECORDS cfg) /\
       Forall (fun op => forall idx, op_key op <> key_of idx) batch) /\
  (open_ok env BULK_DB_FILE = false ->
     disk (bench_bulk_insert cfg env w) = disk w /\
     commits (bench_bulk_insert cfg env w) = commits w).
Proof.
  unfold bench_bulk_insert, DB_Open.
  destruct (open_ok env BULK_DB_FILE) eqn:Hopen; cbn [negb].
  - set (w0 := emit _ (configure_small_db_options _)).
    rewrite bulk_loop_spec. cbn [app].
    set (batch := bulk_put <$> _).
    pose proof (DB_Write_disk_other env BULK_DB_FILE
                  (set_sync true WriteOptions_default) batch w0) as HW.
    pose proof (commits_DB_Write env BULK_DB_FILE
                  (set_sync true WriteOptions_default) batch w0) as HC.
    destruct (DB_Write _ _ _ _ _) as [ok w1]. cbn [snd] in *.
    split; [|split; [|done]].
    + intros path Hne.
      cbn [print_result printf DestroyDB DB_close emit disk].
      rewrite lookup_delete_ne by done. by apply HW.
    + intros _. split.
      * cbn [print_result printf DestroyDB DB_close emit disk].
        apply lookup_delete_eq.
      * eexists batch, _. split; [exact HC|]. split; [done|]. split.
        -- unfold batch. rewrite length_fmap, length_seqZ. lia.
        -- unfold batch. apply Forall_fmap, Forall_forall.
           intros i _ idx. apply bulk_key_not_main.
  - split; [done|]. split; [done|]. done.
Qed.

(** X5.  With a record count of at least 1 and a batch size of 0 or less the
    sequential load never ends: its inner loop adds nothing to the batch
    and the outer loop, which has no step of its own, commits empty
    batches for ever. *)
Theorem sequential_load_needs_positive_batch cfg env fuel db w :
  1 <= NUM_RECORDS cfg -> BATCH_SIZE cfg <= 0 ->
  bench_sequential_writes cfg env fuel db w = None.
Proof.
  intros HN HB. unfold bench_sequential_writes.
  set (w0 := printf _ (print_header _ w)). clearbody w0.
  assert (write_batches cfg env fuel db (set_sync true WriteOptions_default) 0 w0
          = None) as ->; [|done].
  revert w0. induction fuel as [|fuel IH]; intros w0; [done|].
  cbn [write_batches]. destruct (0 <? NUM_RECORDS cfg) eqn:E;
    [|apply Z.ltb_ge in E; lia].
  replace (Z.to_nat (BATCH_SIZE cfg)) with 0%nat by lia.
  cbn [fill_batch]. destruct (DB_Write _ _ _ _ _) as [ok w1]. apply IH.
Qed.

Lemma read_loop_gets cfg env k db w :
  gets_issued (read_loop cfg env k db w) = gets_issued w + Z.of_nat k.
Proof.
  revert w. induction k as [|k IH]; intros w; [cbn [read_loop]; lia|].
  cbn [read_loop]. rewrite IH. unfold read_random_key, gets_issued.
  cbn [rand DB_Get emit trace gets_in]. lia.
Qed.

(** X6.  The random-read and the exists-check workloads each issue exactly
    NUM_READS point lookups, the count their result line reports, and
    call [rand()] once per lookup. *)
Theorem read_workloads_issue_reported_lookups cfg env db w :
  0 <= NUM_READS cfg ->
  (gets_issued (bench_random_reads cfg env db w) = gets_issued w + NUM_READS cfg /\
   exists rate elapsed,
     head (trace (bench_random_reads cfg env db w)) =
     Some (EvStdout (OResult "Random reads" rate elapsed (NUM_READS cfg)))) /\
  (gets_issued (bench_exists_checks cfg env db w) = gets_issued w + NUM_READS cfg /\
   exists rate elapsed,
     head (trace (bench_exists_checks cfg env db w)) =
     Some (EvStdout (OResult "Exists checks" rate elapsed (NUM_READS cfg)))).
Proof.
  intros HR. split; split.
  - unfold bench_random_reads.
    change (gets_issued (print_result ?t ?e ?o ?w1)) with (gets_issued w1).
    rewrite read_loop_gets. unfold gets_issued.
    cbn [print_header printf emit trace gets_in]. lia.
  - by eexists _, _.
  - unfold bench_exists_checks.
    change (gets_issued (print_result ?t ?e ?o ?w1)) with (gets_issued w1).
    rewrite read_loop_gets. unfold gets_issued.
    cbn [print_header printf emit trace gets_in]. lia.
  - by eexists _, _.
Qed.

(** ** The result lines of a run *)

Lemma emitted_elem P w w' e : emitted P w w' -> e ∈ trace w -> e ∈ trace w'.
Proof. intros (evs & -> & _) He. apply elem_of_app. by right. Qed.

Lemma results_emit e w :
  results (emit e w) = results w ++ option_list (result_name e).
Proof.
  unfold results. cbn [emit trace List.rev]. rewrite omap_app.
  cbn [omap list_omap]. by destruct (result_name e).
Qed.

Lemma results_emitted w w' :
  emitted (fun e => result_name e = None) w w' -> results w' = results w.
Proof.
  intros (evs & Ht & F). unfold results. rewrite Ht, rev_app_distr, omap_app.
  assert (omap result_name (List.rev evs) = []) as Hq.
  { clear Ht. induction F as [|e l He _ IH]; [done|].
    cbn [List.rev]. rewrite omap_app, IH. cbn [omap list_omap app].
    by rewrite He. }
  by rewrite Hq, app_nil_r.
Qed.

Lemma results_print_result test elapsed ops w :
  results (print_result test elapsed ops w) = results w ++ [test].
Proof. unfold print_result, printf. by rewrite results_emit. Qed.

Lemma results_DestroyDB path w : results (DestroyDB path w) = results w.
Proof. unfold DestroyDB. rewrite results_emit. cbn [result_name option_list]. by rewrite app_nil_r. Qed.

Lemma results_DB_close db w : results (DB_close db w) = results w.
Proof. unfold DB_close. rewrite results_emit. cbn [result_name option_list]. by rewrite app_nil_r. Qed.

Lemma results_printf o w :
  results (printf o w) = results w ++ option_list (result_name (EvStdout o)).
Proof. apply results_emit. Qed.

Section ResultLines.

Variable cfg : Config.
Variable env : Env.

Local Abbreviation quiet := (fun e => result_name e = None).

Lemma results_bench_sequential_writes fuel db w w' :
  bench_sequential_writes cfg env fuel db w = Some w' ->
  results w' = results w ++ ["Sequential writes"%string].
Proof.
  unfold bench_sequential_writes. intros Hrun.
  destruct (write_batches _ _ _ _ _ _ _) as [w1|] eqn:E; [|done].
  inversion Hrun; subst. rewrite results_print_result. f_equal.
  eapply (write_batches_emits cfg env quiet) in E;
    [apply results_emitted in E; exact E | done |].
  unfold print_header, printf. do 2 (apply emitted_emit; [done|]).
  apply emitted_refl.
Qed.

Lemma results_bench_random_reads db w :
  results (bench_random_reads cfg env db w) = results w ++ ["Random reads"%string].
Proof.
  unfold bench_random_reads. rewrite results_print_result. f_equal.
  apply results_emitted, (read_loop_emits cfg env quiet); [done|].
  unfold print_header, printf. do 2 (apply emitted_emit; [done|]).
  apply emitted_refl.
Qed.

Lemma results_bench_exists_checks db w :
  results (bench_exists_checks cfg env db w) = results w ++ ["Exists checks"%string].
Proof.
  unfold bench_exists_checks. rewrite results_print_result. f_equal.
  apply results_emitted, (read_loop_emits cfg env quiet); [done|].
  unfold print_header, printf. do 2 (apply emitted_emit; [done|]).
  apply emitted_refl.
Qed.

Lemma results_bench_sequential_scan db w :
  results (bench_sequential_scan env db w) = results w ++ ["Sequential scan"%string].
Proof.
  unfold bench_sequential_scan. rewrite results_print_result. f_equal.
  apply results_emitted. unfold print_header, printf.
  do 3 (apply emitted_emit; [done|]). apply emitted_refl.
Qed.

Lemma results_bench_random_updates db w :
  results (bench_random_updates cfg env db w) = results w ++ ["Random updates"%string].
Proof.
  unfold bench_random_updates.
  set (w0 := printf _ (print_header _ w)).
  assert (emitted quiet w w0) as H0.
  { unfold w0, print_header, printf. do 2 (apply emitted_emit; [done|]).
    apply emitted_refl. }
  pose proof (update_loop_emits cfg env quiet (Z.to_nat (NUM_UPDATES cfg)) [] w w0 H0) as H1.
  destruct (update_loop _ _ _ _ _) as [b1 w1]. cbn [snd] in H1.
  pose proof (DB_Write_emits env quiet ltac:(done) db b1 w w1 H1) as H2.
  destruct (DB_Write _ _ _ _ _) as [ok w2]. cbn [snd] in H2.
  rewrite results_print_result. f_equal. by apply results_emitted.
Qed.

Lemma results_bench_random_deletes db w :
  results (bench_random_deletes cfg env db w) = results w ++ ["Random deletes"%string].
Proof.
  unfold bench_random_deletes.
  set (w0 := printf _ (print_header _ w)).
  assert (emitted quiet w w0) as H0.
  { unfold w0, print_header, printf. do 2 (apply emitted_emit; [done|]).
    apply emitted_refl. }
  pose proof (delete_loop_emits cfg env quiet (Z.to_nat (NUM_DELETES cfg)) [] w w0 H0) as H1.
  destruct (delete_loop _ _ _ _ _) as [b1 w1]. cbn [snd] in H1.
  pose proof (DB_Write_emits env quiet ltac:(done) db b1 w w1 H1) as H2.
  destruct (DB_Write _ _ _ _ _) as [ok w2]. cbn [snd] in H2.
  rewrite results_print_result. f_equal. by apply results_emitted.
Qed.

Lemma results_bench_mixed_workload db w :
  results (bench_mixed_workload cfg env db w) = results w ++ ["Mixed workload"%string].
Proof.
  unfold bench_mixed_workload, mixed_workload.
  set (w0 := printf _ (print_header _ w)).
  assert (emitted quiet w w0) as H0.
  { unfold w0, print_header, printf. do 2 (apply emitted_emit; [done|]).
    apply emitted_refl. }
  pose proof (mixed_loop_emits cfg env quiet ltac:(done) ltac:(done)
                (Z.to_nat 20000) db [] w w0 H0) as H1.
  destruct (mixed_loop _ _ _ _ _ _ _) as [b1 w1]. cbn [snd] in H1.
  rewrite results_print_result. f_equal. apply results_emitted.
  destruct (0 <? _); [|done]. by apply DB_Write_emits.
Qed.

Lemma results_bench_bulk_insert w :
  results (bench_bulk_insert cfg env w) =
  results w ++ (if open_ok env BULK_DB_FILE then ["Bulk insert"%string] else []).
Proof.
  destruct (open_ok env BULK_DB_FILE) eqn:Hopen.
  - destruct (bench_bulk_insert_opened cfg env w Hopen)
      as (b & ok & r & el & Ht).
    unfold results. rewrite Ht. simpl. rewrite !omap_app. simpl.
    by rewrite !app_nil_r.
  - destruct (bench_bulk_insert_unopened cfg env w Hopen) as [_ Ht].
    unfold results. rewrite Ht. simpl. rewrite !omap_app. simpl.
    by rewrite !app_nil_r.
Qed.

Lemma results_main_internal_stats db w :
  results (main_internal_stats env db w).2 = results w.
Proof.
  unfold main_internal_stats. cbn [DB_GetProperty].
  repeat match goal with
         | |- context [match Stoull.stoull ?s with _ => _ end] =>
             destruct (Stoull.stoull s)
         end; cbn [snd]; unfold printf; rewrite ?results_emit; cbn [result_name option_list];
    by rewrite ?app_nil_r.
Qed.

(** How a run that returns got there. *)
Lemma main_returned_world fuel w c w' :
  main cfg env fuel w = Some (Returned c, w') ->
  (open_ok env DB_FILE = false /\ c = 1 /\
   w' = emit (EvStderr "Failed to open RocksDB: ")
          (emit (EvOpen DB_FILE false)
             (DestroyDB DB_FILE
                (configure_small_db_options
                   (printf (OText "Initializing database...")
                      (printf OBanner w)))))) \/
  (open_ok env DB_FILE = true /\ c = 0 /\
   exists w1 w2,
     bench_sequential_writes cfg env fuel DB_FILE (at_total_start env w) = Some w1 /\
     main_internal_stats env DB_FILE (after_workloads cfg env w1) = (None, w2) /\
     w' = (main_summary env (get_time env (at_total_start env w))
             (get_memory_usage env 0) (get_memory_usage env 4) (final_peak env)
             (bench_bulk_insert cfg env (DB_close DB_FILE w2))).2).
Proof.
  intros Hmain. destruct (open_ok env DB_FILE) eqn:Hopen.
  - right. split; [done|].
    destruct (bench_sequential_writes cfg env fuel DB_FILE (at_total_start env w))
      as [w1|] eqn:E1.
    + rewrite (main_run cfg env fuel w w1) in Hmain by done.
      destruct (main_internal_stats env DB_FILE (after_workloads cfg env w1))
        as [[e|] w2] eqn:E2.
      * apply main_internal_stats_exit in E2. by inversion Hmain; subst.
      * unfold main_summary in *. inversion Hmain; subst.
        split; [done|]. by exists w1, w2.
    + unfold main, DB_Open in Hmain. rewrite Hopen in Hmain. cbn [negb] in Hmain.
      unfold at_total_start in E1. by rewrite E1 in Hmain.
  - left. rewrite main_open_failure in Hmain by done.
    inversion Hmain; subst. done.
Qed.

End ResultLines.

Lemma main_internal_stats_disk env db w :
  disk (main_internal_stats env db w).2 = disk w.
Proof.
  unfold main_internal_stats. cbn [DB_GetProperty].
  repeat match goal with
         | |- context [match Stoull.stoull ?s with _ => _ end] =>
             destruct (Stoull.stoull s)
         end; done.
Qed.

Lemma after_workloads_disk_other cfg env path w1 :
  path <> DB_FILE ->
  disk (after_workloads cfg env w1) !! path = disk w1 !! path.
Proof.
  intros Hne. unfold after_workloads, bench_mixed_workload.
  cbn [printf emit disk].
  rewrite mixed_workload_disk_other, bench_exists_checks_disk,
    bench_random_deletes_disk_other, bench_random_updates_disk_other,
    bench_sequential_scan_disk, bench_random_reads_disk by done.
  done.
Qed.

Lemma bench_bulk_insert_disk cfg env w :
  disk (bench_bulk_insert cfg env w) =
  if open_ok env BULK_DB_FILE then delete BULK_DB_FILE (disk w) else disk w.
Proof.
  unfold bench_bulk_insert, DB_Open. destruct (open_ok env BULK_DB_FILE); [|done].
  cbn [negb]. unfold DB_Write.
  cbn [print_result printf DestroyDB DB_close configure_small_db_options
         print_header emit disk].
  destruct (write_ok env _); [|done]. apply delete_insert_eq.
Qed.

(** X14.  A run of [main] that returns 0 leaves the disk as it found it but
    for its own databases: nothing is left at the main path, nothing at
    the bulk path when the bulk engine opened, and every other database
    holds what it held before the run. *)
Theorem main_restores_disk cfg env fuel w w' :
  main cfg env fuel w = Some (Returned 0, w') ->
  disk w' =
    delete DB_FILE
      (if open_ok env BULK_DB_FILE then delete BULK_DB_FILE (disk w) else disk w).
Proof.
  intros Hmain.
  destruct (main_returned_world cfg env fuel w 0 w' Hmain)
    as [(_ & Hc & _) | (_ & _ & w1 & w2 & Hseq & Hstats & ->)]; [done|].
  assert (forall path, path <> DB_FILE -> disk w2 !! path = disk w !! path) as Hframe.
  { intros path Hne.
    change w2 with (@None Exit, w2).2. rewrite <- Hstats.
    rewrite main_internal_stats_disk, after_workloads_disk_other by done.
    rewrite (bench_sequential_writes_disk_other cfg env DB_FILE path Hne _ _ _ Hseq).
    unfold at_total_start.
    cbn [printf emit DestroyDB configure_small_db_options disk].
    by rewrite lookup_delete_ne. }
  cbn [main_summary snd printf emit DestroyDB disk].
  rewrite bench_bulk_insert_disk. cbn [DB_close emit disk].
  apply map_eq. intros path.
  destruct (decide (path = DB_FILE)) as [->|Hne];
    [by rewrite !lookup_delete_eq|].
  rewrite !lookup_delete_ne by done.
  destruct (open_ok env BULK_DB_FILE); [|by apply Hframe].
  destruct (decide (path = BULK_DB_FILE)) as [->|Hb];
    [by rewrite !lookup_delete_eq|].
  rewrite !lookup_delete_ne by done. by apply Hframe.
Qed.

(** X15.  A run of [main] that returns 0 has printed one result line per
    workload, in the order in which the workloads ran; the line of the
    bulk load is missing when its engine did not open. *)
Theorem main_reports_workloads_in_order cfg env fuel w w' :
  main cfg env fuel w = Some (Returned 0, w') ->
  results w' =
    results w ++
    [ "Sequential writes"; "Random reads"; "Sequential scan"; "Random updates";
      "Random deletes"; "Exists checks"; "Mixed workload" ]%string ++
    (if open_ok env BULK_DB_FILE then ["Bulk insert"%string] else []).
Proof.
  intros Hmain.
  destruct (main_returned_world cfg env fuel w 0 w' Hmain)
    as [(_ & Hc & _) | (_ & _ & w1 & w2 & H1 & H2 & ->)]; [done|].
  cbn [main_summary snd].
  rewrite results_DestroyDB, !results_printf. cbn [result_name option_list].
  rewrite !app_nil_r, results_bench_bulk_insert, results_DB_close.
  assert (results w2 = results (after_workloads cfg env w1)) as ->.
  { change w2 with (@None Exit, w2).2. rewrite <- H2.
    apply results_main_internal_stats. }
  unfold after_workloads. rewrite results_printf.
  cbn [result_name option_list]. rewrite app_nil_r.
  rewrite results_bench_mixed_workload, results_bench_exists_checks,
    results_bench_random_deletes, results_bench_random_updates,
    results_bench_sequential_scan, results_bench_random_reads.
  rewrite (results_bench_sequential_writes cfg env fuel DB_FILE _ w1 H1).
  unfold at_total_start, configure_small_db_options.
  rewrite results_printf, results_emit, results_DestroyDB, !results_printf.
  cbn [result_name option_list]. rewrite !app_nil_r.
  by rewrite <- !app_assoc.
Qed.

(** ** The scan and the memory figures within a run *)

Lemma sequential_load_size cfg env fuel db w :
  1 <= NUM_RECORDS cfg -> 1 <= BATCH_SIZE cfg ->
  (Z.to_nat (NUM_RECORDS cfg) < fuel)%nat ->
  (forall k, write_ok env k = true) ->
  store_of w db = ∅ ->
  exists w',
    bench_sequential_writes cfg env fuel db w = Some w' /\
    Z.of_nat (size (store_of w' db)) = NUM_RECORDS cfg.
Proof.
  intros HN HB Hfuel Hok Hempty. unfold bench_sequential_writes.
  set (w0 := printf _ (print_header _ w)).
  destruct (write_batches_spec cfg env fuel db
              (set_sync true WriteOptions_default) 0 w0)
    as (w1 & Hrun & _ & Hstore); [lia | lia | by rewrite Z.sub_0_r |].
  rewrite Hrun. rewrite Z.sub_0_r in Hstore. specialize (Hstore Hok).
  change (store_of w0 db) with (store_of w db) in Hstore.
  rewrite Hempty in Hstore. eexists. split; [done|].
  change (store_of (print_result _ _ _ w1) db) with (store_of w1 db).
  rewrite Hstore, <- size_dom, dom_apply_sequential_puts, dom_empty_L,
    (left_id_L ∅ (∪)), size_list_to_set by apply NoDup_keys.
  rewrite length_fmap, length_seqZ, Z2Nat.id by lia. done.
Qed.

Lemma at_total_start_empty env w : store_of (at_total_start env w) DB_FILE = ∅.
Proof.
  unfold at_total_start, store_of.
  cbn [printf emit DestroyDB configure_small_db_options disk].
  by rewrite lookup_delete_eq.
Qed.

(** X16.  In a run of [main] that returns 0 and whose commits all succeed, the
    sequential scan visits exactly NUM_RECORDS entries, whatever the main
    database held before the run: the run destroys it first, loads
    NUM_RECORDS distinct keys, and the random reads in between change
    nothing. *)
Theorem main_scan_visits_all_records cfg env fuel w w' :
  1 <= NUM_RECORDS cfg -> 1 <= BATCH_SIZE cfg ->
  (Z.to_nat (NUM_RECORDS cfg) < fuel)%nat ->
  (forall k, write_ok env k = true) ->
  main cfg env fuel w = Some (Returned 0, w') ->
  exists rate elapsed,
    EvStdout (OResult "Sequential scan" rate elapsed (NUM_RECORDS cfg)) ∈ trace w'.
Proof.
  intros HN HB Hfuel Hok Hmain.
  destruct (main_returned_world cfg env fuel w 0 w' Hmain)
    as [(_ & Hc & _) | (_ & _ & w1 & w2 & H1 & H2 & ->)]; [done|].
  destruct (sequential_load_size cfg env fuel DB_FILE (at_total_start env w))
    as (w1' & H1' & Hsize); [done.. | apply at_total_start_empty |].
  rewrite H1 in H1'. injection H1' as <-.
  set (wr := bench_random_reads cfg env DB_FILE w1).
  destruct (scan_trace env DB_FILE wr)
    as (rate & elapsed & Hscan).
  assert (store_of wr DB_FILE = store_of w1 DB_FILE) as Hsame.
  { unfold store_of, wr. by rewrite bench_random_reads_disk. }
  rewrite Hsame, Hsize in Hscan.
  exists rate, elapsed.
  set (ws := bench_sequential_scan env DB_FILE wr) in *.
  assert (emitted (fun _ => True) ws w2) as Hem.
  { change w2 with (@None Exit, w2).2. rewrite <- H2.
    eapply emitted_trans; [|by apply main_internal_stats_emits].
    unfold after_workloads. apply printf_emits; [done|].
    fold wr. fold ws.
    repeat (eapply emitted_trans;
            [| first [ by apply bench_mixed_workload_emits
                     | by apply bench_exists_checks_emits
                     | by apply bench_random_deletes_emits
                     | by apply bench_random_updates_emits ] ]).
    apply emitted_refl. }
  assert (emitted (fun _ => True) ws
            (bench_bulk_insert cfg env (DB_close DB_FILE w2))) as Hem2.
  { eapply emitted_trans; [|by apply bench_bulk_insert_emits].
    unfold DB_close. by apply emitted_emit. }
  cbn [main_summary snd printf DestroyDB emit trace].
  do 3 right. eapply emitted_elem; [exact Hem2|]. rewrite Hscan. by left.
Qed.

(** X17.  The memory figures of the summary of a run that returns 0: the
    initial figure is the sample taken before the open, the final one the
    sample taken after the mixed workload, the delta their difference, and
    the peak the largest of the four samples taken after the open, hence
    never below the final figure. *)
Theorem summary_memory_figures cfg env fuel w w' :
  main cfg env fuel w = Some (Returned 0, w') ->
  exists total i f p d,
    summary w' = Some (EvStdout (OSummary total i f p d)) /\
    mem_kb i = get_memory_usage env 0 /\
    mem_kb f = get_memory_usage env 4 /\
    mem_kb p = Z.max (Z.max (Z.max (get_memory_usage env 1) (get_memory_usage env 2))
                        (get_memory_usage env 3)) (get_memory_usage env 4) /\
    mem_kb d = get_memory_usage env 4 - get_memory_usage env 0 /\
    mem_kb f <= mem_kb p.
Proof.
  intros Hmain.
  destruct (main_returned_world cfg env fuel w 0 w' Hmain)
    as [(_ & Hc & _) | (_ & _ & w1 & w2 & H1 & H2 & ->)]; [done|].
  eexists _, _, _, _, _. split; [reflexivity|].
  rewrite !mem_kb_format_memory. unfold final_peak. rewrite !raise_peak_max.
  repeat split; lia.
Qed.

(** ** [format_number] reads back *)

Lemma append_cons c s r : String c s +:+ r = String c (s +:+ r).
Proof. reflexivity. Qed.

Lemma append_nil r : EmptyString +:+ r = r.
Proof. reflexivity. Qed.

Lemma append_empty_r s : s +:+ EmptyString = s.
Proof. induction s as [|c s IH]; [done|]. by rewrite append_cons, IH. Qed.

Ltac eval_digit :=
  match goal with
  | |- context [Stoull.digit_of ?c] =>
      let v := eval vm_compute in (Stoull.digit_of c) in
      change (Stoull.digit_of c) with v
  end.

Lemma read_digits_pos d rest acc :
  Stoull.read_digits (NilEmpty.string_of_uint d +:+ rest) (Some (Z.pos acc)) =
  Stoull.read_digits rest (Some (Z.pos (Pos.of_uint_acc d acc))).
Proof.
  revert acc. induction d; intros acc; [done | ..];
    cbn [NilEmpty.string_of_uint]; rewrite append_cons;
    cbn [Stoull.read_digits];
    eval_digit; cbn [default from_option id Pos.of_uint_acc];
    rewrite <- IHd; do 2 f_equal; lia.
Qed.

Lemma read_digits_zero d rest :
  Stoull.read_digits (NilEmpty.string_of_uint d +:+ rest) (Some 0) =
  Stoull.read_digits rest (Some (Z.of_N (Pos.of_uint d))).
Proof.
  induction d; [done | ..];
    cbn [NilEmpty.string_of_uint]; rewrite append_cons;
    cbn [Stoull.read_digits Pos.of_uint];
    eval_digit; cbn [default from_option id];
    first [ exact IHd | apply (read_digits_pos d rest) ].
Qed.

Lemma read_digits_none d rest :
  d <> Decimal.Nil ->
  Stoull.read_digits (NilEmpty.string_of_uint d +:+ rest) None =
  Stoull.read_digits (NilEmpty.string_of_uint d +:+ rest) (Some 0).
Proof. by destruct d. Qed.

(** Reading back the digits printed for [n]. *)
Lemma read_digits_digits n rest :
  Stoull.read_digits (Fmt.digits n +:+ rest) None =
  Stoull.read_digits rest (Some (Z.of_N n)).
Proof.
  unfold Fmt.digits. rewrite read_digits_none, read_digits_zero.
  - change (Pos.of_uint (N.to_uint n)) with (N.of_uint (N.to_uint n)).
    by rewrite DecimalN.Unsigned.of_to.
  - destruct n; [done|]. apply DecimalPos.Unsigned.to_uint_nonnil.
Qed.

Lemma read_digits_all_digits s rest a :
  all_digits s = true ->
  Stoull.read_digits (s +:+ rest) (Some a) =
  Stoull.read_digits rest (Some (digits_from s a)).
Proof.
  revert a. induction s as [|c s IH]; intros a Hs; [done|].
  cbn [all_digits] in Hs. apply andb_prop in Hs as [Hc Hs].
  apply bool_decide_eq_true_1 in Hc as [v Hc].
  rewrite append_cons. cbn [Stoull.read_digits digits_from]. rewrite Hc.
  cbn [default from_option id]. by apply IH.
Qed.

Lemma digits_from_shift s a :
  digits_from s a = a * 10 ^ Z.of_nat (String.length s) + digits_from s 0.
Proof.
  revert a. induction s as [|c s IH]; intros a.
  - simpl. lia.
  - cbn [digits_from String.length]. rewrite IH, (IH (10 * 0 + _)).
    rewrite Nat2Z.inj_succ, Z.pow_succ_r by lia. lia.
Qed.

Lemma three_digits_below_1000 : forallb three_digits (seqZ 0 1000) = true.
Proof. vm_compute. reflexivity. Qed.

Lemma read_three_digits r rest a :
  0 <= r < 1000 ->
  Stoull.read_digits (Fmt.d 3 r +:+ rest) (Some a) =
  Stoull.read_digits rest (Some (a * 1000 + r)).
Proof.
  intros Hr. pose proof three_digits_below_1000 as H.
  rewrite forallb_forall in H. specialize (H r).
  assert (In r (seqZ 0 1000)) as Hin
    by (apply list_elem_of_In, elem_of_seqZ; lia).
  apply H in Hin. unfold three_digits in Hin.
  apply andb_prop in Hin as [Hin Hv]. apply andb_prop in Hin as [Hd Hl].
  apply Nat.eqb_eq in Hl. apply Z.eqb_eq in Hv.
  rewrite read_digits_all_digits by done.
  rewrite digits_from_shift, Hl, Hv. done.
Qed.

Lemma strip_commas_app a b :
  strip_commas (a +:+ b) = strip_commas a +:+ strip_commas b.
Proof.
  induction a as [|c a IH]; [done|].
  rewrite append_cons. cbn [strip_commas]. destruct (Ascii.eqb c ","); [done|].
  by rewrite append_cons, IH.
Qed.

Lemma strip_commas_uint d :
  strip_commas (NilEmpty.string_of_uint d) = NilEmpty.string_of_uint d.
Proof.
  induction d; [done | ..];
    cbn [NilEmpty.string_of_uint strip_commas]; rewrite IHd; reflexivity.
Qed.

Lemma strip_commas_zeros k : strip_commas (Fmt.zeros k) = Fmt.zeros k.
Proof. induction k as [|k IH]; [done|]. cbn [Fmt.zeros strip_commas]. by rewrite IH. Qed.

Lemma strip_commas_d width z :
  0 <= z -> strip_commas (Fmt.d width z) = Fmt.d width z.
Proof.
  intros Hz. unfold Fmt.d. destruct (z <? 0) eqn:E; [lia|].
  unfold Fmt.zero_pad, Fmt.digits.
  by rewrite strip_commas_app, strip_commas_zeros, strip_commas_uint.
Qed.

Lemma d0_digits z : 0 <= z -> Fmt.d 0 z = Fmt.digits (Z.to_N z).
Proof. intros Hz. unfold Fmt.d. by destruct (z <? 0) eqn:E; [lia|]. Qed.

Lemma digits_first_char n :
  exists c s,
    Fmt.digits n = String c s /\ Stoull.is_space c = false /\
    c <> "-"%char /\ c <> "+"%char.
Proof.
  unfold Fmt.digits.
  assert (N.to_uint n <> Decimal.Nil) as Hn
    by (destruct n; [done | apply DecimalPos.Unsigned.to_uint_nonnil]).
  destruct (N.to_uint n); [done | ..];
    eexists _, _; (split; [reflexivity|]); by repeat split.
Qed.

(** [std::stoull] applied to a string that starts with the digits printed
    for [n], followed by something that is not a digit. *)
Lemma stoull_digits n rest :
  Z.of_N n < 2 ^ 64 ->
  Stoull.read_digits rest (Some (Z.of_N n)) = Some (Z.of_N n) ->
  Stoull.stoull (Fmt.digits n +:+ rest) = Some (Z.of_N n).
Proof.
  intros Hn Hrest. unfold Stoull.stoull.
  destruct (digits_first_char n) as (c & s & Heq & Hsp & Hm & Hp).
  pose proof (read_digits_digits n rest) as Hread. rewrite Heq in *.
  rewrite append_cons. cbn [Stoull.skip_space]. rewrite Hsp.
  assert ((match String c (s +:+ rest) with
           | String "-"%char s' => (true, s')
           | String "+"%char s' => (false, s')
           | _ => (false, String c (s +:+ rest))
           end) = (false, String c (s +:+ rest))) as ->.
  { destruct c as [[] [] [] [] [] [] [] []]; try done. }
  rewrite append_cons in Hread. rewrite Hread, Hrest.
  destruct (Z.ltb_spec (Z.of_N n) (2 ^ 64)); [done | lia].
Qed.

(** X1.  The figure [format_number] prints reads back, separators removed, as
    the number it was given: no digit is lost or added by the grouping,
    also above 999,999,999 where the first group is longer than three
    digits. *)
Theorem format_number_round_trip num :
  0 <= num < 2 ^ 64 ->
  Stoull.stoull (strip_commas (format_number num)) = Some num.
Proof.
  intros Hnum. unfold format_number.
  assert (forall q rest, 0 <= q ->
            Stoull.read_digits rest (Some q) = Some num ->
            Stoull.stoull (Fmt.d 0 q +:+ rest) = Some num) as Hlead.
  { intros q rest Hq Hrest. rewrite d0_digits by done.
    unfold Stoull.stoull.
    destruct (digits_first_char (Z.to_N q)) as (c & s & Heq & Hsp & Hm & Hp).
    pose proof (read_digits_digits (Z.to_N q) rest) as Hread. rewrite Heq in *.
    rewrite append_cons. cbn [Stoull.skip_space]. rewrite Hsp.
    assert ((match String c (s +:+ rest) with
             | String "-"%char s' => (true, s')
             | String "+"%char s' => (false, s')
             | _ => (false, String c (s +:+ rest))
             end) = (false, String c (s +:+ rest))) as ->.
    { destruct c as [[] [] [] [] [] [] [] []]; try done. }
    rewrite append_cons in Hread. rewrite Hread, Z2N.id, Hrest by done.
    destruct (Z.ltb_spec num (2 ^ 64)); [done | lia]. }
  destruct (Z.leb_spec 1000000 num).
  - rewrite !strip_commas_app.
    change (strip_commas ",") with EmptyString. rewrite !append_nil.
    rewrite !strip_commas_d
      by (try apply Z.quot_pos; try apply Z.rem_nonneg; try apply Z.quot_pos; lia).
    rewrite Z.quot_div_nonneg, !Z.rem_mod_nonneg
      by (try apply Z.quot_pos; lia).
    rewrite (Z.quot_div_nonneg num 1000) by lia.
    apply Hlead; [apply Z.div_pos; lia|].
    rewrite read_three_digits by (apply Z.mod_pos_bound; lia).
    rewrite <- (append_empty_r (Fmt.d 3 (num mod 1000))) at 1.
    rewrite read_three_digits by (apply Z.mod_pos_bound; lia).
    cbn [Stoull.read_digits]. f_equal.
    pose proof (Z.div_mod num 1000 ltac:(lia)).
    pose proof (Z.div_mod (num / 1000) 1000 ltac:(lia)).
    replace (num / 1000000) with (num / 1000 / 1000)
      by (rewrite Z.div_div by lia; done).
    lia.
  - destruct (Z.leb_spec 1000 num).
    + rewrite !strip_commas_app.
      change (strip_commas ",") with EmptyString. rewrite !append_nil.
      rewrite !strip_commas_d
        by (try apply Z.quot_pos; try apply Z.rem_nonneg; lia).
      rewrite Z.quot_div_nonneg, Z.rem_mod_nonneg by lia.
      apply Hlead; [apply Z.div_pos; lia|].
      rewrite <- (append_empty_r (Fmt.d 3 (num mod 1000))) at 1.
      rewrite read_three_digits by (apply Z.mod_pos_bound; lia).
      cbn [Stoull.read_digits]. f_equal.
      pose proof (Z.div_mod num 1000 ltac:(lia)). lia.
    + rewrite strip_commas_d by lia.
      rewrite <- (append_empty_r (Fmt.d 0 num)).
      by apply Hlead; [lia|].
Qed.

(** ** Internal statistics, and [get_memory_usage] on the status file *)

(** X18.  The internal memory figures are the engine's answers converted to
    kilobytes by integer division, and their total is taken modulo 2^64. *)
Theorem internal_stats_report env db w a b c :
  0 <= a < 2 ^ 64 -> 0 <= b < 2 ^ 64 -> 0 <= c < 2 ^ 64 ->
  property env PROP_TABLE_READERS = Some (Fmt.d 0 a) ->
  property env PROP_MEMTABLES = Some (Fmt.d 0 b) ->
  property env PROP_BLOCK_CACHE = Some (Fmt.d 0 c) ->
  exists w',
    main_internal_stats env db w = (None, w') /\
    head (trace w') =
      Some (EvStdout
              (OInternal (format_memory (c / 1024)) (format_memory (b / 1024))
                 (format_memory (a / 1024))
                 (format_memory ((c + b + a) mod 2 ^ 64 / 1024)))).
Proof.
  intros Ha Hb Hc Pa Pb Pc.
  assert (forall v, 0 <= v < 2 ^ 64 -> Stoull.stoull (Fmt.d 0 v) = Some v) as Hparse.
  { intros v Hv. rewrite d0_digits by lia.
    rewrite <- (append_empty_r (Fmt.digits (Z.to_N v))).
    rewrite stoull_digits; rewrite ?Z2N.id by lia; [done | lia | done]. }
  unfold main_internal_stats, DB_GetProperty.
  fold PROP_TABLE_READERS PROP_MEMTABLES PROP_BLOCK_CACHE.
  rewrite Pa, Pb, Pc. cbn [default from_option id].
  rewrite !Hparse by done. by eexists.
Qed.

Lemma append_assoc a b c : (a +:+ b) +:+ c = a +:+ (b +:+ c).
Proof. induction a as [|x a IH]; [done|]. by rewrite !append_cons, IH. Qed.

Section ProcStatusFacts.

Import ProcStatus.

Lemma fgets_chars_line n l rest :
  (String.length l < n)%nat ->
  has_char newline l = false ->
  fgets_chars n (l +:+ String newline rest) = (l +:+ String newline EmptyString, rest).
Proof.
  revert n. induction l as [|c l IH]; intros n Hlen Hnl.
  - destruct n; [simpl in Hlen; lia|]. rewrite !append_nil. cbn [fgets_chars].
    by rewrite Ascii.eqb_refl.
  - destruct n; [simpl in Hlen; lia|]. rewrite !append_cons. cbn [fgets_chars].
    cbn [has_char] in Hnl. apply orb_false_elim in Hnl as [Hc Hnl].
    rewrite Hc, IH; [done | simpl in Hlen; lia | done].
Qed.

Lemma short_line_spec l :
  short_line l = true ->
  (String.length l < 127)%nat /\ has_char newline l = false.
Proof.
  unfold short_line. intros H. apply andb_prop in H as [H1 H2].
  apply Nat.ltb_lt in H1. by apply negb_true_iff in H2.
Qed.

Lemma fgets_line l rest :
  short_line l = true ->
  fgets 128 (l +:+ String newline rest) = Some (l +:+ String newline EmptyString, rest).
Proof.
  intros H. apply short_line_spec in H as [Hlen Hnl]. unfold fgets.
  rewrite <- (fgets_chars_line 127 l rest) by done.
  by destruct l.
Qed.

Lemma prefix_app_newline p l :
  has_char newline p = false ->
  starts_with p (l +:+ String newline EmptyString) = starts_with p l.
Proof.
  revert l. induction p as [|a p IH]; intros l Hp; [by destruct l|].
  cbn [has_char] in Hp. apply orb_false_elim in Hp as [Ha Hp].
  destruct l as [|b l].
  - rewrite append_nil. cbn [starts_with]. by rewrite Ha.
  - rewrite append_cons. cbn [starts_with]. by rewrite IH.
Qed.

Lemma length_unlines ls : (length ls <= String.length (unlines ls))%nat.
Proof.
  induction ls as [|l ls IH]; [done|]. cbn [unlines length].
  assert (forall a b, String.length (a +:+ b) = (String.length a + String.length b)%nat) as Happ.
  { intros a b. induction a as [|c a IHa]; [done|].
    rewrite append_cons. simpl. by rewrite IHa. }
  rewrite Happ. simpl. lia.
Qed.

Lemma skip_space_blanks pad s :
  blanks pad = true -> Stoull.skip_space (pad +:+ s) = Stoull.skip_space s.
Proof.
  induction pad as [|c pad IH]; intros Hb; [done|].
  cbn [blanks] in Hb. apply andb_prop in Hb as [Hc Hb].
  rewrite append_cons. cbn [Stoull.skip_space]. rewrite Hc. by apply IH.
Qed.

(** Lines that do not start with "VmRSS:" are passed over. *)
Lemma scan_lines_skip before fuel rest rss :
  Forall (fun l => short_line l = true) before ->
  Forall (fun l => ProcStatus.starts_with "VmRSS:" l = false) before ->
  scan_lines (length before + fuel) (unlines before +:+ rest) rss =
  scan_lines fuel rest rss.
Proof.
  intros Hshort. revert fuel. induction Hshort as [|l ls Hl _ IH]; intros fuel Hpre.
  - by rewrite append_nil.
  - apply Forall_cons in Hpre as [Hp Hpre].
    cbn [unlines length Nat.add scan_lines].
    rewrite append_assoc, append_cons.
    rewrite fgets_line by done.
    rewrite prefix_app_newline by reflexivity.
    rewrite Hp. by apply IH.
Qed.

End ProcStatusFacts.

Lemma fgets_chars_split n s :
  s = (ProcStatus.fgets_chars n s).1 +:+ (ProcStatus.fgets_chars n s).2.
Proof.
  revert s. induction n as [|n IH]; intros [|c s]; try done.
  cbn [ProcStatus.fgets_chars]. destruct (Ascii.eqb c ProcStatus.newline); [done|].
  specialize (IH s). destruct (ProcStatus.fgets_chars n s) as [l r].
  cbn [fst snd] in *. by rewrite append_cons, <- IH.
Qed.

Lemma starts_with_app p l r :
  ProcStatus.starts_with p l = true -> ProcStatus.starts_with p (l +:+ r) = true.
Proof.
  revert l. induction p as [|a p IH]; intros [|b l] H; try done.
  rewrite append_cons. cbn [ProcStatus.starts_with] in *.
  apply andb_true_iff in H as [-> H]. by rewrite IH.
Qed.

Lemma occurs_head p s : occurs p s = false -> ProcStatus.starts_with p s = false.
Proof. destruct s; cbn [occurs]; intros H; by apply orb_false_iff in H as [? _]. Qed.

Lemma occurs_app p l r :
  occurs p (l +:+ r) = false ->
  ProcStatus.starts_with p l = false /\ occurs p r = false.
Proof.
  induction l as [|c l IH]; intros H.
  - rewrite append_nil in H. split; [|done].
    destruct p; [|done]. by destruct r.
  - split.
    + apply occurs_head in H.
      destruct (ProcStatus.starts_with p (String c l)) eqn:E; [|done].
      by rewrite (starts_with_app _ _ r E) in H.
    + rewrite append_cons in H. cbn [occurs] in H.
      apply orb_false_iff in H as [_ H]. by apply IH.
Qed.

Lemma scan_lines_absent fuel file rss :
  occurs "VmRSS:" file = false -> ProcStatus.scan_lines fuel file rss = rss.
Proof.
  revert file. induction fuel as [|fuel IH]; intros file H; [done|].
  cbn [ProcStatus.scan_lines]. unfold ProcStatus.fgets.
  destruct file as [|c file]; [done|].
  pose proof (fgets_chars_split (128 - 1) (String c file)) as Hs.
  destruct (ProcStatus.fgets_chars (128 - 1) (String c file)) as [line rest].
  cbn [fst snd] in Hs. rewrite Hs in H. apply occurs_app in H as [-> H].
  by apply IH.
Qed.

(** X3.  [get_memory_usage] returns 0 when the status file cannot be
    opened, when the text "VmRSS:" occurs nowhere in it, and when every
    line is short enough for the buffer and none starts with "VmRSS:". *)
Theorem get_memory_usage_unavailable :
  ProcStatus.get_memory_usage None = 0 /\
  (forall file,
     occurs "VmRSS:" file = false ->
     ProcStatus.get_memory_usage (Some file) = 0) /\
  (forall lines,
     Forall (fun l => ProcStatus.short_line l = true) lines ->
     Forall (fun l => ProcStatus.starts_with "VmRSS:" l = false) lines ->
     ProcStatus.get_memory_usage (Some (ProcStatus.unlines lines)) = 0).
Proof.
  split; [done|]. split.
  - intros file H. unfold ProcStatus.get_memory_usage. by apply scan_lines_absent.
  - intros lines Hshort Hpre. unfold ProcStatus.get_memory_usage.
    pose proof (length_unlines lines) as Hlen.
    replace (S (String.length (ProcStatus.unlines lines)))
      with (length lines + (S (String.length (ProcStatus.unlines lines)) - length lines))%nat
      by lia.
    rewrite <- (append_empty_r (ProcStatus.unlines lines)).
    rewrite scan_lines_skip by done.
    by destruct (_ - _)%nat.
Qed.

(** X2.  [get_memory_usage] returns the figure of the first line that starts
    with "VmRSS:", whatever lines come before and after it. *)
Theorem get_memory_usage_reads_vmrss before pad n after :
  Forall (fun l => ProcStatus.short_line l = true) before ->
  Forall (fun l => ProcStatus.starts_with "VmRSS:" l = false) before ->
  ProcStatus.blanks pad = true ->
  ProcStatus.short_line ("VmRSS:" +:+ pad +:+ Fmt.d 0 n +:+ " kB") = true ->
  0 <= n <= ProcStatus.LONG_MAX ->
  ProcStatus.get_memory_usage
    (Some (ProcStatus.unlines
             (before ++ ("VmRSS:" +:+ pad +:+ Fmt.d 0 n +:+ " kB") :: after))) = n.
Proof.
  intros Hshort Hpre Hpad Hline Hn. unfold ProcStatus.get_memory_usage.
  set (vm := ("VmRSS:" +:+ pad +:+ Fmt.d 0 n +:+ " kB")%string) in *.
  assert (ProcStatus.unlines (before ++ vm :: after) =
          ProcStatus.unlines before +:+ ProcStatus.unlines (vm :: after)) as Hsplit.
  { clear. induction before as [|l ls IH]; [done|].
    cbn [app ProcStatus.unlines]. by rewrite IH, append_assoc, append_cons. }
  rewrite Hsplit.
  pose proof (length_unlines (before ++ vm :: after)) as Hlen.
  rewrite Hsplit, length_app in Hlen. cbn [length] in Hlen.
  match goal with
  | |- ProcStatus.scan_lines (S ?len) _ _ = _ =>
      replace (S len) with (length before + S (len - length before))%nat by lia
  end.
  rewrite scan_lines_skip by done.
  cbn [ProcStatus.scan_lines ProcStatus.unlines].
  rewrite fgets_line by done.
  assert (ProcStatus.starts_with "VmRSS:" (vm +:+ String ProcStatus.newline EmptyString) = true)
    as -> by (unfold vm; rewrite !append_cons; reflexivity).
  assert (ProcStatus.advance 6 (vm +:+ String ProcStatus.newline EmptyString) =
          pad +:+ (Fmt.digits (Z.to_N n) +:+ " kB" +:+ String ProcStatus.newline EmptyString))
    as ->.
  { unfold vm. rewrite d0_digits by lia. rewrite !append_cons, append_nil.
    cbn [ProcStatus.advance]. by rewrite !append_assoc. }
  unfold ProcStatus.sscanf_ld. rewrite skip_space_blanks by done.
  destruct (digits_first_char (Z.to_N n)) as (c & s & Heq & Hsp & Hm & Hp).
  pose proof (read_digits_digits (Z.to_N n)
                (" kB" +:+ String ProcStatus.newline EmptyString)) as Hread.
  rewrite Heq in *. rewrite append_cons in *. cbn [Stoull.skip_space]. rewrite Hsp.
  assert ((match String c (s +:+ " kB" +:+ String ProcStatus.newline EmptyString) with
           | String "-"%char s' => (true, s')
           | String "+"%char s' => (false, s')
           | _ => (false, String c (s +:+ " kB" +:+ String ProcStatus.newline EmptyString))
           end) = (false, String c (s +:+ " kB" +:+ String ProcStatus.newline EmptyString)))
    as ->.
  { destruct c as [[] [] [] [] [] [] [] []]; try done. }
  rewrite Hread. rewrite Z2N.id by lia.
  change (Stoull.read_digits (" kB" +:+ String ProcStatus.newline EmptyString) (Some n))
    with (Some n).
  unfold ProcStatus.LONG_MAX, ProcStatus.LONG_MIN in *. lia.
Qed.

(** ** The discipline of database handles *)

Lemma handles_uses db w w' opened :
  emitted (uses db) w w' ->
  handles (trace w) = Some opened -> db ∈ opened ->
  handles (trace w') = Some opened.
Proof.
  intros (evs & -> & F) Hw Hdb.
  induction F as [|e evs He F IH]; [done|].
  cbn [app handles]. rewrite IH. cbn [mbind option_bind].
  destruct e; cbn [uses] in He; try done; subst; cbn [handle_step];
    by rewrite decide_True.
Qed.

Section OnHandle.

Variable cfg : Config.
Variable env : Env.
Variable db : string.
Variable Q : Event -> Prop.

Hypothesis Q_get : forall key, Q (EvGet db key).
Hypothesis Q_write : forall opts batch ok, Q (EvWrite db opts batch ok).

Lemma DB_Write_on opts batch w0 w :
  emitted Q w0 w -> emitted Q w0 (DB_Write env db opts batch w).2.
Proof.
  intros (evs & H & F). eexists (_ :: evs). split.
  - simpl. by rewrite H.
  - by constructor.
Qed.

Lemma read_loop_on k w0 w :
  emitted Q w0 w -> emitted Q w0 (read_loop cfg env k db w).
Proof.
  revert w. induction k as [|k IH]; intros w H; [done|].
  cbn [read_loop]. apply IH. unfold read_random_key. cbn [rand DB_Get].
  apply emitted_emit; [done|].
  eapply emitted_trans; [exact H|]. by apply emitted_same_trace.
Qed.

Lemma write_batches_on fuel opts i w0 w w' :
  write_batches cfg env fuel db opts i w = Some w' ->
  emitted Q w0 w -> emitted Q w0 w'.
Proof.
  revert i w. induction fuel as [|fuel IH]; intros i w Hrun H; [done|].
  cbn [write_batches] in Hrun.
  destruct (i <? NUM_RECORDS cfg); [|by inversion Hrun; subst].
  destruct (fill_batch _ _ _ _) as [i' batch].
  destruct (DB_Write _ _ _ _ _) as [ok w1] eqn:E.
  eapply IH; [exact Hrun|].
  change w1 with (ok, w1).2. rewrite <- E. by apply DB_Write_on.
Qed.

Lemma mixed_step_on opts batch w0 w :
  emitted Q w0 w -> emitted Q w0 (mixed_step cfg env db opts batch w).2.
Proof.
  intros H. unfold mixed_step. cbn [rand].
  repeat (match goal with
          | |- context [if ?b then _ else _] => destruct b
          end; cbn [DB_Get snd fst]);
    repeat first [ apply DB_Write_on | apply emitted_emit; [done|] ];
    (eapply emitted_trans; [exact H|]; by apply emitted_same_trace).
Qed.

Lemma mixed_loop_on k opts batch w0 w :
  emitted Q w0 w -> emitted Q w0 (mixed_loop cfg env k db opts batch w).2.
Proof.
  revert batch w. induction k as [|k IH]; intros batch w H; [done|].
  cbn [mixed_loop].
  destruct (mixed_step cfg env db opts batch w) as [b1 w1] eqn:E.
  apply IH. change w1 with (b1, w1).2. rewrite <- E. by apply mixed_step_on.
Qed.

End OnHandle.

Section HandleUse.

Variable cfg : Config.
Variable env : Env.
Variable db : string.

Local Abbreviation held := (uses db).

Ltac take_pair :=
  match goal with
  | |- context [let '(_, _) := ?X in _] =>
      let r := fresh "r" in
      let w := fresh "w" in
      let E := fresh "E" in
      destruct X as [r w] eqn:E;
      let H := fresh "H" in
      assert (H : w = X.2) by (rewrite E; reflexivity);
      rewrite H; clear H E
  end.

Ltac prints :=
  unfold print_header;
  repeat first [ apply print_result_emits; [done|]
               | apply printf_emits; [done|] ].

Lemma bench_sequential_writes_uses fuel w w' :
  bench_sequential_writes cfg env fuel db w = Some w' -> emitted held w w'.
Proof.
  unfold bench_sequential_writes. intros Hrun.
  destruct (write_batches _ _ _ _ _ _ _) as [w1|] eqn:E; [|done].
  inversion Hrun; subst. prints.
  eapply write_batches_on; [done|exact E|]. prints. apply emitted_refl.
Qed.

Lemma bench_random_reads_uses w : emitted held w (bench_random_reads cfg env db w).
Proof.
  unfold bench_random_reads. prints. apply read_loop_on; [done|]. prints.
  apply emitted_refl.
Qed.

Lemma bench_exists_checks_uses w : emitted held w (bench_exists_checks cfg env db w).
Proof.
  unfold bench_exists_checks. prints. apply read_loop_on; [done|]. prints.
  apply emitted_refl.
Qed.

Lemma bench_sequential_scan_uses w : emitted held w (bench_sequential_scan env db w).
Proof.
  unfold bench_sequential_scan. prints. apply emitted_emit; [done|]. prints.
  apply emitted_refl.
Qed.

Lemma bench_random_updates_uses w : emitted held w (bench_random_updates cfg env db w).
Proof.
  unfold bench_random_updates. take_pair. take_pair. prints.
  apply DB_Write_on; [done|]. apply update_loop_emits. prints. apply emitted_refl.
Qed.

Lemma bench_random_deletes_uses w : emitted held w (bench_random_deletes cfg env db w).
Proof.
  unfold bench_random_deletes. take_pair. take_pair. prints.
  apply DB_Write_on; [done|]. apply delete_loop_emits. prints. apply emitted_refl.
Qed.

Lemma mixed_workload_uses total_ops w :
  emitted held w (mixed_workload cfg env total_ops db w).
Proof.
  unfold mixed_workload. take_pair. prints.
  match goal with |- context [if ?b then _ else _] => destruct b end;
    [apply DB_Write_on; [done|]|]; (apply mixed_loop_on; [done|done|]);
    prints; apply emitted_refl.
Qed.

Lemma main_internal_stats_uses w :
  emitted held w (main_internal_stats env db w).2.
Proof.
  unfold main_internal_stats. cbn [DB_GetProperty].
  repeat match goal with
         | |- context [match Stoull.stoull ?s with _ => _ end] =>
             destruct (Stoull.stoull s)
         end; cbn [snd];
    repeat first [ apply printf_emits; [done|]
                 | apply emitted_emit; [done|] ];
    apply emitted_refl.
Qed.

End HandleUse.

Lemma after_workloads_uses cfg env w1 :
  emitted (uses DB_FILE) w1 (after_workloads cfg env w1).
Proof.
  unfold after_workloads. apply printf_emits; [done|].
  repeat (eapply emitted_trans;
          [| first [ apply mixed_workload_uses
                   | apply bench_exists_checks_uses
                   | apply bench_random_deletes_uses
                   | apply bench_random_updates_uses
                   | apply bench_sequential_scan_uses
                   | apply bench_random_reads_uses ] ]).
  apply emitted_refl.
Qed.

Lemma handles_at_open w opened ok :
  handles (trace w) = Some opened -> DB_FILE ∉ opened ->
  handles (trace (emit (EvOpen DB_FILE ok)
                    (DestroyDB DB_FILE
                       (configure_small_db_options
                          (printf (OText "Initializing database...")
                             (printf OBanner w))))))
  = Some (if ok then {[DB_FILE]} ∪ opened else opened).
Proof.
  intros Hw Hdb.
  cbn [emit DestroyDB configure_small_db_options printf trace handles].
  rewrite Hw. cbn [mbind option_bind handle_step].
  rewrite decide_False by done. cbn [mbind option_bind handle_step].
  by rewrite decide_False.
Qed.

Lemma handles_bulk cfg env w opened :
  handles (trace w) = Some opened -> BULK_DB_FILE ∉ opened ->
  handles (trace (bench_bulk_insert cfg env w)) = Some opened.
Proof.
  intros Hw Hdb. destruct (open_ok env BULK_DB_FILE) eqn:Hopen.
  - destruct (bench_bulk_insert_opened cfg env w Hopen)
      as (batch & ok & rate & elapsed & ->).
    cbn [handles]. rewrite Hw. cbn [mbind option_bind handle_step].
    rewrite decide_False by done. cbn [mbind option_bind handle_step].
    rewrite decide_True by set_solver. cbn [mbind option_bind handle_step].
    rewrite decide_True by set_solver. cbn [mbind option_bind handle_step].
    rewrite decide_False by set_solver. cbn [mbind option_bind handle_step].
    f_equal. set_solver.
  - destruct (bench_bulk_insert_unopened cfg env w Hopen) as [_ ->].
    cbn [handles]. rewrite Hw. cbn [mbind option_bind handle_step].
    by rewrite decide_False.
Qed.

(** X19.  A run of [main] keeps to the discipline of the engine: it calls the
    engine only on a database it holds open, opens no database twice and
    destroys none that is open.  A run that returns, with either status,
    has closed every database it opened; a run ended by the exception of
    [std::stoull] leaves the main database open. *)
Theorem main_handle_discipline cfg env fuel w opened e w' :
  handles (trace w) = Some opened ->
  DB_FILE ∉ opened -> BULK_DB_FILE ∉ opened ->
  main cfg env fuel w = Some (e, w') ->
  handles (trace w') =
    Some (match e with
          | Returned _ => opened
          | Uncaught _ => {[DB_FILE]} ∪ opened
          end).
Proof.
  intros Hw Hdb Hbulk Hmain.
  destruct (open_ok env DB_FILE) eqn:Hopen.
  - assert (exists w1, bench_sequential_writes cfg env fuel DB_FILE
                         (at_total_start env w) = Some w1) as [w1 Hseq].
    { destruct (bench_sequential_writes cfg env fuel DB_FILE (at_total_start env w))
        as [w1|] eqn:Hseq; [by eexists|].
      exfalso. revert Hmain. unfold main, DB_Open. rewrite Hopen. cbn [negb].
      unfold at_total_start in Hseq. by rewrite Hseq. }
    rewrite (main_run cfg env fuel w w1 Hopen Hseq) in Hmain.
    assert (handles (trace (at_total_start env w)) = Some ({[DB_FILE]} ∪ opened))
      as H0.
    { unfold at_total_start. cbn [printf emit trace handles].
      pose proof (handles_at_open w opened true Hw Hdb) as H.
      cbn [emit trace handles] in H. by rewrite H. }
    assert (handles (trace (main_internal_stats env DB_FILE
                              (after_workloads cfg env w1)).2)
            = Some ({[DB_FILE]} ∪ opened)) as H2.
    { apply (handles_uses DB_FILE (at_total_start env w)); [|exact H0|set_solver].
      eapply emitted_trans;
        [exact (bench_sequential_writes_uses cfg env DB_FILE fuel _ _ Hseq)|].
      eapply emitted_trans; [apply after_workloads_uses|].
      apply main_internal_stats_uses. }
    destruct (main_internal_stats env DB_FILE (after_workloads cfg env w1))
      as [[x|] w2] eqn:Hstats; cbn [snd] in H2.
    + inversion Hmain; subst.
      by rewrite (main_internal_stats_exit _ _ _ _ _ Hstats).
    + inversion Hmain; subst.
      cbn [main_summary printf emit DestroyDB trace handles].
      rewrite (handles_bulk cfg env (DB_close DB_FILE w2) opened); [| |done].
      * cbn [mbind option_bind handle_step]. by rewrite decide_False.
      * cbn [DB_close emit trace handles]. rewrite H2.
        cbn [mbind option_bind handle_step].
        rewrite decide_True by set_solver. f_equal. set_solver.
  - rewrite (main_open_failure cfg env fuel w Hopen) in Hmain.
    inversion Hmain; subst. cbn [emit trace handles].
    pose proof (handles_at_open w opened false Hw Hdb) as H.
    cbn [emit trace handles] in H. by rewrite H.
Qed.

(** ** What each workload does, in order *)

Lemma framed_run_intro db test elapsed ops header text w w1 :
  emitted (engine_call db) (printf (OText text) (print_header header w)) w1 ->
  framed_run db test ops w (print_result test elapsed ops w1).
Proof.
  intros (evs & Ht & F). exists header, text. eexists _, elapsed, evs.
  split; [|done].
  unfold print_result, printf, emit. cbn [trace]. by rewrite Ht.
Qed.

Section Framed.

Variable cfg : Config.
Variable env : Env.
Variable db : string.

Lemma bench_sequential_writes_framed fuel w w' :
  bench_sequential_writes cfg env fuel db w = Some w' ->
  framed_run db "Sequential writes" (NUM_RECORDS cfg) w w'.
Proof.
  unfold bench_sequential_writes. intros Hrun.
  destruct (write_batches _ _ _ _ _ _ _) as [w1|] eqn:E; [|done].
  inversion Hrun; subst. eapply framed_run_intro.
  eapply write_batches_on; [|exact E|apply emitted_refl]. done.
Qed.

Lemma bench_random_reads_framed w :
  framed_run db "Random reads" (NUM_READS cfg) w
    (bench_random_reads cfg env db w).
Proof.
  unfold bench_random_reads. eapply framed_run_intro.
  apply read_loop_on; [done|]. apply emitted_refl.
Qed.

Lemma bench_exists_checks_framed w :
  framed_run db "Exists checks" (NUM_READS cfg) w
    (bench_exists_checks cfg env db w).
Proof.
  unfold bench_exists_checks. eapply framed_run_intro.
  apply read_loop_on; [done|]. apply emitted_refl.
Qed.

Lemma bench_sequential_scan_framed w :
  framed_run db "Sequential scan" (Z.of_nat (size (store_of w db))) w
    (bench_sequential_scan env db w).
Proof.
  unfold bench_sequential_scan.
  change (store_of (printf _ (print_header _ w)) db) with (store_of w db).
  rewrite scan_count_length, length_map_to_list.
  eapply framed_run_intro. apply emitted_emit; [done|]. apply emitted_refl.
Qed.

Lemma bench_random_updates_framed w :
  framed_run db "Random updates" (NUM_UPDATES cfg) w
    (bench_random_updates cfg env db w).
Proof.
  unfold bench_random_updates.
  destruct (update_loop _ _ _ _ _) as [batch w1] eqn:E1.
  destruct (DB_Write _ _ _ _ _) as [ok w2] eqn:E2.
  eapply framed_run_intro.
  change w2 with (ok, w2).2. rewrite <- E2. apply DB_Write_on; [done|].
  change w1 with (batch, w1).2. rewrite <- E1.
  apply update_loop_emits, emitted_refl.
Qed.

Lemma bench_random_deletes_framed w :
  framed_run db "Random deletes" (NUM_DELETES cfg) w
    (bench_random_deletes cfg env db w).
Proof.
  unfold bench_random_deletes.
  destruct (delete_loop _ _ _ _ _) as [batch w1] eqn:E1.
  destruct (DB_Write _ _ _ _ _) as [ok w2] eqn:E2.
  eapply framed_run_intro.
  change w2 with (ok, w2).2. rewrite <- E2. apply DB_Write_on; [done|].
  change w1 with (batch, w1).2. rewrite <- E1.
  apply delete_loop_emits, emitted_refl.
Qed.

Lemma mixed_workload_framed total_ops w :
  framed_run db "Mixed workload" total_ops w
    (mixed_workload cfg env total_ops db w).
Proof.
  unfold mixed_workload.
  destruct (mixed_loop _ _ _ _ _ _ _) as [batch w1] eqn:E1.
  eapply framed_run_intro.
  assert (emitted (engine_call db)
            (printf (OText "70% reads, 20% writes, 10% deletes...")
               (print_header "BENCHMARK 7: Mixed Workload" w)) w1) as H1.
  { change w1 with (batch, w1).2. rewrite <- E1.
    apply mixed_loop_on; [done|done|]. apply emitted_refl. }
  destruct (0 <? _); [|done]. by apply DB_Write_on.
Qed.

End Framed.

(** X20.  What each workload does, in order.  Each of the seven workloads
    of the main database prints its header and its progress line, then
    makes engine calls on its own database and nothing else, and prints
    its result line after the last of them: no line is printed between
    two engine calls.  The bulk load opens its database after its
    header, commits once, closes and destroys the database, and prints
    its result line last. *)
Theorem workloads_print_around_engine_calls cfg env db w :
  (forall fuel w',
     bench_sequential_writes cfg env fuel db w = Some w' ->
     framed_run db "Sequential writes" (NUM_RECORDS cfg) w w') /\
  framed_run db "Random reads" (NUM_READS cfg) w
    (bench_random_reads cfg env db w) /\
  framed_run db "Sequential scan" (Z.of_nat (size (store_of w db))) w
    (bench_sequential_scan env db w) /\
  framed_run db "Random updates" (NUM_UPDATES cfg) w
    (bench_random_updates cfg env db w) /\
  framed_run db "Random deletes" (NUM_DELETES cfg) w
    (bench_random_deletes cfg env db w) /\
  framed_run db "Exists checks" (NUM_READS cfg) w
    (bench_exists_checks cfg env db w) /\
  framed_run db "Mixed workload" 20000 w (bench_mixed_workload cfg env db w) /\
  (open_ok env BULK_DB_FILE = true ->
   exists batch ok rate elapsed,
     trace (bench_bulk_insert cfg env w) =
       EvStdout (OResult "Bulk insert" rate elapsed (NUM_RECORDS cfg))
       :: EvDestroy BULK_DB_FILE
       :: EvClose BULK_DB_FILE
       :: EvWrite BULK_DB_FILE {| sync := true |} batch ok
       :: EvOpen BULK_DB_FILE true
       :: EvStdout OConfiguration
       :: EvStdout (OText ("Inserting " +:+ Fmt.d 0 (NUM_RECORDS cfg) +:+
                             " records in one transaction..."))
       :: EvStdout (OHeader "BENCHMARK 8: Bulk Insert (Single Transaction)")
       :: trace w).
Proof.
  split; [intros fuel w'; apply bench_sequential_writes_framed|].
  split; [apply bench_random_reads_framed|].
  split; [apply bench_sequential_scan_framed|].
  split; [apply bench_random_updates_framed|].
  split; [apply bench_random_deletes_framed|].
  split; [apply bench_exists_checks_framed|].
  split; [apply mixed_workload_framed|].
  apply bench_bulk_insert_opened.
Qed.

(** ** Failed commits and failed opens *)

Lemma sequential_load_sizes cfg env fuel db w :
  1 <= NUM_RECORDS cfg -> 1 <= BATCH_SIZE cfg ->
  (Z.to_nat (NUM_RECORDS cfg) < fuel)%nat ->
  exists w',
    bench_sequential_writes cfg env fuel db w = Some w' /\
    commit_sizes w' =
      commit_sizes w ++ chunk_sizes (BATCH_SIZE cfg) (NUM_RECORDS cfg).
Proof.
  intros HN HB Hfuel. unfold bench_sequential_writes.
  set (w0 := printf _ (print_header _ w)).
  destruct (write_batches_spec cfg env fuel db
              (set_sync true WriteOptions_default) 0 w0)
    as (w1 & Hrun & Hsz & _); [lia | lia | by rewrite Z.sub_0_r |].
  rewrite Hrun. eexists. split; [done|].
  change (commit_sizes (print_result _ _ _ w1)) with (commit_sizes w1).
  by rewrite Hsz, Z.sub_0_r.
Qed.

Lemma commit_sizes_same_commits w w' :
  commits w' = commits w -> commit_sizes w' = commit_sizes w.
Proof. unfold commit_sizes. by intros ->. Qed.

Lemma bench_random_updates_sizes cfg env db w :
  commit_sizes (bench_random_updates cfg env db w) =
  commit_sizes w ++ [Z.max 0 (NUM_UPDATES cfg)].
Proof.
  unfold bench_random_updates.
  set (w0 := printf _ (print_header _ w)).
  pose proof (update_loop_commits cfg env (Z.to_nat (NUM_UPDATES cfg)) [] w0) as HC.
  destruct (update_loop_batch cfg env (Z.to_nat (NUM_UPDATES cfg)) [] w0)
    as (puts & Hb & Hlen & _).
  destruct (update_loop _ _ _ _ _) as [b1 w1]. cbn [fst snd] in *. subst b1.
  pose proof (commit_sizes_write env db (set_sync true WriteOptions_default)
                ([] ++ puts) w1) as HW.
  destruct (DB_Write _ _ _ _ _) as [ok w2]. cbn [snd] in HW.
  change (commit_sizes (print_result _ _ _ w2)) with (commit_sizes w2).
  rewrite HW, (commit_sizes_same_commits w0 w1 HC).
  change (commit_sizes w0) with (commit_sizes w).
  cbn [app]. rewrite Hlen. do 2 f_equal. lia.
Qed.

Lemma bench_random_deletes_sizes cfg env db w :
  commit_sizes (bench_random_deletes cfg env db w) =
  commit_sizes w ++ [Z.max 0 (NUM_DELETES cfg)].
Proof.
  unfold bench_random_deletes.
  set (w0 := printf _ (print_header _ w)).
  pose proof (delete_loop_commits cfg env (Z.to_nat (NUM_DELETES cfg)) [] w0) as HC.
  destruct (delete_loop_batch cfg env (Z.to_nat (NUM_DELETES cfg)) [] w0)
    as (dels & Hb & Hlen & _).
  destruct (delete_loop _ _ _ _ _) as [b1 w1]. cbn [fst snd] in *. subst b1.
  pose proof (commit_sizes_write env db (set_sync true WriteOptions_default)
                ([] ++ dels) w1) as HW.
  destruct (DB_Write _ _ _ _ _) as [ok w2]. cbn [snd] in HW.
  change (commit_sizes (print_result _ _ _ w2)) with (commit_sizes w2).
  rewrite HW, (commit_sizes_same_commits w0 w1 HC).
  change (commit_sizes w0) with (commit_sizes w).
  cbn [app]. rewrite Hlen. do 2 f_equal. lia.
Qed.

Lemma bench_bulk_insert_sizes cfg env w :
  open_ok env BULK_DB_FILE = true ->
  commit_sizes (bench_bulk_insert cfg env w) =
  commit_sizes w ++ [Z.max 0 (NUM_RECORDS cfg)].
Proof.
  intros Hopen. unfold bench_bulk_insert, DB_Open. rewrite Hopen. cbn [negb].
  rewrite bulk_loop_spec.
  set (w0 := emit _ (configure_small_db_options _)).
  set (batch := [] ++ _).
  pose proof (commit_sizes_write env BULK_DB_FILE
                (set_sync true WriteOptions_default) batch w0) as HW.
  destruct (DB_Write _ _ _ _ _) as [ok w1]. cbn [snd] in HW.
  change (commit_sizes (print_result _ _ _ (DestroyDB _ (DB_close _ w1))))
    with (commit_sizes w1).
  rewrite HW. change (commit_sizes w0) with (commit_sizes w).
  unfold batch. cbn [app]. rewrite length_fmap, length_seqZ.
  do 2 f_equal. lia.
Qed.

(** C3, amended.  No workload looks at the status of a commit.  Whatever
    the commits return, the sequential load ends after issuing every one
    of its batches, the random updates, the random deletes and the bulk
    load issue their single batch, and the mixed workload goes through
    all its operations, every mutation ending up in a commit; each of
    them writes nothing to stderr and ends by printing its throughput
    line for its full operation count. *)
Theorem commit_status_is_ignored cfg env :
  (forall fuel db w,
     1 <= NUM_RECORDS cfg -> 1 <= BATCH_SIZE cfg ->
     (Z.to_nat (NUM_RECORDS cfg) < fuel)%nat ->
     exists w',
       bench_sequential_writes cfg env fuel db w = Some w' /\
       commit_sizes w' =
         commit_sizes w ++ chunk_sizes (BATCH_SIZE cfg) (NUM_RECORDS cfg) /\
       emitted no_diagnostic w w' /\
       exists rate elapsed,
         head (trace w') =
         Some (EvStdout (OResult "Sequential writes" rate elapsed
                           (NUM_RECORDS cfg)))) /\
  (forall db w,
     commit_sizes (bench_random_updates cfg env db w) =
       commit_sizes w ++ [Z.max 0 (NUM_UPDATES cfg)] /\
     emitted no_diagnostic w (bench_random_updates cfg env db w) /\
     exists rate elapsed,
       head (trace (bench_random_updates cfg env db w)) =
       Some (EvStdout (OResult "Random updates" rate elapsed (NUM_UPDATES cfg)))) /\
  (forall db w,
     commit_sizes (bench_random_deletes cfg env db w) =
       commit_sizes w ++ [Z.max 0 (NUM_DELETES cfg)] /\
     emitted no_diagnostic w (bench_random_deletes cfg env db w) /\
     exists rate elapsed,
       head (trace (bench_random_deletes cfg env db w)) =
       Some (EvStdout (OResult "Random deletes" rate elapsed (NUM_DELETES cfg)))) /\
  (forall total_ops db w,
     0 <= total_ops ->
     (exists (g : Z) (n : nat) (r : Z),
        0 <= g /\ 0 <= r <= 100 /\
        gets_issued (mixed_workload cfg env total_ops db w) = gets_issued w + g /\
        commit_sizes (mixed_workload cfg env total_ops db w) =
          commit_sizes w ++ replicate n 101 ++ (if r =? 0 then [] else [r]) /\
        g + 101 * Z.of_nat n + r = total_ops) /\
     emitted no_diagnostic w (mixed_workload cfg env total_ops db w) /\
     exists rate elapsed,
       head (trace (mixed_workload cfg env total_ops db w)) =
       Some (EvStdout (OResult "Mixed workload" rate elapsed total_ops))) /\
  (forall w,
     open_ok env BULK_DB_FILE = true ->
     commit_sizes (bench_bulk_insert cfg env w) =
       commit_sizes w ++ [Z.max 0 (NUM_RECORDS cfg)] /\
     emitted no_diagnostic w (bench_bulk_insert cfg env w) /\
     exists rate elapsed,
       head (trace (bench_bulk_insert cfg env w)) =
       Some (EvStdout (OResult "Bulk insert" rate elapsed (NUM_RECORDS cfg)))).
Proof.
  split; [|split; [|split; [|split]]].
  - intros fuel db w HN HB Hfuel.
    destruct (sequential_load_sizes cfg env fuel db w HN HB Hfuel)
      as (w' & Hrun & Hsz).
    exists w'. split; [done|]. split; [done|]. split.
    + by eapply bench_sequential_writes_emits.
    + unfold bench_sequential_writes in Hrun.
      destruct (write_batches _ _ _ _ _ _ _); [|done].
      inversion Hrun; subst. by eexists _, _.
  - intros db w. split; [apply bench_random_updates_sizes|]. split.
    + by apply bench_random_updates_emits.
    + unfold bench_random_updates.
      destruct (update_loop _ _ _ _ _) as [b w1].
      destruct (DB_Write _ _ _ _ _) as [ok w2]. by eexists _, _.
  - intros db w. split; [apply bench_random_deletes_sizes|]. split.
    + by apply bench_random_deletes_emits.
    + unfold bench_random_deletes.
      destruct (delete_loop _ _ _ _ _) as [b w1].
      destruct (DB_Write _ _ _ _ _) as [ok w2]. by eexists _, _.
  - intros total_ops db w Htotal. split; [|split].
    + destruct (mixed_workload_accounts cfg env total_ops db w Htotal)
        as (g & n & r & Hg & Hr & Hgets & Hsz & Hsum & _).
      by exists g, n, r.
    + by apply mixed_workload_emits.
    + unfold mixed_workload.
      destruct (mixed_loop _ _ _ _ _ _ _) as [b w1]. by eexists _, _.
  - intros w Hopen. split; [by apply bench_bulk_insert_sizes|].
    destruct (bench_bulk_insert_opened cfg env w) as (b & ok & r & el & Ht); [done|].
    split.
    + eexists [_; _; _; _; _; _; _; _]. split; [exact Ht|]. by repeat constructor.
    + rewrite Ht. by eexists _, _.
Qed.

Lemma commit_status_is_ignored_witness :
  exists w',
    bench_sequential_writes small_config env_failing_commits 6 DB_FILE World_initial
      = Some w' /\
    commit_sizes w' =
      commit_sizes World_initial ++
      chunk_sizes (BATCH_SIZE small_config) (NUM_RECORDS small_config) /\
    emitted no_diagnostic World_initial w' /\
    exists rate elapsed,
      head (trace w') =
      Some (EvStdout (OResult "Sequential writes" rate elapsed
                        (NUM_RECORDS small_config))).
Proof.
  apply (proj1 (commit_status_is_ignored small_config env_failing_commits)
           6%nat DB_FILE World_initial); simpl; lia.
Defined.

Lemma uses_off_bulk e : uses DB_FILE e -> off_bulk e.
Proof. destruct e; cbn [uses off_bulk]; try done; by intros ->. Qed.

(** C4, amended.  When the main engine fails to open, [main] prints a
    diagnostic on stderr and returns 1, after one open attempt and before
    any workload.  When only the bulk-load engine fails to open, the run
    goes through the seven workloads without touching the bulk database,
    the bulk load prints its header, makes its single open attempt and
    prints a diagnostic, issues no operation and prints no result, and
    [main] then prints the summary and returns 0. *)
Theorem open_failure_outcomes cfg env fuel w :
  (open_ok env DB_FILE = false ->
   exists w',
     main cfg env fuel w = Some (Returned 1, w') /\
     trace w' =
       EvStderr "Failed to open RocksDB: "
       :: EvOpen DB_FILE false
       :: EvDestroy DB_FILE
       :: EvStdout OConfiguration
       :: EvStdout (OText "Initializing database...")
       :: EvStdout OBanner
       :: trace w) /\
  (open_ok env DB_FILE = true -> open_ok env BULK_DB_FILE = false ->
   1 <= NUM_RECORDS cfg -> 1 <= BATCH_SIZE cfg ->
   (Z.to_nat (NUM_RECORDS cfg) < fuel)%nat ->
   stats_readable env ->
   exists w' w2 total i f p d,
     main cfg env fuel w = Some (Returned 0, w') /\
     emitted off_bulk w w2 /\
     trace w' =
       EvDestroy DB_FILE :: EvStdout OComplete
       :: EvStdout (OSummary total i f p d)
       :: EvStderr "Failed to open database for bulk insert"
       :: EvOpen BULK_DB_FILE false
       :: EvStdout OConfiguration
       :: EvStdout (OText ("Inserting " +:+ Fmt.d 0 (NUM_RECORDS cfg) +:+
                             " records in one transaction..."))
       :: EvStdout (OHeader "BENCHMARK 8: Bulk Insert (Single Transaction)")
       :: trace w2).
Proof.
  split.
  - intros H. rewrite main_open_failure by done. by eexists.
  - intros Hopen Hbulk HN HB Hfuel Hstats.
    destruct (main_reaches_summary cfg env (fun _ => True) ltac:(done) ltac:(done)
                ltac:(done) ltac:(done) ltac:(done) fuel w)
      as (w2' & w' & _ & Hmain & _); [done..|].
    destruct (main_returned_world cfg env fuel w 0 w' Hmain)
      as [(Hno & _) | (_ & _ & w1 & w2 & Hseq & Hst & ->)]; [congruence|].
    exists (main_summary env (get_time env (at_total_start env w))
              (get_memory_usage env 0) (get_memory_usage env 4) (final_peak env)
              (bench_bulk_insert cfg env (DB_close DB_FILE w2))).2,
           (DB_close DB_FILE w2).
    eexists _, _, _, _, _. split; [exact Hmain|]. split.
    + apply emitted_emit; [done|].
      apply (emitted_trans _ _ (at_total_start env w)).
      * unfold at_total_start. apply printf_emits; [done|].
        apply emitted_emit; [done|]. unfold DestroyDB.
        apply emitted_emit; [done|].
        eapply emitted_trans; [|by apply emitted_same_trace].
        unfold configure_small_db_options. do 3 (apply printf_emits; [done|]).
        apply emitted_refl.
      * apply (emitted_weaken (uses DB_FILE)); [apply uses_off_bulk|].
        eapply emitted_trans;
          [exact (bench_sequential_writes_uses cfg env DB_FILE fuel _ _ Hseq)|].
        eapply emitted_trans; [apply after_workloads_uses|].
        change w2 with (@None Exit, w2).2. rewrite <- Hst.
        apply main_internal_stats_uses.
    + destruct (bench_bulk_insert_unopened cfg env (DB_close DB_FILE w2) Hbulk)
        as [_ Hb].
      cbn [main_summary snd printf emit DestroyDB trace]. by rewrite Hb.
Qed.

Lemma open_failure_outcomes_witness :
  (exists w',
     main default_config env_no_engine 0 World_initial = Some (Returned 1, w') /\
     trace w' =
       EvStderr "Failed to open RocksDB: "
       :: EvOpen DB_FILE false
       :: EvDestroy DB_FILE
       :: EvStdout OConfiguration
       :: EvStdout (OText "Initializing database...")
       :: EvStdout OBanner
       :: trace World_initial) /\
  (exists w' w2 total i f p d,
     main default_config env_bulk_unopenable (enough_fuel default_config)
       World_initial = Some (Returned 0, w') /\
     emitted off_bulk World_initial w2 /\
     trace w' =
       EvDestroy DB_FILE :: EvStdout OComplete
       :: EvStdout (OSummary total i f p d)
       :: EvStderr "Failed to open database for bulk insert"
       :: EvOpen BULK_DB_FILE false
       :: EvStdout OConfiguration
       :: EvStdout (OText ("Inserting " +:+ Fmt.d 0 (NUM_RECORDS default_config) +:+
                             " records in one transaction..."))
       :: EvStdout (OHeader "BENCHMARK 8: Bulk Insert (Single Transaction)")
       :: trace w2).
Proof.
  split.
  - apply (proj1 (open_failure_outcomes default_config env_no_engine 0 World_initial)).
    reflexivity.
  - apply (proj2 (open_failure_outcomes default_config env_bulk_unopenable
                    (enough_fuel default_config) World_initial));
      [ reflexivity | reflexivity | simpl; lia | simpl; lia
      | apply enough_fuel_spec | apply stats_readable_zero; reflexivity ].
Defined.

(** ** Instances *)

Lemma random_workloads_stay_in_range_witness :
  emitted (touches_range default_config) World_initial
    (bench_random_reads default_config env_all_writes DB_FILE World_initial) /\
  emitted (touches_range default_config) World_initial
    (bench_random_updates default_config env_all_writes DB_FILE World_initial) /\
  emitted (touches_range default_config) World_initial
    (bench_random_deletes default_config env_all_writes DB_FILE World_initial) /\
  emitted (touches_range default_config) World_initial
    (bench_exists_checks default_config env_all_writes DB_FILE World_initial) /\
  (forall total_ops,
     emitted (touches_range default_config) World_initial
       (mixed_workload default_config env_all_writes total_ops DB_FILE
          World_initial)).
Proof.
  apply (random_workloads_stay_in_range default_config env_all_writes);
    [reflexivity || (simpl; lia) | intros k; simpl; lia].
Defined.

Lemma workloads_touch_only_their_database_witness :
  (forall fuel w',
     bench_sequential_writes default_config env_plain fuel DB_FILE World_initial
       = Some w' ->
     disk w' !! BULK_DB_FILE = disk World_initial !! BULK_DB_FILE) /\
  disk (bench_random_updates default_config env_plain DB_FILE World_initial)
    !! BULK_DB_FILE = disk World_initial !! BULK_DB_FILE /\
  disk (bench_random_deletes default_config env_plain DB_FILE World_initial)
    !! BULK_DB_FILE = disk World_initial !! BULK_DB_FILE /\
  (forall total_ops,
     disk (mixed_workload default_config env_plain total_ops DB_FILE World_initial)
       !! BULK_DB_FILE = disk World_initial !! BULK_DB_FILE).
Proof.
  apply (workloads_touch_only_their_database default_config env_plain DB_FILE
           BULK_DB_FILE World_initial).
  discriminate.
Defined.

Lemma sequential_load_round_trip_witness :
  exists w',
    bench_sequential_writes default_config env_plain (enough_fuel default_config)
      DB_FILE World_initial = Some w' /\
    (forall i, 0 <= i < NUM_RECORDS default_config ->
       store_of w' DB_FILE !! key_of i = Some (sequential_value i)) /\
    (forall key, ~ key_in_range default_config key ->
       store_of w' DB_FILE !! key = store_of World_initial DB_FILE !! key).
Proof.
  apply (sequential_load_round_trip default_config env_plain
           (enough_fuel default_config) DB_FILE World_initial);
    [simpl; lia | simpl; lia | apply enough_fuel_spec | reflexivity].
Defined.

Lemma load_then_scan_visits_all_witness :
  exists w' rate elapsed,
    bench_sequential_writes default_config env_plain (enough_fuel default_config)
      DB_FILE World_initial = Some w' /\
    head (trace (bench_sequential_scan env_plain DB_FILE w')) =
      Some (EvStdout (OResult "Sequential scan" rate elapsed
                        (NUM_RECORDS default_config))).
Proof.
  apply (load_then_scan_visits_all default_config env_plain
           (enough_fuel default_config) DB_FILE World_initial);
    [simpl; lia | simpl; lia | apply enough_fuel_spec | reflexivity | reflexivity].
Defined.

Lemma random_updates_keep_key_set_witness :
  exists batch ok,
    commits (bench_random_updates small_config env_all_writes DB_FILE World_loaded) =
      EvWrite DB_FILE {| sync := true |} batch ok :: commits World_loaded /\
    length batch = Z.to_nat (NUM_UPDATES small_config) /\
    Forall is_put batch /\
    dom (store_of (bench_random_updates small_config env_all_writes DB_FILE
                     World_loaded) DB_FILE) =
    dom (store_of World_loaded DB_FILE).
Proof.
  apply (random_updates_keep_key_set small_config env_all_writes DB_FILE
           World_loaded).
  - simpl. lia.
  - intros k. simpl. lia.
  - intros i Hi. simpl in Hi.
    assert (i = 0 \/ i = 1 \/ i = 2 \/ i = 3 \/ i = 4) as Hcases by lia.
    destruct Hcases as [->|[->|[->|[->| ->]]]];
      vm_compute; eexists; reflexivity.
Defined.

Lemma mixed_workload_accounts_for_every_op_witness :
  exists (g : Z) (n : nat) (r : Z),
    let w' := mixed_workload default_config env_all_writes 20000 DB_FILE
                World_initial in
    0 <= g /\ 0 <= r <= 100 /\
    gets_issued w' = gets_issued World_initial + g /\
    commit_sizes w' =
      commit_sizes World_initial ++ replicate n 101 ++ (if r =? 0 then [] else [r]) /\
    g + 101 * Z.of_nat n + r = 20000 /\
    n_rand w' = (n_rand World_initial + 2 * Z.to_nat 20000)%nat.
Proof.
  apply (mixed_workload_accounts_for_every_op default_config env_all_writes
           20000 DB_FILE World_initial).
  lia.
Defined.

Lemma sequential_load_needs_positive_batch_witness :
  bench_sequential_writes zero_batch_config env_plain 1000 DB_FILE World_initial
  = None.
Proof.
  apply (sequential_load_needs_positive_batch zero_batch_config env_plain
           1000 DB_FILE World_initial); simpl; lia.
Defined.

Lemma read_workloads_issue_reported_lookups_witness :
  (gets_issued (bench_random_reads default_config env_plain DB_FILE World_initial)
   = gets_issued World_initial + NUM_READS default_config /\
   exists rate elapsed,
     head (trace (bench_random_reads default_config env_plain DB_FILE World_initial))
     = Some (EvStdout (OResult "Random reads" rate elapsed
                         (NUM_READS default_config)))) /\
  (gets_issued (bench_exists_checks default_config env_plain DB_FILE World_initial)
   = gets_issued World_initial + NUM_READS default_config /\
   exists rate elapsed,
     head (trace (bench_exists_checks default_config env_plain DB_FILE World_initial))
     = Some (EvStdout (OResult "Exists checks" rate elapsed
                         (NUM_READS default_config)))).
Proof.
  apply (read_workloads_issue_reported_lookups default_config env_plain DB_FILE
           World_initial).
  simpl. lia.
Defined.

Lemma main_restores_disk_witness :
  is_Some (disk World_stale !! DB_FILE) /\
  exists w',
    main default_config env_plain (enough_fuel default_config) World_stale
      = Some (Returned 0, w') /\
    disk w' =
      delete DB_FILE
        (if open_ok env_plain BULK_DB_FILE
         then delete BULK_DB_FILE (disk World_stale) else disk World_stale).
Proof.
  split; [by eexists|].
  destruct (main_reaches_summary default_config env_plain (fun _ => True)
              (fun _ => I) (fun _ _ => I) (fun _ _ => I) (fun _ _ _ => I)
              (fun _ _ _ => I) (enough_fuel default_config) World_stale)
    as (w2 & w' & _ & Hmain & _);
    [reflexivity | simpl; lia | simpl; lia | apply enough_fuel_spec
    | apply stats_readable_zero; reflexivity |].
  exists w'. split; [exact Hmain|].
  exact (main_restores_disk default_config env_plain (enough_fuel default_config)
           World_stale w' Hmain).
Defined.

Lemma complete_run :
  exists w',
    main default_config env_plain (enough_fuel default_config) World_initial
    = Some (Returned 0, w').
Proof.
  destruct (main_reaches_summary default_config env_plain (fun _ => True)
              (fun _ => I) (fun _ _ => I) (fun _ _ => I) (fun _ _ _ => I)
              (fun _ _ _ => I) (enough_fuel default_config) World_initial)
    as (w2 & w' & _ & Hmain & _);
    [reflexivity | simpl; lia | simpl; lia | apply enough_fuel_spec
    | apply stats_readable_zero; reflexivity |].
  exists w'. exact Hmain.
Qed.

Lemma main_reports_workloads_in_order_witness :
  exists w',
    main default_config env_plain (enough_fuel default_config) World_initial
      = Some (Returned 0, w') /\
    results w' =
      results World_initial ++
      [ "Sequential writes"; "Random reads"; "Sequential scan"; "Random updates";
        "Random deletes"; "Exists checks"; "Mixed workload" ]%string ++
      (if open_ok env_plain BULK_DB_FILE then ["Bulk insert"%string] else []).
Proof.
  destruct complete_run as [w' Hmain]. exists w'. split; [exact Hmain|].
  exact (main_reports_workloads_in_order default_config env_plain
           (enough_fuel default_config) World_initial w' Hmain).
Defined.

Lemma main_scan_visits_all_records_witness :
  exists w' rate elapsed,
    main default_config env_plain (enough_fuel default_config) World_initial
      = Some (Returned 0, w') /\
    EvStdout (OResult "Sequential scan" rate elapsed (NUM_RECORDS default_config))
      ∈ trace w'.
Proof.
  destruct complete_run as [w' Hmain].
  destruct (main_scan_visits_all_records default_config env_plain
              (enough_fuel default_config) World_initial w')
    as (rate & elapsed & Hin);
    [simpl; lia | simpl; lia | apply enough_fuel_spec | reflexivity
    | exact Hmain |].
  exists w', rate, elapsed. split; [exact Hmain | exact Hin].
Defined.

Lemma summary_memory_figures_witness :
  exists w' total i f p d,
    main default_config env_plain (enough_fuel default_config) World_initial
      = Some (Returned 0, w') /\
    summary w' = Some (EvStdout (OSummary total i f p d)) /\
    mem_kb i = get_memory_usage env_plain 0 /\
    mem_kb f = get_memory_usage env_plain 4 /\
    mem_kb p = Z.max (Z.max (Z.max (get_memory_usage env_plain 1)
                               (get_memory_usage env_plain 2))
                        (get_memory_usage env_plain 3))
                 (get_memory_usage env_plain 4) /\
    mem_kb d = get_memory_usage env_plain 4 - get_memory_usage env_plain 0 /\
    mem_kb f <= mem_kb p.
Proof.
  destruct complete_run as [w' Hmain].
  destruct (summary_memory_figures default_config env_plain
              (enough_fuel default_config) World_initial w' Hmain)
    as (total & i & f & p & d & H).
  exists w', total, i, f, p, d. split; [exact Hmain | exact H].
Defined.

Lemma format_number_round_trip_witness :
  Stoull.stoull (strip_commas (format_number 1234567890)) = Some 1234567890.
Proof. apply format_number_round_trip. lia. Defined.

Lemma internal_stats_report_witness :
  exists w',
    main_internal_stats env_small_stats DB_FILE World_initial = (None, w') /\
    head (trace w') =
      Some (EvStdout
              (OInternal (format_memory (1024 / 1024)) (format_memory (2048 / 1024))
                 (format_memory (4096 / 1024))
                 (format_memory ((1024 + 2048 + 4096) mod 2 ^ 64 / 1024)))).
Proof.
  apply (internal_stats_report env_small_stats DB_FILE World_initial 4096 2048 1024);
    try lia; reflexivity.
Defined.

Lemma get_memory_usage_reads_vmrss_witness :
  ProcStatus.get_memory_usage
    (Some (ProcStatus.unlines
             (["Name:   bench"; "VmPeak:   204800 kB"]%string ++
              ("VmRSS:" +:+ String "009" "   " +:+ Fmt.d 0 51200 +:+ " kB") ::
              ["Threads:        7"%string]))) = 51200.
Proof.
  apply (get_memory_usage_reads_vmrss
           ["Name:   bench"; "VmPeak:   204800 kB"]%string
           (String "009" "   ") 51200 ["Threads:        7"%string]).
  - repeat constructor.
  - repeat constructor.
  - reflexivity.
  - vm_compute. reflexivity.
  - unfold ProcStatus.LONG_MAX. lia.
Defined.

Lemma get_memory_usage_unavailable_witness :
  ProcStatus.get_memory_usage
    (Some (ProcStatus.unlines
             ["Name:   bench"; "VmPeak:   204800 kB"; "Threads:        7"]%string))
  = 0 /\
  ProcStatus.get_memory_usage (Some "Name:   bench, a process without a newline"%string)
  = 0.
Proof.
  split.
  - apply (proj2 (proj2 get_memory_usage_unavailable)); repeat constructor.
  - apply (proj1 (proj2 get_memory_usage_unavailable)). reflexivity.
Defined.

Lemma bulk_load_is_isolated_witness :
  disk (bench_bulk_insert default_config env_plain World_initial) !! BULK_DB_FILE
    = None /\
  exists batch ok,
    commits (bench_bulk_insert default_config env_plain World_initial) =
      EvWrite BULK_DB_FILE {| sync := true |} batch ok :: commits World_initial /\
    batch = bulk_put <$> seqZ 0 (Z.of_nat (Z.to_nat (NUM_RECORDS default_config))) /\
    length batch = Z.to_nat (NUM_RECORDS default_config) /\
    Forall (fun op => forall idx, op_key op <> key_of idx) batch.
Proof.
  exact (proj1 (proj2 (bulk_load_is_isolated default_config env_plain World_initial))
           eq_refl).
Defined.

Lemma main_handle_discipline_witness :
  exists w',
    main default_config env_plain (enough_fuel default_config) World_initial
      = Some (Returned 0, w') /\
    handles (trace w') = Some ∅.
Proof.
  destruct complete_run as [w' Hmain]. exists w'. split; [exact Hmain|].
  apply (main_handle_discipline default_config env_plain
           (enough_fuel default_config) World_initial ∅ (Returned 0) w');
    [reflexivity | apply not_elem_of_empty | apply not_elem_of_empty | exact Hmain].
Defined.
